(** * Playback tracking and recommendation scoring of the streaming backend

    A shallow embedding of the playback controller ([startPlayback],
    [updateProgress], [getContinueWatching], [markCompleted]), of the
    pre-save hook of the PlaybackSession model, of the watch history kept
    inside the User document, and of the recommendation controller
    ([getPersonalizedRecommendations], [getSimilarContent],
    [getBecauseYouWatched], [getTopPicks]).

    Conventions of the embedding:
    - a MongoDB collection is a list of documents in natural (insertion)
      order; [findOne] without a sort returns the first match; requests are
      handled one after the other;
    - an ObjectId is a [nat]; a JS Number is an exact rational [Q]: the
      constants and weights of the code are dyadic and their sums are exact
      in IEEE doubles as well, while the rounding of a division (the
      percentage), NaN and the infinities are outside the embedding;
    - [Date.now()] is an explicit argument [now : Z] of every operation;
    - an Express handler is a function from the database and the request to
      the new database and the response; [select] projections are left out. *)

From Stdlib Require Import List Bool Arith ZArith QArith String Ascii.
From Stdlib Require Import Permutation Sorted Lia.
Import ListNotations.

Set Implicit Arguments.

(** ** JavaScript helpers *)

Module JS.

Definition Qlt_bool (a b : Q) : bool := negb (Qle_bool b a).

(** [x || 0] on numbers: 0 is the only falsy rational. *)
Definition orZero (x : option Q) : Q :=
  match x with
  | Some v => if Qeq_bool v 0 then 0%Q else v
  | None => 0%Q
  end.

(** [s || null] on an optional string: the empty string is falsy. *)
Definition orNull (s : option string) : option string :=
  match s with
  | Some EmptyString => None
  | other => other
  end.

(** [Math.max(a, b)]. *)
Definition Math_max (a b : Q) : Q := if Qle_bool a b then b else a.

Section Sort.
Variable A : Type.
(** [before x y]: the comparator lets [x] stay in front of [y], that is
    [cmp(x, y) <= 0]. *)
Variable before : A -> A -> bool.

Fixpoint insert (x : A) (l : list A) : list A :=
  match l with
  | [] => [x]
  | y :: r => if before x y then x :: y :: r else y :: insert x r
  end.

(** [Array.prototype.sort] with a consistent comparator: a stable sort. *)
Definition sort (l : list A) : list A := fold_right insert [] l.
End Sort.

(** *** Own property keys of an ordinary object

    [genreScores] is a plain object used as a map.  Its own enumerable
    properties are kept in creation order; [Object.entries] lists the keys
    that are array indices first, in ascending numeric order, and then the
    other string keys in creation order (OrdinaryOwnPropertyKeys). *)

Definition object := list (string * Q).

Fixpoint get (o : object) (k : string) : option Q :=
  match o with
  | [] => None
  | (k', v) :: r => if String.eqb k' k then Some v else get r k
  end.

Fixpoint set (o : object) (k : string) (v : Q) : object :=
  match o with
  | [] => [(k, v)]
  | (k', v') :: r =>
      if String.eqb k' k then (k', v) :: r else (k', v') :: set r k v
  end.

Definition isDigit (c : ascii) : bool :=
  (48 <=? nat_of_ascii c)%nat && (nat_of_ascii c <=? 57)%nat.

Fixpoint digitsValue (acc : N) (s : string) : option N :=
  match s with
  | EmptyString => Some acc
  | String c r =>
      if isDigit c
      then digitsValue (acc * 10 + (N_of_ascii c - 48))%N r
      else None
  end.

(** A canonical numeric string below 2^32 - 1. *)
Definition arrayIndex (s : string) : option N :=
  match s with
  | EmptyString => None
  | String c r =>
      if Ascii.eqb c "0"%char && negb (String.eqb r EmptyString) then None
      else match digitsValue 0%N s with
           | Some n => if (n <? 4294967295)%N then Some n else None
           | None => None
           end
  end.

Definition isIndexKey (kv : string * Q) : bool :=
  match arrayIndex (fst kv) with Some _ => true | None => false end.

Definition indexOfKey (kv : string * Q) : N :=
  match arrayIndex (fst kv) with Some n => n | None => 0%N end.

Definition Object_entries (o : object) : list (string * Q) :=
  sort (fun a b => (indexOfKey a <=? indexOfKey b)%N) (filter isIndexKey o)
    ++ filter (fun kv => negb (isIndexKey kv)) o.

(** Names that an object literal inherits from [Object.prototype].  For
    such a key [genreScores[key] || 0] is not a number, so these genre
    names are outside the numeric embedding of the scorer. *)
Definition Object_prototype_keys : list string :=
  [ "constructor"; "toString"; "toLocaleString"; "valueOf";
    "hasOwnProperty"; "isPrototypeOf"; "propertyIsEnumerable";
    "__proto__"; "__defineGetter__"; "__defineSetter__";
    "__lookupGetter__"; "__lookupSetter__" ]%string.

Definition inherited (k : string) : bool :=
  existsb (String.eqb k) Object_prototype_keys.

End JS.

(** ** MongoDB query helpers *)

Module Mongo.

(** [.limit(n)]: a limit of 0 means no limit. *)
Definition limit (A : Type) (n : nat) (l : list A) : list A :=
  match n with
  | O => l
  | S _ => firstn n l
  end.

(** [.sort(spec)]: documents ordered by [before]; ties keep the natural
    order (MongoDB leaves the order of ties unspecified). *)
Definition sort (A : Type) (before : A -> A -> bool) (l : list A) : list A :=
  JS.sort before l.

(** [updateOne({_id}, ...)]: the first document selected is rewritten. *)
Fixpoint updateFirst (A : Type) (sel : A -> bool) (f : A -> A) (l : list A)
  : list A :=
  match l with
  | [] => []
  | x :: r => if sel x then f x :: r else x :: updateFirst sel f r
  end.

Definition freshId (ids : list nat) : nat := S (fold_right Nat.max 0%nat ids).

End Mongo.

(** ** Responses of a handler *)

Inductive Response (A : Type) : Type :=
| Ok (data : A)                      (* res.json({success: true, ...}) *)
| NotFound (message : string)        (* res.status(404) *)
| Forbidden (message : string)       (* res.status(403) *)
| ServerError.                       (* next(error) *)

Arguments NotFound {A} message.
Arguments Forbidden {A} message.
Arguments ServerError {A}.

(** ** Models *)

Inductive plan : Type := free | basic | standard | premium.

Definition plan_eqb (a b : plan) : bool :=
  match a, b with
  | free, free | basic, basic | standard, standard | premium, premium => true
  | _, _ => false
  end.

Module Content.

Inductive kind : Type := movie | series.
Inductive state : Type := draft | published | archived.

Record episode : Type := { ep_id : string; ep_videoUrl : option string }.

Record t : Type := {
  _id : nat;
  type : kind;
  genres : list string;
  imdbRating : option Q;
  castNames : list string;           (* cast[].name *)
  director : option string;
  videoUrl : option string;
  seasons : list (list episode);     (* seasons[].episodes *)
  views : Q;
  status : state;
  subscriptionRequired : option plan;
  createdAt : Z
}.

Definition kind_eqb (a b : kind) : bool :=
  match a, b with
  | movie, movie | series, series => true
  | _, _ => false
  end.

Definition isPublished (c : t) : bool :=
  match status c with published => true | _ => false end.

Definition findById (id : nat) (coll : list t) : option t :=
  find (fun c => Nat.eqb (_id c) id) coll.

End Content.

Module User.

Record entry : Type := {
  contentId : nat;
  watchedAt : Z;
  progress : Q;
  completed : bool
}.

Record t : Type := {
  _id : nat;
  subscriptionPlan : option plan;    (* subscription?.plan *)
  watchlist : list nat;
  watchHistory : list entry
}.

Definition findById (id : nat) (coll : list t) : option t :=
  find (fun u => Nat.eqb (_id u) id) coll.

Definition setHistory (h : list entry) (u : t) : t :=
  {| _id := _id u; subscriptionPlan := subscriptionPlan u;
     watchlist := watchlist u; watchHistory := h |}.

(** [findByIdAndUpdate(id, update)] on the watch history. *)
Definition updateHistory (id : nat) (f : list entry -> list entry)
           (coll : list t) : list t :=
  Mongo.updateFirst (fun u => Nat.eqb (_id u) id)
                    (fun u => setHistory (f (watchHistory u)) u) coll.

(** [$pull: { watchHistory: { contentId } }]. *)
Definition pull (c : nat) (h : list entry) : list entry :=
  filter (fun e => negb (Nat.eqb (contentId e) c)) h.

(** [$push: { watchHistory: { $each: [e], $position: 0, $slice: 100 } }]. *)
Definition push (e : entry) (h : list entry) : list entry :=
  firstn 100 (e :: h).

(** [$set] of [completed] and [progress] on the elements selected by the
    array filter [elem.contentId = c]. *)
Definition setCompleted (c : nat) (h : list entry) : list entry :=
  map (fun e => if Nat.eqb (contentId e) c
                then {| contentId := contentId e; watchedAt := watchedAt e;
                        progress := 100; completed := true |}
                else e) h.

End User.

Module PlaybackSession.

Record progress_t : Type := {
  currentTime : Q;
  duration : Q;
  percentage : Q
}.

(** The session document ([device] is not part of the embedding). *)
Record t : Type := {
  _id : nat;
  userId : nat;
  contentId : nat;
  episodeId : option string;
  progress : progress_t;
  completed : bool;
  quality : string;
  startedAt : Z;
  lastUpdated : Z;
  sessionDuration : Q
}.

Definition qualityEnum : list string :=
  [ "360p"; "480p"; "720p"; "1080p"; "4K"; "auto" ]%string.

Definition setProgress (p : progress_t) (s : t) : t :=
  {| _id := _id s; userId := userId s; contentId := contentId s;
     episodeId := episodeId s; progress := p; completed := completed s;
     quality := quality s; startedAt := startedAt s;
     lastUpdated := lastUpdated s; sessionDuration := sessionDuration s |}.

Definition setCompleted (b : bool) (s : t) : t :=
  {| _id := _id s; userId := userId s; contentId := contentId s;
     episodeId := episodeId s; progress := progress s; completed := b;
     quality := quality s; startedAt := startedAt s;
     lastUpdated := lastUpdated s; sessionDuration := sessionDuration s |}.

Definition setLastUpdated (z : Z) (s : t) : t :=
  {| _id := _id s; userId := userId s; contentId := contentId s;
     episodeId := episodeId s; progress := progress s;
     completed := completed s; quality := quality s;
     startedAt := startedAt s; lastUpdated := z;
     sessionDuration := sessionDuration s |}.

Definition setSessionDuration (d : Q) (s : t) : t :=
  {| _id := _id s; userId := userId s; contentId := contentId s;
     episodeId := episodeId s; progress := progress s;
     completed := completed s; quality := quality s;
     startedAt := startedAt s; lastUpdated := lastUpdated s;
     sessionDuration := d |}.

Definition setPercentage (q : Q) (s : t) : t :=
  setProgress {| currentTime := currentTime (progress s);
                 duration := duration (progress s);
                 percentage := q |} s.

(** [playbackSessionSchema.pre('save')]. *)
Definition preSave (now : Z) (s : t) : t :=
  let s1 :=
    if JS.Qlt_bool 0 (duration (progress s)) then
      let pct := (currentTime (progress s) / duration (progress s) * 100)%Q in
      let s' := setPercentage pct s in
      if Qle_bool 90 pct then setCompleted true s' else s'
    else s in
  setLastUpdated now s1.

Definition findById (id : nat) (coll : list t) : option t :=
  find (fun s => Nat.eqb (_id s) id) coll.

Definition option_string_eqb (a b : option string) : bool :=
  match a, b with
  | Some x, Some y => String.eqb x y
  | None, None => true
  | _, _ => false
  end.

(** The filter [{ userId, contentId, episodeId: episodeId || null }]. *)
Definition matches (uid cid : nat) (eid : option string) (s : t) : bool :=
  Nat.eqb (userId s) uid && Nat.eqb (contentId s) cid
  && option_string_eqb (episodeId s) (JS.orNull eid).

(** [session.save()] of a stored document. *)
Definition save (now : Z) (s : t) (coll : list t) : t * list t :=
  let s' := preSave now s in
  (s', Mongo.updateFirst (fun x => Nat.eqb (_id x) (_id s)) (fun _ => s') coll).

(** [PlaybackSession.create(...)]: schema defaults, a fresh [_id], the
    pre-save hook, insertion at the end of the collection. *)
Definition create (now : Z) (uid cid : nat) (eid : option string)
           (ct dur : Q) (q : string) (coll : list t) : t * list t :=
  let s := preSave now
             {| _id := Mongo.freshId (map _id coll);
                userId := uid; contentId := cid; episodeId := eid;
                progress := {| currentTime := ct; duration := dur;
                               percentage := 0 |};
                completed := false; quality := q;
                startedAt := now; lastUpdated := now;
                sessionDuration := 0 |} in
  (s, (coll ++ [s])%list).

End PlaybackSession.

Record DB : Type := {
  contents : list Content.t;
  users : list User.t;
  sessions : list PlaybackSession.t
}.

Definition withSessions (l : list PlaybackSession.t) (db : DB) : DB :=
  {| contents := contents db; users := users db; sessions := l |}.

(** ** The playback controller *)

Module Playback.

Import PlaybackSession.

Definition planHierarchy : list plan := [free; basic; standard; premium].

(** [Array.prototype.indexOf]: -1 when the element is absent. *)
Fixpoint indexOf (p : plan) (l : list plan) : Z :=
  match l with
  | [] => (-1)%Z
  | x :: r =>
      if plan_eqb x p then 0%Z
      else let i := indexOf p r in
           if (i <? 0)%Z then (-1)%Z else (i + 1)%Z
  end.

Definition planName (p : plan) : string :=
  match p with
  | free => "free" | basic => "basic"
  | standard => "standard" | premium => "premium"
  end.

Definition planOrFree (p : option plan) : plan :=
  match p with Some x => x | None => free end.

Record startBody : Type := {
  sb_contentId : nat;
  sb_episodeId : option string;
  sb_duration : option Q;
  sb_quality : option string
}.

Record startData : Type := {
  sd_sessionId : nat;
  sd_resumeFrom : Q;
  sd_videoUrl : option string;
  sd_quality : string
}.

(** The episode lookup of [startPlayback]: the first season that holds
    the episode decides the URL. *)
Fixpoint episodeUrl (eid : string) (seasons : list (list Content.episode))
  : option (option string) :=
  match seasons with
  | [] => None
  | season :: r =>
      match find (fun e => String.eqb (Content.ep_id e) eid) season with
      | Some e => Some (Content.ep_videoUrl e)
      | None => episodeUrl eid r
      end
  end.

Definition playableUrl (content : Content.t) (eid : option string)
  : option string :=
  match Content.type content, JS.orNull eid with
  | Content.series, Some e =>
      match episodeUrl e (Content.seasons content) with
      | Some url => url
      | None => Content.videoUrl content
      end
  | _, _ => Content.videoUrl content
  end.

Definition startResponse (content : Content.t) (eid : option string)
           (s : PlaybackSession.t) : Response startData :=
  Ok {| sd_sessionId := _id s;
        sd_resumeFrom := currentTime (progress s);
        sd_videoUrl := playableUrl content eid;
        sd_quality := quality s |}.

(** [exports.startPlayback]; [user] is [req.user]. *)
Definition startPlayback (now : Z) (user : User.t) (b : startBody) (db : DB)
  : DB * Response startData :=
  match Content.findById (sb_contentId b) (contents db) with
  | None => (db, NotFound "Content not found")
  | Some content =>
      let userPlan := planOrFree (User.subscriptionPlan user) in
      let requiredPlan := planOrFree (Content.subscriptionRequired content) in
      if (indexOf userPlan planHierarchy <? indexOf requiredPlan planHierarchy)%Z
      then (db, Forbidden ("This content requires a " ++ planName requiredPlan
                           ++ " subscription")%string)
      else
        match find (fun s => matches (User._id user) (sb_contentId b)
                                     (sb_episodeId b) s
                             && negb (completed s)) (sessions db) with
        | Some s => (db, startResponse content (sb_episodeId b) s)
        | None =>
            (* [PlaybackSession.create] is called with
               [device: { type, ip }], an object, while the schema declares
               [device] as a String path: the document fails validation
               whatever the duration and the quality are, nothing is stored
               and the error goes to [next]. *)
            (db, ServerError)
        end
  end.

Record progressBody : Type := {
  pb_sessionId : option nat;
  pb_contentId : nat;
  pb_episodeId : option string;
  pb_currentTime : Q;
  pb_duration : Q
}.

Record progressData : Type := {
  pd_progress : progress_t;
  pd_completed : bool
}.

(** The session lookup of [updateProgress]: by id when one is supplied,
    else by the identity triple (completed sessions included). *)
Definition lookup (uid : nat) (b : progressBody) (coll : list PlaybackSession.t)
  : option PlaybackSession.t :=
  match pb_sessionId b with
  | Some sid => findById sid coll
  | None => find (matches uid (pb_contentId b) (pb_episodeId b)) coll
  end.

(** The three assignments of the "update existing session" branch, in the
    order of the source: the delta is read after [currentTime] has been
    overwritten. *)
Definition assign (b : progressBody) (s : PlaybackSession.t)
  : PlaybackSession.t :=
  let s1 := setProgress {| currentTime := pb_currentTime b;
                           duration := duration (progress s);
                           percentage := percentage (progress s) |} s in
  let s2 := setProgress {| currentTime := currentTime (progress s1);
                           duration := pb_duration b;
                           percentage := percentage (progress s1) |} s1 in
  setSessionDuration
    (sessionDuration s2
     + (pb_currentTime b - JS.orZero (Some (currentTime (progress s2)))))%Q
    s2.

Definition upsertSession (now : Z) (uid : nat) (b : progressBody)
           (coll : list PlaybackSession.t)
  : PlaybackSession.t * list PlaybackSession.t :=
  match lookup uid b coll with
  | None =>
      create now uid (pb_contentId b) (pb_episodeId b)
             (pb_currentTime b) (pb_duration b) "auto" coll
  | Some s => save now (assign b s) coll
  end.

Definition snapshot (now : Z) (cid : nat) (s : PlaybackSession.t)
  : User.entry :=
  {| User.contentId := cid; User.watchedAt := now;
     User.progress := percentage (progress s);
     User.completed := completed s |}.

(** [exports.updateProgress]; [uid] is [req.user._id]. *)
Definition updateProgress (now : Z) (uid : nat) (b : progressBody) (db : DB)
  : DB * Response progressData :=
  let '(session, coll) := upsertSession now uid b (sessions db) in
  let us1 := User.updateHistory uid (User.pull (pb_contentId b)) (users db) in
  let us2 := User.updateHistory uid
               (User.push (snapshot now (pb_contentId b) session)) us1 in
  ({| contents := contents db; users := us2; sessions := coll |},
   Ok {| pd_progress := progress session;
         pd_completed := completed session |}).

Record summary : Type := {
  sm_content : option Content.t;     (* populate('contentId', ...) *)
  sm_progress : progress_t;
  sm_episodeId : option string;
  sm_lastWatched : Z
}.

Definition summarize (cs : list Content.t) (s : PlaybackSession.t) : summary :=
  {| sm_content := Content.findById (contentId s) cs;
     sm_progress := progress s;
     sm_episodeId := episodeId s;
     sm_lastWatched := lastUpdated s |}.

(** The filter of [getContinueWatching]. *)
Definition resumable (uid : nat) (s : PlaybackSession.t) : bool :=
  Nat.eqb (userId s) uid && negb (completed s)
  && JS.Qlt_bool 5 (percentage (progress s))
  && JS.Qlt_bool (percentage (progress s)) 90.

Definition newerFirst (a b : PlaybackSession.t) : bool :=
  (lastUpdated b <=? lastUpdated a)%Z.

Definition continueSessions (uid : nat) (db : DB) : list PlaybackSession.t :=
  Mongo.limit 20 (Mongo.sort newerFirst (filter (resumable uid) (sessions db))).

(** [exports.getContinueWatching]; [queryLimit] is [req.query.limit],
    which the handler does not read. *)
Definition getContinueWatching (uid : nat) (queryLimit : option nat) (db : DB)
  : Response (list summary) :=
  Ok (map (summarize (contents db)) (continueSessions uid db)).

Definition forceCompleted (s : PlaybackSession.t) : PlaybackSession.t :=
  setCompleted true (setPercentage 100 s).

(** [exports.markCompleted]: [findOneAndUpdate] runs no save hook. *)
Definition markCompleted (uid cid : nat) (eid : option string) (db : DB)
  : DB * Response unit :=
  let coll := Mongo.updateFirst (matches uid cid eid) forceCompleted
                                (sessions db) in
  let us := User.updateHistory uid (User.setCompleted cid) (users db) in
  ({| contents := contents db; users := us; sessions := coll |}, Ok tt).

End Playback.

(** ** The recommendation controller *)

Module Recommendation.

Definition inb (g : string) (l : list string) : bool :=
  existsb (String.eqb g) l.

(** [genres: { $in: gs }] on the array field [genres]. *)
Definition genresIn (gs : list string) (c : Content.t) : bool :=
  existsb (fun g => inb g gs) (Content.genres c).

(** [_id: { $nin: ids }]; an [undefined] element excludes nothing. *)
Definition idNin (ids : list (option nat)) (c : Content.t) : bool :=
  negb (existsb (fun o => match o with
                          | Some i => Nat.eqb i (Content._id c)
                          | None => false
                          end) ids).

Definition ratingLeb (a b : option Q) : bool :=
  match a, b with
  | None, _ => true                  (* a missing field sorts lowest *)
  | Some _, None => false
  | Some x, Some y => Qle_bool x y
  end.

(** [.sort({ views: -1, imdbRating: -1 })]. *)
Definition byViewsRating (a b : Content.t) : bool :=
  JS.Qlt_bool (Content.views b) (Content.views a)
  || (Qeq_bool (Content.views a) (Content.views b)
      && ratingLeb (Content.imdbRating b) (Content.imdbRating a)).

(** [.sort({ views: -1, createdAt: -1 })]. *)
Definition byViewsCreated (a b : Content.t) : bool :=
  JS.Qlt_bool (Content.views b) (Content.views a)
  || (Qeq_bool (Content.views a) (Content.views b)
      && (Content.createdAt b <=? Content.createdAt a)%Z).

(** [.sort({ imdbRating: -1, views: -1 })]. *)
Definition byRatingViews (a b : Content.t) : bool :=
  negb (ratingLeb (Content.imdbRating a) (Content.imdbRating b))
  || (ratingLeb (Content.imdbRating b) (Content.imdbRating a)
      && Qle_bool (Content.views b) (Content.views a)).

(** [populate('watchHistory.contentId', ...)]: a dangling reference
    becomes [null]. *)
Definition populateHistory (cs : list Content.t) (h : list User.entry)
  : list (User.entry * option Content.t) :=
  map (fun e => (e, Content.findById (User.contentId e) cs)) h.

(** [populate('watchlist', ...)]: only resolved references are seen by
    the loop ([if (!item) return]). *)
Definition populateWatchlist (cs : list Content.t) (w : list nat)
  : list Content.t :=
  flat_map (fun i => match Content.findById i cs with
                     | Some c => [c]
                     | None => []
                     end) w.

(** [genreScores[genre] = (genreScores[genre] || 0) + weight]. *)
Definition addWeight (w : Q) (o : JS.object) (genre : string) : JS.object :=
  JS.set o genre (JS.orZero (JS.get o genre) + w)%Q.

(** [Math.max(1, 10 - index * 0.5)]. *)
Definition weight (index : nat) : Q :=
  JS.Math_max 1 (10 - inject_Z (Z.of_nat index) * (1 # 2))%Q.

(** The [forEach] over the populated watch history, from [index] on. *)
Fixpoint scoreHistory (index : nat)
         (h : list (User.entry * option Content.t)) (o : JS.object)
  : JS.object :=
  match h with
  | [] => o
  | (_, None) :: r => scoreHistory (S index) r o
  | (_, Some c) :: r =>
      scoreHistory (S index) r
                   (fold_left (addWeight (weight index)) (Content.genres c) o)
  end.

Definition scoreWatchlist (w : list Content.t) (o : JS.object) : JS.object :=
  fold_left (fun acc c => fold_left (addWeight 2) (Content.genres c) acc) w o.

(** [genreScores] after both loops ([typePreference] is accumulated by
    the source as well, and never read). *)
Definition genreScores (cs : list Content.t) (u : User.t) : JS.object :=
  scoreWatchlist (populateWatchlist cs (User.watchlist u))
    (scoreHistory 0 (populateHistory cs (User.watchHistory u)) []).

(** The comparator [(a, b) => b[1] - a[1]]. *)
Definition higherFirst (a b : string * Q) : bool := Qle_bool (snd b) (snd a).

Definition ranked (o : JS.object) : list (string * Q) :=
  JS.sort higherFirst (JS.Object_entries o).

Definition topGenres (n : nat) (o : JS.object) : list string :=
  map fst (firstn n (ranked o)).

(** [watchHistory.filter(h => h.completed).map(h => h.contentId?._id)]. *)
Definition watchedIds (cs : list Content.t) (u : User.t) : list (option nat) :=
  map (fun p => option_map Content._id (snd p))
      (filter (fun p => User.completed (fst p))
              (populateHistory cs (User.watchHistory u))).

Record personalized : Type := {
  data : list Content.t;
  basedOn : list string
}.

Definition primary (limit : nat) (top : list string)
           (watched : list (option nat)) (cs : list Content.t)
  : list Content.t :=
  match top with
  | [] => []
  | _ :: _ =>
      Mongo.limit limit
        (Mongo.sort byViewsRating
           (filter (fun c => genresIn top c && idNin watched c
                             && Content.isPublished c) cs))
  end.

Definition fill (limit : nat) (watched : list (option nat))
           (recs : list Content.t) (cs : list Content.t) : list Content.t :=
  if (List.length recs <? limit)%nat then
    (recs ++
     Mongo.limit (limit - List.length recs)
       (Mongo.sort byViewsCreated
          (filter (fun c =>
                     idNin (watched ++ map (fun r => Some (Content._id r)) recs) c
                     && Content.isPublished c) cs)))%list
  else recs.

(** [exports.getPersonalizedRecommendations].  [shuffle] stands for
    [sort(() => Math.random() - 0.5)], the handler's only source of
    nondeterminism; [limit] is the query parameter, a non-negative integer
    numeral (or the default 20): for such a value the number that the
    handler compares the length with and [parseInt(limit)] agree, for
    other values (2.5, say) they differ and the embedding does not
    apply. *)
Definition getPersonalizedRecommendations
           (shuffle : list Content.t -> list Content.t)
           (uid : nat) (limit : nat) (db : DB) : Response personalized :=
  match User.findById uid (users db) with
  | None => ServerError              (* user.watchHistory on null *)
  | Some user =>
      let top := topGenres 5 (genreScores (contents db) user) in
      let watched := watchedIds (contents db) user in
      let recs := primary limit top watched (contents db) in
      let recs := fill limit watched recs (contents db) in
      Ok {| data := shuffle recs; basedOn := firstn 3 top |}
  end.

(** [exports.getSimilarContent]. *)
Definition getSimilarContent (cid : nat) (limit : nat) (db : DB)
  : Response (list Content.t) :=
  match Content.findById cid (contents db) with
  | None => NotFound "Content not found"
  | Some content =>
      Ok (Mongo.limit limit
            (Mongo.sort byRatingViews
               (filter (fun c =>
                          negb (Nat.eqb (Content._id c) cid)
                          && Content.kind_eqb (Content.type c)
                                              (Content.type content)
                          && genresIn (Content.genres content) c
                          && Content.isPublished c) (contents db))))
  end.

Definition option_string_eqb := PlaybackSession.option_string_eqb.

(** [exports.getBecauseYouWatched]. *)
Definition getBecauseYouWatched (cid : nat) (limit : nat) (db : DB)
  : Response (nat * list Content.t) :=
  match Content.findById cid (contents db) with
  | None => NotFound "Content not found"
  | Some watched =>
      Ok (Content._id watched,
          Mongo.limit limit
            (Mongo.sort byRatingViews
               (filter (fun c =>
                          negb (Nat.eqb (Content._id c) cid)
                          && Content.isPublished c
                          && (genresIn (Content.genres watched) c
                              || option_string_eqb (Content.director c)
                                                   (Content.director watched)
                              || existsb
                                   (fun n => inb n (firstn 3 (Content.castNames watched)))
                                   (Content.castNames c)))
                       (contents db))))
  end.

Definition countHistory (h : list (User.entry * option Content.t))
  : JS.object :=
  fold_left (fun acc p => match snd p with
                          | None => acc
                          | Some c => fold_left (addWeight 1) (Content.genres c) acc
                          end) h [].

Definition ratingAtLeast (q : Q) (c : Content.t) : bool :=
  match Content.imdbRating c with
  | Some r => Qle_bool q r
  | None => false
  end.

(** [exports.getTopPicks]. *)
Definition getTopPicks (uid : nat) (limit : nat) (db : DB)
  : Response (list Content.t) :=
  match User.findById uid (users db) with
  | None => ServerError
  | Some user =>
      let top := topGenres 3 (countHistory
                                (populateHistory (contents db)
                                                 (User.watchHistory user))) in
      let wanted := match top with
                    | [] => ["Drama"; "Action"; "Comedy"]%string
                    | _ :: _ => top
                    end in
      Ok (Mongo.limit limit
            (Mongo.sort byRatingViews
               (filter (fun c => genresIn wanted c && Content.isPublished c
                                 && ratingAtLeast 7 c) (contents db))))
  end.

End Recommendation.

(** ** Reference notions used by the statements *)

Module Spec.

(** A list in the order of a comparator: each element may stay in front of
    all the later ones. *)
Definition ordered (A : Type) (before : A -> A -> bool) (l : list A) : Prop :=
  StronglySorted (fun x y => before x y = true) l.

(** [y] ties with [x] under the comparator. *)
Definition ties (A : Type) (before : A -> A -> bool) (x y : A) : bool :=
  before x y && before y x.

(** A progress report with its clock reading and its caller. *)
Definition report : Type := (Z * nat * Playback.progressBody)%type.

Definition step (db : DB) (r : report) : DB :=
  let '(now, uid, b) := r in fst (Playback.updateProgress now uid b db).

(** The database after a sequence of progress reports. *)
Definition run (rs : list report) (db : DB) : DB := fold_left step rs db.

(** The [completed] flag of the stored session [sid]. *)
Definition sessionCompleted (sid : nat) (db : DB) : bool :=
  match PlaybackSession.findById sid (sessions db) with
  | Some s => PlaybackSession.completed s
  | None => false
  end.

(** The watch history of the stored user [uid]. *)
Definition ledger (uid : nat) (db : DB) : list User.entry :=
  match User.findById uid (users db) with
  | Some u => User.watchHistory u
  | None => []
  end.

(** The ledger lists the most recently touched entry first. *)
Definition recentFirst (h : list User.entry) : Prop :=
  StronglySorted (fun a b => (User.watchedAt b <= User.watchedAt a)%Z) h.

(** The content ids of a ledger, head first. *)
Definition ids (h : list User.entry) : list nat := map User.contentId h.

(** Session ids are unique, as the [_id] index of the collection makes
    them. *)
Definition uniqueIds (db : DB) : Prop :=
  NoDup (map PlaybackSession._id (sessions db)).

(** Noting a name at the end of the names seen so far, unless it is there. *)
Definition see (seen : list string) (g : string) : list string :=
  if Recommendation.inb g seen then seen else (seen ++ [g])%list.

(** The distinct names of a list, in the order of their first occurrence. *)
Definition firstSeen (l : list string) : list string := fold_left see l [].

(** The genre tags met by the two scoring loops, in the order met. *)
Definition genresMet (cs : list Content.t) (u : User.t) : list string :=
  (flat_map (fun p => match snd p with
                      | Some c => Content.genres c
                      | None => []
                      end)
            (Recommendation.populateHistory cs (User.watchHistory u))
   ++ flat_map Content.genres
        (Recommendation.populateWatchlist cs (User.watchlist u)))%list.

Definition occurrences (g : string) (gs : list string) : Q :=
  inject_Z (Z.of_nat (count_occ string_dec gs g)).

(** Sum over the history positions [index, index+1, ...] of the weight
    of the position, once per occurrence of [g] among the genres of the
    content at that position. *)
Fixpoint historyScore (index : nat)
         (h : list (User.entry * option Content.t)) (g : string) : Q :=
  match h with
  | [] => 0
  | (_, None) :: r => historyScore (S index) r g
  | (_, Some c) :: r =>
      (occurrences g (Content.genres c) * Recommendation.weight index
       + historyScore (S index) r g)%Q
  end.

(** A flat 2 per occurrence of [g] among the genres of a watchlist item. *)
Fixpoint watchlistScore (w : list Content.t) (g : string) : Q :=
  match w with
  | [] => 0
  | c :: r => (occurrences g (Content.genres c) * 2 + watchlistScore r g)%Q
  end.

(** The accumulated score of a genre, 0 when it was never met. *)
Definition score (o : JS.object) (g : string) : Q := JS.orZero (JS.get o g).

(** The rank of a subscription plan: free, basic, standard, premium. *)
Definition tier (p : plan) : nat :=
  match p with
  | free => 0 | basic => 1 | standard => 2 | premium => 3
  end.

(** A genre name that is an ordinary property key: not an array index and
    not a name inherited from [Object.prototype]. *)
Definition plainKey (g : string) : Prop :=
  JS.arrayIndex g = None /\ JS.inherited g = false.

End Spec.

(** ** Concrete databases *)

Module Examples.

Definition film (id : nat) (gs : list string) (required : plan) (v : Q)
  : Content.t :=
  {| Content._id := id; Content.type := Content.movie; Content.genres := gs;
     Content.imdbRating := Some (7 # 1); Content.castNames := [];
     Content.director := None; Content.videoUrl := Some "movie.mp4"%string;
     Content.seasons := []; Content.views := v;
     Content.status := Content.published;
     Content.subscriptionRequired := Some required;
     Content.createdAt := Z.of_nat id |}.

Definition catalog : list Content.t :=
  (map (fun i => film i ["Drama"%string] free (inject_Z (Z.of_nat i)))
       (seq 1 12)
   ++ [ film 20 ["Action"%string] premium 5;
        film 30 ["Drama"; "7"]%string free 3 ])%list.

Definition viewer (h : list User.entry) : User.t :=
  {| User._id := 1; User.subscriptionPlan := Some free;
     User.watchlist := []; User.watchHistory := h |}.

Definition watched (c : nat) (at_ : Z) : User.entry :=
  {| User.contentId := c; User.watchedAt := at_;
     User.progress := 50; User.completed := false |}.

Definition db0 : DB :=
  {| contents := catalog; users := [viewer []]; sessions := [] |}.

Definition dbOf (h : list User.entry) : DB :=
  {| contents := catalog; users := [viewer h]; sessions := [] |}.

Definition reportAt (c : nat) (t d : Q) : Playback.progressBody :=
  {| Playback.pb_sessionId := None; Playback.pb_contentId := c;
     Playback.pb_episodeId := None; Playback.pb_currentTime := t;
     Playback.pb_duration := d |}.

(** One session of viewer 1 on content 1, reported at 10 s of 120 s. *)
Definition dbStarted : DB :=
  Spec.run [(1000%Z, 1%nat, reportAt 1 10 120)] db0.

(** The same session reported at 108 s of 120 s: 90 percent, completed. *)
Definition dbCompleted : DB :=
  Spec.run [(1000%Z, 1%nat, reportAt 1 108 120)] db0.

(** Two open sessions of viewer 1, at 25 and at 50 percent. *)
Definition dbTwoOpen : DB :=
  Spec.run [(1000%Z, 1%nat, reportAt 1 30 120);
                (2000%Z, 1%nat, reportAt 2 60 120)] db0.

(** Reports on the contents 1 .. n, in this order, by viewer 1. *)
Definition reportsUpTo (n : nat) : list Spec.report :=
  map (fun i => (Z.of_nat i, 1%nat, reportAt i 30 120)) (seq 1 n).

Definition startPremium : Playback.startBody :=
  {| Playback.sb_contentId := 20; Playback.sb_episodeId := None;
     Playback.sb_duration := Some 120; Playback.sb_quality := None |}.

End Examples.

(** ** Further handlers of the playback controller *)

Module PlaybackReads.

Import PlaybackSession.

Inductive resumeInfo : Type :=
| NoResumePoint (currentTime : Q)
| ResumeAt (currentTime percentage : Q) (sessionId : nat)
           (episodeId : option string).

(** The query of [getResumePoint]: the episode is part of it only when the
    request names one. *)
Definition resumeQuery (uid cid : nat) (eid : option string)
           (s : PlaybackSession.t) : bool :=
  Nat.eqb (userId s) uid && Nat.eqb (contentId s) cid && negb (completed s)
  && match JS.orNull eid with
     | Some e => option_string_eqb (episodeId s) (Some e)
     | None => true
     end.

(** [findOne(query).sort({ lastUpdated: -1 })]. *)
Definition resumeSession (uid cid : nat) (eid : option string) (db : DB)
  : option PlaybackSession.t :=
  hd_error (Mongo.sort Playback.newerFirst
                       (filter (resumeQuery uid cid eid) (sessions db))).

(** [exports.getResumePoint]. *)
Definition getResumePoint (uid cid : nat) (eid : option string) (db : DB)
  : Response resumeInfo :=
  match resumeSession uid cid eid db with
  | None => Ok (NoResumePoint 0)
  | Some s =>
      Ok (ResumeAt (currentTime (progress s)) (percentage (progress s))
                   (_id s) (episodeId s))
  end.

(** An element of [videoQuality] of a content document. *)
Record videoQuality : Type := {
  quality : string;
  url : string;
  size : Q
}.

(** The content collection as [getQualityOptions] reads it: projected on
    [_id] and [videoQuality] ([select('videoQuality')]). *)
Definition qualityCatalog : Type := list (nat * list videoQuality).

Definition planQualityMap (p : plan) : list string :=
  match p with
  | free => ["360p"; "480p"]
  | basic => ["360p"; "480p"; "720p"]
  | standard => ["360p"; "480p"; "720p"; "1080p"]
  | premium => ["360p"; "480p"; "720p"; "1080p"; "4K"]
  end%string.

Definition allowed (p : plan) (q : videoQuality) : bool :=
  existsb (String.eqb (quality q)) (planQualityMap p).

(** [exports.getQualityOptions]; [user] is [req.user]. *)
Definition getQualityOptions (user : User.t) (cid : nat) (coll : qualityCatalog)
  : Response (list videoQuality) :=
  match find (fun d => Nat.eqb (fst d) cid) coll with
  | None => NotFound "Content not found"
  | Some d =>
      Ok (filter (allowed (Playback.planOrFree (User.subscriptionPlan user)))
                 (snd d))
  end.

End PlaybackReads.

(** ** The subscription gate of the auth middleware *)

Module AuthMiddleware.

Inductive subscriptionStatus : Type := active | inactive | cancelled | expired.

Inductive verdict : Type :=
| Next                               (* next() *)
| Denied (message : string).         (* res.status(403) *)

Definition isActive (s : option subscriptionStatus) : bool :=
  match s with Some active => true | _ => false end.

(** [requireSubscription(requiredPlan)] applied to [req.user.subscription]:
    [userPlan] is [subscription?.plan], [status] is [subscription?.status]. *)
Definition requireSubscription (requiredPlan : plan)
           (userPlan : option plan) (status : option subscriptionStatus)
  : verdict :=
  let planHierarchy := [free; basic; standard; premium] in
  let userPlanIndex := Playback.indexOf (Playback.planOrFree userPlan) planHierarchy in
  let requiredPlanIndex := Playback.indexOf requiredPlan planHierarchy in
  if (userPlanIndex <? requiredPlanIndex)%Z
  then Denied ("This content requires a " ++ Playback.planName requiredPlan
               ++ " subscription or higher")%string
  else if negb (isActive status) && negb (plan_eqb requiredPlan free)
       then Denied "Your subscription is not active"
       else Next.

End AuthMiddleware.

(** ** The user controller: watchlist and watch history *)

Module UserController.

(** A response of this controller: one of the shared shapes, or 400. *)
Inductive Reply (A : Type) : Type :=
| Sent (r : Response A)
| BadRequest (message : string).

Arguments BadRequest {A} message.

Definition setWatchlist (w : list nat) (u : User.t) : User.t :=
  {| User._id := User._id u; User.subscriptionPlan := User.subscriptionPlan u;
     User.watchlist := w; User.watchHistory := User.watchHistory u |}.

(** [findByIdAndUpdate(id, update)] on the watchlist. *)
Definition updateWatchlist (id : nat) (f : list nat -> list nat)
           (coll : list User.t) : list User.t :=
  Mongo.updateFirst (fun u => Nat.eqb (User._id u) id)
                    (fun u => setWatchlist (f (User.watchlist u)) u) coll.

Definition includes (c : nat) (w : list nat) : bool := existsb (Nat.eqb c) w.

(** [$addToSet: { watchlist: c }]. *)
Definition addToSet (c : nat) (w : list nat) : list nat :=
  if includes c w then w else (w ++ [c])%list.

(** [$pull: { watchlist: c }]. *)
Definition pullId (c : nat) (w : list nat) : list nat :=
  filter (fun i => negb (Nat.eqb i c)) w.

(** [exports.addToWatchlist]; [user] is [req.user]. *)
Definition addToWatchlist (user : User.t) (cid : nat) (db : DB)
  : DB * Reply unit :=
  match Content.findById cid (contents db) with
  | None => (db, Sent (NotFound "Content not found"))
  | Some _ =>
      if includes cid (User.watchlist user)
      then (db, BadRequest "Content already in watchlist")
      else ({| contents := contents db;
               users := updateWatchlist (User._id user) (addToSet cid) (users db);
               sessions := sessions db |},
            Sent (Ok tt))
  end.

(** [exports.removeFromWatchlist]. *)
Definition removeFromWatchlist (uid cid : nat) (db : DB) : DB * Response unit :=
  ({| contents := contents db;
      users := updateWatchlist uid (pullId cid) (users db);
      sessions := sessions db |},
   Ok tt).

(** [exports.getWatchlist]. *)
Definition getWatchlist (uid : nat) (db : DB) : Response (list Content.t) :=
  match User.findById uid (users db) with
  | None => ServerError
  | Some user =>
      Ok (Recommendation.populateWatchlist (contents db) (User.watchlist user))
  end.

(** An index argument of [Array.prototype.slice] against a length. *)
Definition clampIndex (len i : Z) : Z :=
  if (i <? 0)%Z then Z.max (len + i) 0 else Z.min i len.

(** [Array.prototype.slice(start, stop)]. *)
Definition slice (A : Type) (start stop : Z) (l : list A) : list A :=
  let len := Z.of_nat (List.length l) in
  let k := clampIndex len start in
  let final := clampIndex len stop in
  firstn (Z.to_nat (final - k)) (skipn (Z.to_nat k) l).

(** The comparator [(a, b) => new Date(b.watchedAt) - new Date(a.watchedAt)]. *)
Definition latestFirst (a b : User.entry * option Content.t) : bool :=
  (User.watchedAt (fst b) <=? User.watchedAt (fst a))%Z.

Record historyPage : Type := {
  hp_data : list (User.entry * option Content.t);
  hp_page : Z;
  hp_limit : Z;
  hp_total : nat
}.

Definition orDefault (d : Z) (x : option Z) : Z :=
  match x with Some v => v | None => d end.

(** [exports.getWatchHistory]; [page] and [limit] are the query parameters,
    integers when present. *)
Definition getWatchHistory (uid : nat) (page limit : option Z) (db : DB)
  : Response historyPage :=
  let page := orDefault 1 page in
  let limit := orDefault 20 limit in
  match User.findById uid (users db) with
  | None => ServerError
  | Some user =>
      let sortedHistory :=
        slice ((page - 1) * limit) (page * limit)
              (JS.sort latestFirst
                       (Recommendation.populateHistory (contents db)
                                                       (User.watchHistory user))) in
      Ok {| hp_data := sortedHistory; hp_page := page; hp_limit := limit;
            hp_total := List.length (User.watchHistory user) |}
  end.

(** [exports.clearWatchHistory]. *)
Definition clearWatchHistory (uid : nat) (db : DB) : DB * Response unit :=
  ({| contents := contents db;
      users := User.updateHistory uid (fun _ => []) (users db);
      sessions := sessions db |},
   Ok tt).

End UserController.

(** ** The content controller: detail page and listings *)

Module ContentController.




Definition kindName (k : Content.kind) : string :=
  match k with Content.movie => "movie" | Content.series => "series" end.

(** [{ status: 'published' }], with [type] added when the request names one. *)
Definition listingQuery (type : option string) (c : Content.t) : bool :=
  Content.isPublished c
  && match JS.orNull type with
     | Some t => String.eqb (kindName (Content.type c)) t
     | None => true
     end.

(** [exports.getTrendingContent]; [limit] is the parsed query parameter. *)
Definition getTrendingContent (limit : nat) (type : option string) (db : DB)
  : Response (list Content.t) :=
  Ok (Mongo.limit limit
        (Mongo.sort Recommendation.byViewsCreated
                    (filter (listingQuery type) (contents db)))).

(** [.sort({ createdAt: -1 })]. *)
Definition byCreated (a b : Content.t) : bool :=
  (Content.createdAt b <=? Content.createdAt a)%Z.

(** [exports.getNewReleases]. *)
Definition getNewReleases (limit : nat) (type : option string) (db : DB)
  : Response (list Content.t) :=
  Ok (Mongo.limit limit
        (Mongo.sort byCreated (filter (listingQuery type) (contents db)))).

(** [findByIdAndDelete]: the first document with the id is removed. *)
Fixpoint removeFirst (id : nat) (l : list Content.t) : list Content.t :=
  match l with
  | [] => []
  | c :: r => if Nat.eqb (Content._id c) id then r else c :: removeFirst id r
  end.

(** [exports.deleteContent]. *)
Definition deleteContent (id : nat) (db : DB) : DB * Response unit :=
  match Content.findById id (contents db) with
  | None => (db, NotFound "Content not found")
  | Some _ =>
      ({| contents := removeFirst id (contents db); users := users db;
          sessions := sessions db |}, Ok tt)
  end.

End ContentController.

(** ** The profile handlers of user.controller.js

    These handlers read and write [user.profiles] only, so the user
    collection appears here projected on [_id] and [profiles]. *)

Module Profile.

Record preferences_t : Type := {
  genres : list string;
  languages : list string
}.

(** A subdocument of [profiles]. *)
Record t : Type := {
  _id : nat;
  name : option string;
  avatar : option string;
  isKids : bool;
  preferences : preferences_t
}.

End Profile.

Module ProfileController.

(** A user document, projected on [_id] and [profiles]. *)
Definition account : Type := (nat * list Profile.t)%type.

(** [User.findById(req.user._id)]. *)
Definition findById (uid : nat) (coll : list account) : option account :=
  find (fun a => Nat.eqb (fst a) uid) coll.

(** [user.save()] after [user.profiles] was set to [ps]. *)
Definition save (uid : nat) (ps : list Profile.t) (coll : list account)
  : list account :=
  Mongo.updateFirst (fun a => Nat.eqb (fst a) uid) (fun a => (fst a, ps)) coll.

(** What a handler does with the response: [res.status(s).json({data})]
    (status 200 when not set), [res.status(s).json({message})] for a
    refusal, or [next(error)]. *)
Inductive Reply (A : Type) : Type :=
| Json (status : nat) (data : A)
| Refused (status : nat) (message : string)
| Failed.

Arguments Refused {A} status message.
Arguments Failed {A}.

(** [exports.getProfiles]. *)
Definition getProfiles (uid : nat) (coll : list account)
  : Reply (list Profile.t) :=
  match findById uid coll with
  | None => Failed
  | Some user => Json 200 (snd user)
  end.

(** The body of a create request. *)
Record createBody : Type := {
  cb_name : option string;
  cb_avatar : option string;
  cb_isKids : option bool
}.

(** [avatar || 'default-profile.png']. *)
Definition avatarOrDefault (a : option string) : string :=
  match JS.orNull a with
  | Some s => s
  | None => "default-profile.png"
  end.

(** [isKids || false]. *)
Definition orFalse (b : option bool) : bool :=
  match b with
  | Some v => v
  | None => false
  end.

(** [exports.createProfile]; [oid] is the ObjectId the new subdocument
    receives. *)
Definition createProfile (oid uid : nat) (body : createBody)
           (coll : list account)
  : list account * Reply (option Profile.t) :=
  match findById uid coll with
  | None => (coll, Failed)
  | Some user =>
      if (5 <=? List.length (snd user))%nat
      then (coll, Refused 400 "Maximum 5 profiles allowed")
      else
        let profiles :=
          (snd user
           ++ [ {| Profile._id := oid;
                   Profile.name := cb_name body;
                   Profile.avatar := Some (avatarOrDefault (cb_avatar body));
                   Profile.isKids := orFalse (cb_isKids body);
                   Profile.preferences :=
                     {| Profile.genres := []; Profile.languages := [] |} |} ])%list in
        (save uid profiles coll,
         Json 201 (nth_error profiles (List.length profiles - 1)))
  end.

(** The body of an update request. *)
Record updateBody : Type := {
  ub_name : option string;
  ub_avatar : option string;
  ub_isKids : option bool;
  ub_preferences : option Profile.preferences_t
}.

(** [Array.prototype.findIndex], [None] for -1. *)
Fixpoint findIndex (A : Type) (p : A -> bool) (l : list A) : option nat :=
  match l with
  | [] => None
  | x :: r => if p x then Some 0%nat else option_map S (findIndex p r)
  end.

(** The four conditional assignments of [updateProfile]. *)
Definition assignFields (body : updateBody) (p : Profile.t) : Profile.t :=
  {| Profile._id := Profile._id p;
     Profile.name := match JS.orNull (ub_name body) with
                     | Some n => Some n
                     | None => Profile.name p
                     end;
     Profile.avatar := match JS.orNull (ub_avatar body) with
                       | Some a => Some a
                       | None => Profile.avatar p
                       end;
     Profile.isKids := match ub_isKids body with
                       | Some b => b
                       | None => Profile.isKids p
                       end;
     Profile.preferences := match ub_preferences body with
                            | Some q => q
                            | None => Profile.preferences p
                            end |}.

(** [l[i] = f(l[i])] for an index in range. *)
Fixpoint updateAt (A : Type) (i : nat) (f : A -> A) (l : list A) : list A :=
  match l, i with
  | [], _ => []
  | x :: r, O => f x :: r
  | x :: r, S j => x :: updateAt j f r
  end.

(** [exports.updateProfile], the second function of this name in the
    file. *)
Definition updateProfile (uid profileId : nat) (body : updateBody)
           (coll : list account)
  : list account * Reply (option Profile.t) :=
  match findById uid coll with
  | None => (coll, Failed)
  | Some user =>
      match findIndex (fun p => Nat.eqb (Profile._id p) profileId) (snd user) with
      | None => (coll, Refused 404 "Profile not found")
      | Some profileIndex =>
          let profiles := updateAt profileIndex (assignFields body) (snd user) in
          (save uid profiles coll, Json 200 (nth_error profiles profileIndex))
      end
  end.

(** [exports.deleteProfile]. *)
Definition deleteProfile (uid profileId : nat) (coll : list account)
  : list account * Reply unit :=
  match findById uid coll with
  | None => (coll, Failed)
  | Some user =>
      if (List.length (snd user) <=? 1)%nat
      then (coll, Refused 400 "Cannot delete the last profile")
      else
        (save uid
              (filter (fun p => negb (Nat.eqb (Profile._id p) profileId))
                      (snd user))
              coll,
         Json 200 tt)
  end.

End ProfileController.

(** Observations on the profile handlers. *)
Module Accounts.

(** The profiles of the stored user [uid]. *)
Definition profilesOf (uid : nat) (coll : list ProfileController.account)
  : list Profile.t :=
  match ProfileController.findById uid coll with
  | Some a => snd a
  | None => []
  end.

(** A writing request of one user. *)
Inductive request : Type :=
| Create (oid : nat) (body : ProfileController.createBody)
| Update (profileId : nat) (body : ProfileController.updateBody)
| Delete (profileId : nat).

Definition serve (uid : nat) (coll : list ProfileController.account)
           (r : request) : list ProfileController.account :=
  match r with
  | Create oid body => fst (ProfileController.createProfile oid uid body coll)
  | Update pid body => fst (ProfileController.updateProfile uid pid body coll)
  | Delete pid => fst (ProfileController.deleteProfile uid pid coll)
  end.

Definition serveAll (uid : nat) (rs : list request)
           (coll : list ProfileController.account)
  : list ProfileController.account :=
  fold_left (serve uid) rs coll.

Definition ids (ps : list Profile.t) : list nat := map Profile._id ps.

(** The ObjectIds that the create requests of a run bring. *)
Fixpoint created (rs : list request) : list nat :=
  match rs with
  | [] => []
  | Create oid _ :: r => oid :: created r
  | _ :: r => created r
  end.

Definition guest : ProfileController.createBody :=
  {| ProfileController.cb_name := Some "Guest"%string;
     ProfileController.cb_avatar := None;
     ProfileController.cb_isKids := None |}.

Definition owner : Profile.t :=
  {| Profile._id := 10; Profile.name := Some "Me"%string;
     Profile.avatar := Some "me.png"%string; Profile.isKids := false;
     Profile.preferences := {| Profile.genres := []; Profile.languages := [] |} |}.

End Accounts.

(** ** Further reference notions and concrete data *)

Module More.

(** Content ids are unique, as the [_id] index of the collection makes them. *)
Definition uniqueContents (db : DB) : Prop :=
  NoDup (map Content._id (contents db)).

(** A report that names no session id, for one identity triple. *)
Definition reportFor (uid cid : nat) (eid : option string) (r : Spec.report)
  : Prop :=
  snd (fst r) = uid
  /\ Playback.pb_sessionId (snd r) = None
  /\ Playback.pb_contentId (snd r) = cid
  /\ Playback.pb_episodeId (snd r) = eid.

(** The pages 1 .. n of a viewer's history, in this order. *)
Fixpoint pages (uid : nat) (limit : Z) (n : nat) (db : DB)
  : list (User.entry * option Content.t) :=
  match n with
  | O => []
  | S k =>
      (pages uid limit k db
       ++ match UserController.getWatchHistory
                  uid (Some (Z.of_nat (S k))) (Some limit) db with
          | Ok p => UserController.hp_data p
          | _ => []
          end)%list
  end.

Definition qualities : PlaybackReads.qualityCatalog :=
  [ (1%nat,
     [ {| PlaybackReads.quality := "480p"; PlaybackReads.url := "a";
          PlaybackReads.size := 300 |};
       {| PlaybackReads.quality := "1080p"; PlaybackReads.url := "b";
          PlaybackReads.size := 1500 |};
       {| PlaybackReads.quality := "4K"; PlaybackReads.url := "c";
          PlaybackReads.size := 6000 |} ]) ].

Definition member (p : option plan) (w : list nat) : User.t :=
  {| User._id := 1; User.subscriptionPlan := p;
     User.watchlist := w; User.watchHistory := [] |}.

Definition dbWith (u : User.t) : DB :=
  {| contents := Examples.catalog; users := [u]; sessions := [] |}.

(** The watchlist of the stored user [uid]. *)
Definition watchlistOf (uid : nat) (db : DB) : list nat :=
  match User.findById uid (users db) with
  | Some u => User.watchlist u
  | None => []
  end.

(** The data of a history page, empty when the handler fails. *)
Definition pageData (r : Response UserController.historyPage)
  : list (User.entry * option Content.t) :=
  match r with
  | Ok p => UserController.hp_data p
  | _ => []
  end.

(** The ids a content list carries, in order. *)
Definition contentIds (l : list Content.t) : list nat := map Content._id l.

End More.

Unset Implicit Arguments.

(** * Properties *)

(** ** Sorting *)

Section SortFacts.
Variable A : Type.
Variable before : A -> A -> bool.

Lemma insert_perm (x : A) (l : list A) :
  Permutation (JS.insert before x l) (x :: l).
Proof.
  induction l as [|y r IH]; simpl.
  - apply Permutation_refl.
  - destruct (before x y).
    + apply Permutation_refl.
    + eapply Permutation_trans.
      * apply perm_skip, IH.
      * apply perm_swap.
Qed.

Lemma sort_perm (l : list A) : Permutation (JS.sort before l) l.
Proof.
  induction l as [|x r IH]; simpl.
  - constructor.
  - eapply Permutation_trans; [apply insert_perm|].
    now apply perm_skip.
Qed.

Lemma sort_length (l : list A) : List.length (JS.sort before l) = List.length l.
Proof. apply Permutation_length, sort_perm. Qed.

Hypothesis before_total : forall x y, before x y = true \/ before y x = true.
Hypothesis before_trans :
  forall x y z, before x y = true -> before y z = true -> before x z = true.

Lemma insert_sorted (x : A) (l : list A) :
  Spec.ordered before l -> Spec.ordered before (JS.insert before x l).
Proof.
  unfold Spec.ordered.
  induction 1 as [|y r Hr IH Hy]; simpl.
  - repeat constructor.
  - destruct (before x y) eqn:E.
    + constructor; [constructor; assumption|].
      constructor; [exact E|].
      eapply Forall_impl; [|exact Hy].
      intros z Hz. eauto.
    + constructor; [exact IH|].
      assert (Hyx : before y x = true).
      { destruct (before_total x y) as [H|H]; [congruence|exact H]. }
      apply (Permutation_Forall (Permutation_sym (insert_perm x r))).
      constructor; assumption.
Qed.

Lemma sort_sorted (l : list A) : Spec.ordered before (JS.sort before l).
Proof.
  induction l as [|x r IH]; simpl.
  - constructor.
  - now apply insert_sorted.
Qed.

(** Stability: the elements that tie with [x] keep their relative order. *)
Lemma insert_stable (x a : A) (l : list A) :
  filter (Spec.ties before x) (JS.insert before a l)
  = filter (Spec.ties before x) (a :: l).
Proof.
  induction l as [|y r IH].
  - reflexivity.
  - cbn [JS.insert]. destruct (before a y) eqn:E; [reflexivity|].
    cbn [filter] in *. rewrite IH.
    destruct (Spec.ties before x a) eqn:Ha, (Spec.ties before x y) eqn:Hy;
      try reflexivity.
    unfold Spec.ties in Ha, Hy.
    apply andb_prop in Ha, Hy. destruct Ha as [_ Hax], Hy as [Hxy _].
    rewrite (before_trans _ _ _ Hax Hxy) in E. discriminate.
Qed.

Lemma sort_stable (x : A) (l : list A) :
  filter (Spec.ties before x) (JS.sort before l)
  = filter (Spec.ties before x) l.
Proof.
  induction l as [|a r IH]; [reflexivity|].
  cbn [JS.sort fold_right]. rewrite insert_stable.
  cbn [filter]. unfold JS.sort in IH. now rewrite IH.
Qed.
End SortFacts.

(** ** Collections *)

Section UpdateFirst.
Variable A : Type.
Variable key : A -> nat.

Lemma updateFirst_keys (k : nat) (f : A -> A) (l : list A) :
  (forall x, key x = k -> key (f x) = k) ->
  map key (Mongo.updateFirst (fun x => Nat.eqb (key x) k) f l) = map key l.
Proof.
  intros Hf. induction l as [|x r IH]; simpl; [reflexivity|].
  destruct (Nat.eqb (key x) k) eqn:E; simpl.
  - apply Nat.eqb_eq in E. now rewrite (Hf x E), E.
  - now rewrite IH.
Qed.

Lemma updateFirst_length (sel : A -> bool) (f : A -> A) (l : list A) :
  List.length (Mongo.updateFirst sel f l) = List.length l.
Proof.
  induction l as [|x r IH]; simpl; [reflexivity|].
  destruct (sel x); simpl; congruence.
Qed.

(** Looking a document up by key after a keyed update. *)
Lemma find_updateFirst (k k' : nat) (f : A -> A) (l : list A) :
  (forall x, key x = k -> key (f x) = k) ->
  find (fun x => Nat.eqb (key x) k')
       (Mongo.updateFirst (fun x => Nat.eqb (key x) k) f l)
  = option_map (fun x => if Nat.eqb k' k then f x else x)
               (find (fun x => Nat.eqb (key x) k') l).
Proof.
  intros Hf. induction l as [|x r IH]; simpl; [reflexivity|].
  destruct (Nat.eqb (key x) k) eqn:E; simpl.
  - apply Nat.eqb_eq in E. rewrite (Hf x E), E.
    destruct (Nat.eqb k k') eqn:E'.
    + apply Nat.eqb_eq in E'. subst k'. simpl. now rewrite Nat.eqb_refl.
    + destruct (find (fun y => Nat.eqb (key y) k') r) eqn:F; simpl;
        [|reflexivity].
      apply find_some in F. destruct F as [_ F].
      apply Nat.eqb_eq in F.
      rewrite Nat.eqb_sym in E'. now rewrite E'.
  - destruct (Nat.eqb (key x) k') eqn:E'; simpl.
    + apply Nat.eqb_eq in E'. subst k'. now rewrite E.
    + exact IH.
Qed.

Lemma unique_find (l : list A) (x : A) :
  NoDup (map key l) -> In x l ->
  find (fun y => Nat.eqb (key y) (key x)) l = Some x.
Proof.
  induction l as [|y r IH]; simpl; intros Hnd Hin; [contradiction|].
  inversion Hnd as [|? ? Hy Hr]; subst.
  destruct Hin as [->|Hin].
  - now rewrite Nat.eqb_refl.
  - destruct (Nat.eqb (key y) (key x)) eqn:E.
    + apply Nat.eqb_eq in E. exfalso. apply Hy. rewrite E.
      now apply in_map.
    + now apply IH.
Qed.
End UpdateFirst.

Lemma find_app_found (A : Type) (p : A -> bool) (l l' : list A) (x : A) :
  find p l = Some x -> find p (l ++ l') = Some x.
Proof.
  induction l as [|y r IH]; simpl; [discriminate|].
  destruct (p y); [trivial|exact IH].
Qed.

Lemma freshId_above (ids : list nat) (x : nat) :
  In x ids -> (x < Mongo.freshId ids)%nat.
Proof.
  unfold Mongo.freshId. induction ids as [|y r IH]; simpl; [contradiction|].
  intros [->|H]; [lia|]. specialize (IH H). lia.
Qed.

Lemma freshId_new (ids : list nat) : ~ In (Mongo.freshId ids) ids.
Proof. intros H. apply freshId_above in H. lia. Qed.

(** ** Sessions under a progress report *)

Section SessionFacts.
Import PlaybackSession Playback Spec.

Lemma preSave_id (now : Z) (s : PlaybackSession.t) :
  _id (preSave now s) = _id s.
Proof.
  unfold preSave.
  destruct (JS.Qlt_bool 0 (duration (progress s))); [|reflexivity].
  now destruct (Qle_bool 90 _).
Qed.

(** The hook only ever raises the flag. *)
Lemma preSave_completed (now : Z) (s : PlaybackSession.t) :
  completed s = true -> completed (preSave now s) = true.
Proof.
  intros H. unfold preSave.
  destruct (JS.Qlt_bool 0 (duration (progress s))); [|exact H].
  destruct (Qle_bool 90 _); [reflexivity|exact H].
Qed.

Lemma assign_id (b : progressBody) (s : PlaybackSession.t) :
  _id (assign b s) = _id s.
Proof. reflexivity. Qed.

Lemma assign_completed (b : progressBody) (s : PlaybackSession.t) :
  completed (assign b s) = completed s.
Proof. reflexivity. Qed.

Lemma lookup_In (uid : nat) (b : progressBody) (coll : list PlaybackSession.t)
      (s : PlaybackSession.t) :
  lookup uid b coll = Some s -> In s coll.
Proof.
  unfold lookup, findById.
  destruct (pb_sessionId b); intros H; now apply find_some in H.
Qed.

Lemma sessions_updateProgress (now : Z) (uid : nat) (b : progressBody)
      (db : DB) :
  sessions (fst (updateProgress now uid b db))
  = snd (upsertSession now uid b (sessions db)).
Proof.
  unfold updateProgress.
  now destruct (upsertSession now uid b (sessions db)).
Qed.

Lemma upsert_unique (now : Z) (uid : nat) (b : progressBody)
      (coll : list PlaybackSession.t) :
  NoDup (map _id coll) ->
  NoDup (map _id (snd (upsertSession now uid b coll))).
Proof.
  intros Hnd. unfold upsertSession.
  destruct (lookup uid b coll) as [s|].
  - unfold save. cbn [snd].
    rewrite updateFirst_keys; [exact Hnd|].
    intros x Hx. now rewrite preSave_id.
  - unfold create. cbn [snd].
    rewrite map_app. cbn [map]. rewrite preSave_id. cbn [_id].
    apply NoDup_rev in Hnd. rewrite <- (rev_involutive (_ ++ _)).
    apply NoDup_rev. rewrite rev_app_distr. cbn [rev app].
    constructor; [|exact Hnd].
    rewrite <- in_rev. apply freshId_new.
Qed.

Lemma upsert_keeps_completed (now : Z) (uid : nat) (b : progressBody)
      (coll : list PlaybackSession.t) (sid : nat) (x : PlaybackSession.t) :
  NoDup (map _id coll) ->
  findById sid coll = Some x -> completed x = true ->
  exists x', findById sid (snd (upsertSession now uid b coll)) = Some x'
             /\ completed x' = true.
Proof.
  intros Hnd Hx Hc. unfold upsertSession.
  destruct (lookup uid b coll) as [s|] eqn:L.
  - unfold save. cbn [snd]. unfold findById in *.
    rewrite find_updateFirst by (intros; now rewrite preSave_id).
    rewrite Hx. cbn [option_map].
    destruct (Nat.eqb sid (_id (assign b s))) eqn:E.
    + eexists; split; [reflexivity|].
      apply preSave_completed. rewrite assign_completed.
      apply Nat.eqb_eq in E. rewrite assign_id in E. subst sid.
      apply lookup_In in L.
      rewrite (unique_find _ _id coll s Hnd L) in Hx.
      now inversion Hx; subst.
    + now exists x.
  - unfold create. cbn [snd]. unfold findById in *.
    rewrite (find_app_found _ _ _ _ _ Hx). now exists x.
Qed.

Lemma step_unique (r : report) (db : DB) :
  Spec.uniqueIds db -> Spec.uniqueIds (step db r).
Proof.
  destruct r as [[now uid] b]. unfold Spec.uniqueIds, step.
  rewrite sessions_updateProgress. apply upsert_unique.
Qed.

Lemma step_keeps_completed (r : report) (db : DB) (sid : nat) :
  Spec.uniqueIds db ->
  sessionCompleted sid db = true -> sessionCompleted sid (step db r) = true.
Proof.
  destruct r as [[now uid] b]. unfold Spec.uniqueIds, step, sessionCompleted.
  intros Hnd H. rewrite sessions_updateProgress.
  destruct (findById sid (sessions db)) as [x|] eqn:F; [|discriminate].
  destruct (upsert_keeps_completed now uid b _ sid x Hnd F H) as (x' & -> & Hx').
  exact Hx'.
Qed.
End SessionFacts.

(** C1 - Monotonic completion: along every sequence of progress reports
    (any callers, any percentages, any clock readings), a session whose
    [completed] flag is true keeps it; no report sets it back to false. *)
Theorem completed_is_monotone (rs : list Spec.report) (db : DB) (sid : nat) :
  Spec.uniqueIds db ->
  Spec.sessionCompleted sid db = true ->
  Spec.sessionCompleted sid (Spec.run rs db) = true.
Proof.
  revert db. unfold Spec.run.
  induction rs as [|r rs IH]; intros db Hu Hc; [exact Hc|].
  cbn [fold_left]. apply IH.
  - now apply step_unique.
  - now apply step_keeps_completed.
Qed.

Lemma completed_is_monotone_witness :
  Spec.sessionCompleted 1
    (Spec.run [(2000%Z, 1%nat, Examples.reportAt 1 54 120)]
                  Examples.dbCompleted) = true.
Proof.
  apply completed_is_monotone.
  - unfold Spec.uniqueIds. vm_compute.
    constructor; [simpl; tauto|constructor].
  - vm_compute. reflexivity.
Defined.

(** ** The watch-time accumulator *)

(** Whatever the report, the "update existing session" branch adds
    [currentTime - currentTime] to the accumulator. *)
Lemma assign_sessionDuration (b : Playback.progressBody) (s : PlaybackSession.t) :
  PlaybackSession.sessionDuration (Playback.assign b s)
  == PlaybackSession.sessionDuration s.
Proof.
  unfold Playback.assign. cbn.
  destruct (Qeq_bool (Playback.pb_currentTime b) 0) eqn:E.
  - apply Qeq_bool_iff in E. rewrite E. ring.
  - ring.
Qed.

(** C2 - The accumulator after a forward seek: the session reported at
    10 s and then at 30 s keeps [sessionDuration] at 0, where the forward
    delta of 20 s was to be added. *)
Theorem forward_seek_adds_no_watch_time :
  exists s0 s1,
    PlaybackSession.findById 1 (sessions Examples.dbStarted) = Some s0
    /\ PlaybackSession.findById 1
         (sessions (fst (Playback.updateProgress
                           2000 1 (Examples.reportAt 1 30 120)
                           Examples.dbStarted))) = Some s1
    /\ PlaybackSession.currentTime (PlaybackSession.progress s0) == 10
    /\ PlaybackSession.currentTime (PlaybackSession.progress s1) == 30
    /\ PlaybackSession.sessionDuration s0 == 0
    /\ PlaybackSession.sessionDuration s1 == 0
    /\ ~ PlaybackSession.sessionDuration s1
         == PlaybackSession.sessionDuration s0 + (30 - 10).
Proof.
  eexists. eexists.
  split; [vm_compute; reflexivity|].
  split; [vm_compute; reflexivity|].
  cbn. repeat split; try reflexivity.
  intros H. vm_compute in H. discriminate.
Qed.

(** ** Completed sessions under a later report *)

Lemma Qlt_bool_iff (a b : Q) : JS.Qlt_bool a b = true <-> a < b.
Proof.
  unfold JS.Qlt_bool. rewrite negb_true_iff.
  split.
  - intros H. apply Qnot_le_lt. intros L.
    apply Qle_bool_iff in L. congruence.
  - intros H. destruct (Qle_bool b a) eqn:E; [|reflexivity].
    apply Qle_bool_iff in E. exfalso. exact (Qlt_not_le _ _ H E).
Qed.

Lemma preSave_currentTime (now : Z) (s : PlaybackSession.t) :
  PlaybackSession.currentTime (PlaybackSession.progress (PlaybackSession.preSave now s))
  = PlaybackSession.currentTime (PlaybackSession.progress s)
  /\ PlaybackSession.duration (PlaybackSession.progress (PlaybackSession.preSave now s))
     = PlaybackSession.duration (PlaybackSession.progress s).
Proof.
  unfold PlaybackSession.preSave.
  destruct (JS.Qlt_bool 0 _); [|split; reflexivity].
  destruct (Qle_bool 90 _); split; reflexivity.
Qed.

Lemma preSave_percentage (now : Z) (s : PlaybackSession.t) :
  let p := PlaybackSession.progress s in
  (0 < PlaybackSession.duration p ->
   PlaybackSession.percentage (PlaybackSession.progress (PlaybackSession.preSave now s))
   = PlaybackSession.currentTime p / PlaybackSession.duration p * 100)
  /\ (~ 0 < PlaybackSession.duration p ->
      PlaybackSession.percentage (PlaybackSession.progress (PlaybackSession.preSave now s))
      = PlaybackSession.percentage p
      /\ PlaybackSession.completed (PlaybackSession.preSave now s)
         = PlaybackSession.completed s).
Proof.
  cbv zeta. unfold PlaybackSession.preSave.
  destruct (JS.Qlt_bool 0 _) eqn:E.
  - apply Qlt_bool_iff in E. split; [|tauto].
    intros _. now destruct (Qle_bool 90 _).
  - split; [|split; reflexivity].
    intros H. apply Qlt_bool_iff in H. congruence.
Qed.

(** C5 (as stated, refuted) - a completed session at 90 percent accepts a
    report at 54 s of 120 s: the call succeeds and the percentage of the
    stored session drops to 45. *)
Lemma completed_session_percentage_drops :
  exists s0 s1 pd,
    PlaybackSession.findById 1 (sessions Examples.dbCompleted) = Some s0
    /\ PlaybackSession.completed s0 = true
    /\ snd (Playback.updateProgress 2000 1 (Examples.reportAt 1 54 120)
                                    Examples.dbCompleted) = Ok pd
    /\ PlaybackSession.findById 1
         (sessions (fst (Playback.updateProgress
                           2000 1 (Examples.reportAt 1 54 120)
                           Examples.dbCompleted))) = Some s1
    /\ PlaybackSession.completed s1 = true
    /\ PlaybackSession.percentage (PlaybackSession.progress s0) == 90
    /\ PlaybackSession.percentage (PlaybackSession.progress s1) == 45
    /\ PlaybackSession.percentage (PlaybackSession.progress s1)
       < PlaybackSession.percentage (PlaybackSession.progress s0).
Proof.
  eexists. eexists. eexists.
  split; [vm_compute; reflexivity|].
  split; [reflexivity|].
  split; [vm_compute; reflexivity|].
  split; [vm_compute; reflexivity|].
  cbn. repeat split; reflexivity.
Qed.

(** C5 (amended) - a report on a completed session is accepted: the flag
    stays true, and the percentage is recomputed from the reported
    position whenever the reported duration is positive (so it can go
    down); with a duration that is not positive it is left as it was. *)
Theorem completed_session_follows_report
        (now : Z) (uid : nat) (b : Playback.progressBody) (db : DB)
        (s : PlaybackSession.t) :
  Spec.uniqueIds db ->
  Playback.lookup uid b (sessions db) = Some s ->
  PlaybackSession.completed s = true ->
  exists s',
    PlaybackSession.findById (PlaybackSession._id s)
      (sessions (fst (Playback.updateProgress now uid b db))) = Some s'
    /\ snd (Playback.updateProgress now uid b db)
       = Ok {| Playback.pd_progress := PlaybackSession.progress s';
               Playback.pd_completed := true |}
    /\ PlaybackSession.completed s' = true
    /\ PlaybackSession.currentTime (PlaybackSession.progress s')
       = Playback.pb_currentTime b
    /\ (0 < Playback.pb_duration b ->
        PlaybackSession.percentage (PlaybackSession.progress s')
        = Playback.pb_currentTime b / Playback.pb_duration b * 100)
    /\ (~ 0 < Playback.pb_duration b ->
        PlaybackSession.percentage (PlaybackSession.progress s')
        = PlaybackSession.percentage (PlaybackSession.progress s)).
Proof.
  intros Hnd L Hc.
  exists (PlaybackSession.preSave now (Playback.assign b s)).
  assert (Hc' : PlaybackSession.completed
                  (PlaybackSession.preSave now (Playback.assign b s)) = true)
    by now apply preSave_completed.
  split.
  - rewrite sessions_updateProgress. unfold Playback.upsertSession.
    rewrite L. unfold PlaybackSession.save. cbn [snd].
    unfold PlaybackSession.findById.
    rewrite find_updateFirst by (intros; now rewrite preSave_id).
    rewrite assign_id, Nat.eqb_refl.
    rewrite (unique_find _ PlaybackSession._id _ s Hnd (lookup_In _ _ _ _ L)).
    reflexivity.
  - split.
    { unfold Playback.updateProgress, Playback.upsertSession.
      rewrite L. unfold PlaybackSession.save. cbn [snd].
      now rewrite Hc'. }
    split; [exact Hc'|].
    destruct (preSave_currentTime now (Playback.assign b s)) as [Hct _].
    destruct (preSave_percentage now (Playback.assign b s)) as [Hpos Hneg].
    split; [rewrite Hct; reflexivity|].
    split.
    + intros H. now rewrite (Hpos H).
    + intros H. now destruct (Hneg H) as [-> _].
Qed.

Lemma completed_session_follows_report_witness :
  exists s',
    PlaybackSession.completed s' = true
    /\ PlaybackSession.percentage (PlaybackSession.progress s')
       = 54 / 120 * 100.
Proof.
  destruct (completed_session_follows_report
              2000%Z 1%nat (Examples.reportAt 1 54 120) Examples.dbCompleted
              (PlaybackSession.preSave 1000
                 {| PlaybackSession._id := 1; PlaybackSession.userId := 1;
                    PlaybackSession.contentId := 1;
                    PlaybackSession.episodeId := None;
                    PlaybackSession.progress :=
                      {| PlaybackSession.currentTime := 108;
                         PlaybackSession.duration := 120;
                         PlaybackSession.percentage := 0 |};
                    PlaybackSession.completed := false;
                    PlaybackSession.quality := "auto";
                    PlaybackSession.startedAt := 1000;
                    PlaybackSession.lastUpdated := 1000;
                    PlaybackSession.sessionDuration := 0 |}))
    as (s' & _ & _ & Hc & _ & Hp & _).
  - unfold Spec.uniqueIds. vm_compute.
    constructor; [simpl; tauto|constructor].
  - vm_compute. reflexivity.
  - vm_compute. reflexivity.
  - exists s'. split; [exact Hc|]. apply Hp. reflexivity.
Defined.

(** ** The watch-history ledger *)

Section LedgerFacts.
Import Playback Spec.

Lemma findById_updateHistory (uid uid' : nat)
      (f : list User.entry -> list User.entry) (us : list User.t) :
  User.findById uid' (User.updateHistory uid f us)
  = option_map (fun u => if Nat.eqb uid' uid
                         then User.setHistory (f (User.watchHistory u)) u
                         else u)
               (User.findById uid' us).
Proof.
  unfold User.findById, User.updateHistory.
  now rewrite find_updateFirst.
Qed.

Lemma users_updateProgress (now : Z) (uid : nat) (b : progressBody) (db : DB) :
  users (fst (updateProgress now uid b db))
  = User.updateHistory uid
      (User.push (snapshot now (pb_contentId b)
                           (fst (upsertSession now uid b (sessions db)))))
      (User.updateHistory uid (User.pull (pb_contentId b)) (users db)).
Proof.
  unfold updateProgress.
  now destruct (upsertSession now uid b (sessions db)).
Qed.

(** The caller's ledger after a report: pull, then push at the head. *)
Lemma ledger_updateProgress (now : Z) (uid : nat) (b : progressBody)
      (db : DB) (u : User.t) :
  User.findById uid (users db) = Some u ->
  ledger uid (fst (updateProgress now uid b db))
  = User.push (snapshot now (pb_contentId b)
                        (fst (upsertSession now uid b (sessions db))))
              (User.pull (pb_contentId b) (User.watchHistory u)).
Proof.
  intros Hu. unfold ledger.
  rewrite users_updateProgress, !findById_updateHistory, Hu.
  cbn. now rewrite Nat.eqb_refl.
Qed.

Lemma user_survives (now : Z) (uid : nat) (b : progressBody) (db : DB) :
  User.findById uid (users db) <> None ->
  User.findById uid (users (fst (updateProgress now uid b db))) <> None.
Proof.
  rewrite users_updateProgress, !findById_updateHistory.
  destruct (User.findById uid (users db)); [discriminate|tauto].
Qed.

Lemma pull_ids (c : nat) (h : list User.entry) :
  Spec.ids (User.pull c h) = filter (fun i => negb (Nat.eqb i c)) (Spec.ids h).
Proof.
  unfold Spec.ids, User.pull.
  induction h as [|e r IH]; simpl; [reflexivity|].
  destruct (Nat.eqb (User.contentId e) c); simpl; now rewrite IH.
Qed.

Lemma pull_absent (c : nat) (h : list User.entry) :
  ~ In c (Spec.ids (User.pull c h)).
Proof.
  rewrite pull_ids, filter_In. intros [_ H].
  now rewrite Nat.eqb_refl in H.
Qed.

Lemma NoDup_firstn (A : Type) (n : nat) (l : list A) :
  NoDup l -> NoDup (firstn n l).
Proof.
  intros H. rewrite <- (firstn_skipn n l) in H.
  exact (NoDup_app_remove_r _ _ H).
Qed.

Lemma push_distinct (e : User.entry) (h : list User.entry) :
  ~ In (User.contentId e) (Spec.ids h) -> NoDup (Spec.ids h) ->
  NoDup (Spec.ids (User.push e h)).
Proof.
  intros Hn Hd. unfold Spec.ids, User.push. rewrite <- firstn_map.
  apply NoDup_firstn. cbn [map]. now constructor.
Qed.

Lemma push_length (e : User.entry) (h : list User.entry) :
  List.length (User.push e h) = Nat.min 100 (S (List.length h)).
Proof. unfold User.push. now rewrite length_firstn. Qed.

(** Pulling a content that occurs once shortens the ledger by one. *)
Lemma pull_present (c : nat) (h : list User.entry) :
  NoDup (Spec.ids h) -> In c (Spec.ids h) ->
  S (List.length (User.pull c h)) = List.length h.
Proof.
  unfold Spec.ids, User.pull.
  induction h as [|e r IH]; cbn [map filter In List.length];
    intros Hd Hin; [contradiction|].
  inversion Hd as [|? ? He Hr]; subst.
  destruct (Nat.eqb (User.contentId e) c) eqn:E; cbn [negb List.length].
  - apply Nat.eqb_eq in E. f_equal.
    clear IH Hin Hd Hr. rewrite E in He.
    induction r as [|x r IH]; [reflexivity|].
    cbn [map In filter] in *.
    destruct (Nat.eqb (User.contentId x) c) eqn:Ex.
    + apply Nat.eqb_eq in Ex. tauto.
    + cbn [negb List.length]. f_equal. apply IH. tauto.
  - f_equal. apply IH; [exact Hr|].
    destruct Hin as [Hin|Hin]; [|exact Hin].
    apply Nat.eqb_neq in E. congruence.
Qed.

Lemma sorted_filter (A : Type) (R : A -> A -> Prop) (p : A -> bool)
      (l : list A) :
  StronglySorted R l -> StronglySorted R (filter p l).
Proof.
  induction 1 as [|x r Hr IH Hx]; simpl; [constructor|].
  destruct (p x); [|exact IH].
  constructor; [exact IH|].
  apply Forall_forall. intros y Hy. apply filter_In in Hy.
  rewrite Forall_forall in Hx. now apply Hx.
Qed.

Lemma sorted_firstn (A : Type) (R : A -> A -> Prop) (n : nat) (l : list A) :
  StronglySorted R l -> StronglySorted R (firstn n l).
Proof.
  intros H. revert n.
  induction H as [|x r Hr IH Hx]; intros [|n]; simpl; try constructor.
  - apply IH.
  - apply Forall_forall. intros y Hy.
    rewrite Forall_forall in Hx. apply Hx.
    rewrite <- (firstn_skipn n r). apply in_or_app. now left.
Qed.

Lemma upsert_recentFirst (e : User.entry) (c : nat) (h : list User.entry) :
  Spec.recentFirst h ->
  (forall x, In x h -> (User.watchedAt x <= User.watchedAt e)%Z) ->
  Spec.recentFirst (User.push e (User.pull c h)).
Proof.
  unfold Spec.recentFirst, User.push, User.pull. intros Hs Hle.
  apply sorted_firstn. constructor.
  - now apply sorted_filter.
  - apply Forall_forall. intros y Hy. apply filter_In in Hy.
    now apply Hle.
Qed.

(** One report of the ledger's owner, on the content ids. *)
Lemma step_ids (now : Z) (uid : nat) (b : progressBody) (db : DB) :
  User.findById uid (users db) <> None ->
  Spec.ids (ledger uid (step db (now, uid, b)))
  = firstn 100 (pb_contentId b
                :: filter (fun i => negb (Nat.eqb i (pb_contentId b)))
                          (Spec.ids (ledger uid db))).
Proof.
  intros Hu. unfold step.
  destruct (User.findById uid (users db)) as [u|] eqn:F; [|tauto].
  rewrite (ledger_updateProgress now uid b db u F).
  unfold ledger at 1. rewrite F.
  unfold Spec.ids at 1, User.push. rewrite <- firstn_map. cbn [map snapshot User.contentId].
  f_equal. f_equal. apply pull_ids.
Qed.

Lemma filter_all (A : Type) (p : A -> bool) (l : list A) :
  (forall x, In x l -> p x = true) -> filter p l = l.
Proof.
  induction l as [|x r IH]; simpl; intros H; [reflexivity|].
  rewrite (H x (or_introl eq_refl)). f_equal. apply IH. auto.
Qed.

(** After distinct contents [cs] were reported by the owner, the ledger
    starts with the latest (at most 100) of them, latest first. *)
Lemma run_ids (uid : nat) (rs : list report) (db : DB) :
  User.findById uid (users db) <> None ->
  Forall (fun r => snd (fst r) = uid) rs ->
  NoDup (map (fun r => pb_contentId (snd r)) rs) ->
  User.findById uid (users (run rs db)) <> None
  /\ exists rest,
      Spec.ids (ledger uid (run rs db))
      = (firstn 100 (rev (map (fun r => pb_contentId (snd r)) rs)) ++ rest)%list.
Proof.
  intros Hu. induction rs as [|r rs IH] using rev_ind; intros Hall Hd.
  - split; [exact Hu|]. now exists (Spec.ids (ledger uid db)).
  - apply Forall_app in Hall. destruct Hall as [Hall Hr].
    rewrite map_app in Hd. cbn [map] in Hd.
    assert (Hd' := NoDup_app_remove_r _ _ Hd).
    destruct (IH Hall Hd') as (Hu' & rest & Hids).
    unfold run in *. rewrite fold_left_app. cbn [fold_left].
    destruct r as [[now uid'] b]. apply Forall_inv in Hr.
    cbn [fst snd] in Hr. subst uid'.
    split; [unfold step; now apply user_survives|].
    rewrite (step_ids now uid b _ Hu'), Hids.
    rewrite map_app, rev_app_distr. cbn [map rev app snd].
    set (cs := map (fun r => pb_contentId (snd r)) rs) in *.
    set (c := pb_contentId b) in *.
    assert (Hc : ~ In c (firstn 100 (rev cs))).
    { intros Hin. apply NoDup_remove_2 in Hd. apply Hd.
      rewrite app_nil_r. change (In c cs). apply in_rev.
      rewrite <- (firstn_skipn 100 (rev cs)). apply in_or_app. now left. }
    rewrite filter_app, (filter_all _ _ (firstn 100 (rev cs))).
    2:{ intros x Hx. apply negb_true_iff, Nat.eqb_neq. congruence. }
    rewrite !(firstn_cons 99), firstn_app, firstn_firstn.
    replace (Nat.min 99 100) with 99%nat by reflexivity.
    eexists. reflexivity.
Qed.
End LedgerFacts.

Lemma run_capped (uid : nat) (rs : list Spec.report) (db : DB) :
  User.findById uid (users db) <> None ->
  Forall (fun r => snd (fst r) = uid) rs ->
  NoDup (map (fun r => Playback.pb_contentId (snd r)) rs) ->
  rs <> [] ->
  (List.length (Spec.ids (Spec.ledger uid (Spec.run rs db))) <= 100)%nat.
Proof.
  intros Hu Hall Hd Hne.
  destruct (exists_last Hne) as (rs' & r & ->).
  apply Forall_app in Hall. destruct Hall as [Hall Hr].
  rewrite map_app in Hd. apply NoDup_app_remove_r in Hd.
  destruct (run_ids uid rs' db Hu Hall Hd) as [Hu' _].
  unfold Spec.run in *. rewrite fold_left_app. cbn [fold_left].
  destruct r as [[now uid'] b]. apply Forall_inv in Hr.
  cbn [fst snd] in Hr. subst uid'.
  rewrite (step_ids now uid b _ Hu'). apply firstn_le_length.
Qed.

(** C3 - Ledger upsert semantics.  A progress report of a viewer rewrites
    the viewer's ledger as follows: the entries for the reported content
    are removed and a fresh entry (stamped with the clock) is put at
    position 0, followed by the remaining entries in their order, cut
    after 100 entries in all (the tail is dropped).  Hence the ledger has
    at most 100 entries, stays free of duplicate content ids, stays
    ordered most-recent-first under a clock that does not run backwards,
    and keeps its length when the content was already present.  After at
    least 101 reports on pairwise distinct contents the ledger holds
    exactly 100 entries: the latest 100 contents, latest first. *)
Theorem ledger_upsert_semantics :
  (forall (now : Z) (uid : nat) (b : Playback.progressBody) (db : DB)
          (u : User.t),
      User.findById uid (users db) = Some u ->
      let c := Playback.pb_contentId b in
      let h := User.watchHistory u in
      let h' := Spec.ledger uid (fst (Playback.updateProgress now uid b db)) in
      (exists e, h' = e :: firstn 99 (User.pull c h)
                 /\ User.contentId e = c /\ User.watchedAt e = now)
      /\ ~ In c (Spec.ids (User.pull c h))
      /\ (List.length h' <= 100)%nat
      /\ (NoDup (Spec.ids h) -> NoDup (Spec.ids h'))
      /\ (Spec.recentFirst h ->
          (forall x, In x h -> (User.watchedAt x <= now)%Z) ->
          Spec.recentFirst h')
      /\ (NoDup (Spec.ids h) -> (List.length h <= 100)%nat ->
          In c (Spec.ids h) -> List.length h' = List.length h))
  /\ (forall (rs : list Spec.report) (uid : nat) (db : DB),
         User.findById uid (users db) <> None ->
         Forall (fun r => snd (fst r) = uid) rs ->
         NoDup (map (fun r => Playback.pb_contentId (snd r)) rs) ->
         (101 <= List.length rs)%nat ->
         let h := Spec.ledger uid (Spec.run rs db) in
         List.length h = 100%nat
         /\ Spec.ids h
            = firstn 100 (rev (map (fun r => Playback.pb_contentId (snd r)) rs))
         /\ NoDup (Spec.ids h)).
Proof.
  split.
  - intros now uid b db u Hu c h h'.
    assert (E : h' = User.push
                       (Playback.snapshot now c
                          (fst (Playback.upsertSession now uid b (sessions db))))
                       (User.pull c h))
      by (apply ledger_updateProgress; exact Hu).
    assert (Hpull : NoDup (Spec.ids h) -> NoDup (Spec.ids (User.pull c h))).
    { intros Hd. rewrite pull_ids. now apply NoDup_filter. }
    split; [eexists; split; [exact E|split; reflexivity]|].
    split; [apply pull_absent|].
    split; [rewrite E; apply firstn_le_length|].
    split.
    { intros Hd. rewrite E. apply push_distinct; [apply pull_absent|auto]. }
    split.
    { intros Hs Hle. rewrite E. now apply upsert_recentFirst. }
    intros Hd Hlen Hin. rewrite E, push_length.
    rewrite (pull_present c h Hd Hin). now apply Nat.min_r.
  - intros rs uid db Hu Hall Hd Hlen h.
    destruct (run_ids uid rs db Hu Hall Hd) as (_ & rest & Hids).
    assert (Hcap : (List.length (Spec.ids h) <= 100)%nat).
    { apply run_capped; try assumption.
      intros ->. cbn in Hlen. lia. }
    fold h in Hids.
    assert (Hfull : List.length
                      (firstn 100 (rev (map (fun r => Playback.pb_contentId (snd r)) rs)))
                    = 100%nat).
    { rewrite length_firstn, length_rev, length_map.
      unfold Spec.report in *. lia. }
    assert (Hrest : rest = []).
    { rewrite Hids, length_app, Hfull in Hcap.
      destruct rest; [reflexivity|cbn in Hcap; lia]. }
    subst rest. rewrite app_nil_r in Hids.
    split.
    { unfold Spec.ids in Hids.
      rewrite <- (length_map User.contentId), Hids. exact Hfull. }
    split; [exact Hids|].
    rewrite Hids. apply NoDup_firstn. now apply NoDup_rev.
Qed.

Lemma reportsUpTo_contents (n : nat) :
  map (fun r => Playback.pb_contentId (snd r)) (Examples.reportsUpTo n) = seq 1 n.
Proof.
  unfold Examples.reportsUpTo. rewrite map_map. cbn. apply map_id.
Qed.

Lemma ledger_upsert_semantics_witness :
  (let h := [Examples.watched 2 20; Examples.watched 1 10] in
   let h' := Spec.ledger 1
               (fst (Playback.updateProgress 30 1 (Examples.reportAt 1 30 120)
                                             (Examples.dbOf h))) in
   Spec.ids h' = [1; 2]%nat /\ List.length h' = List.length h
   /\ Spec.recentFirst h')
  /\ List.length (Spec.ledger 1 (Spec.run (Examples.reportsUpTo 101)
                                                  Examples.db0)) = 100%nat.
Proof.
  split.
  - cbv zeta.
    destruct (proj1 ledger_upsert_semantics 30%Z 1%nat
                    (Examples.reportAt 1 30 120)
                    (Examples.dbOf [Examples.watched 2 20; Examples.watched 1 10])
                    (Examples.viewer [Examples.watched 2 20; Examples.watched 1 10])
                    eq_refl)
      as ((e & He & Hc & _) & _ & _ & _ & Hsorted & Hsame).
    split; [rewrite He; cbn; now rewrite Hc|].
    split.
    + apply Hsame.
      * cbn. repeat constructor; simpl; intuition discriminate.
      * cbn. lia.
      * cbn. tauto.
    + apply Hsorted.
      * unfold Spec.recentFirst. repeat constructor. cbn. lia.
      * cbn. intros x [<-|[<-|[]]]; cbn; lia.
  - apply (proj2 ledger_upsert_semantics (Examples.reportsUpTo 101) 1%nat
                 Examples.db0).
    + discriminate.
    + unfold Examples.reportsUpTo. apply Forall_map, Forall_forall.
      reflexivity.
    + rewrite reportsUpTo_contents. apply seq_NoDup.
    + unfold Examples.reportsUpTo. rewrite length_map, length_seq. lia.
Defined.

(** ** Progress reports are not validated *)

Lemma updateFirst_const_In (A : Type) (sel : A -> bool) (c x : A) (l : list A) :
  In x l -> sel x = true -> In c (Mongo.updateFirst sel (fun _ => c) l).
Proof.
  induction l as [|y r IH]; simpl; intros Hin Hs; [contradiction|].
  destruct (sel y) eqn:E; [now left|].
  right. apply IH; [|exact Hs].
  destruct Hin as [->|Hin]; [congruence|exact Hin].
Qed.

Lemma upsert_stored (now : Z) (uid : nat) (b : Playback.progressBody)
      (coll : list PlaybackSession.t) :
  In (fst (Playback.upsertSession now uid b coll))
     (snd (Playback.upsertSession now uid b coll)).
Proof.
  unfold Playback.upsertSession.
  destruct (Playback.lookup uid b coll) as [s|] eqn:L.
  - unfold PlaybackSession.save. cbn [fst snd].
    apply updateFirst_const_In with (x := s).
    + exact (lookup_In _ _ _ _ L).
    + rewrite assign_id. apply Nat.eqb_refl.
  - unfold PlaybackSession.create. cbn [fst snd].
    apply in_or_app. right. now left.
Qed.

Lemma upsert_progress (now : Z) (uid : nat) (b : Playback.progressBody)
      (coll : list PlaybackSession.t) :
  let s := fst (Playback.upsertSession now uid b coll) in
  PlaybackSession.currentTime (PlaybackSession.progress s) = Playback.pb_currentTime b
  /\ PlaybackSession.duration (PlaybackSession.progress s) = Playback.pb_duration b.
Proof.
  cbv zeta. unfold Playback.upsertSession.
  destruct (Playback.lookup uid b coll) as [s|].
  - unfold PlaybackSession.save. cbn [fst].
    destruct (preSave_currentTime now (Playback.assign b s)) as [-> ->].
    split; reflexivity.
  - unfold PlaybackSession.create. cbn [fst].
    match goal with
    | |- context [PlaybackSession.preSave now ?x] =>
        destruct (preSave_currentTime now x) as [-> ->]
    end.
    split; reflexivity.
Qed.

(** C4 (as stated, refuted) - reports with a negative position, with a
    duration of zero, and with a position far beyond the duration are all
    answered with success, and each one creates a session and a ledger
    entry in a database that had neither. *)
Lemma invalid_progress_is_accepted :
  sessions Examples.db0 = [] /\ Spec.ledger 1 Examples.db0 = []
  /\ (let r := Playback.updateProgress 2000 1 (Examples.reportAt 1 (-5) 120)
                                       Examples.db0 in
      (exists pd, snd r = Ok pd)
      /\ List.length (sessions (fst r)) = 1%nat
      /\ List.length (Spec.ledger 1 (fst r)) = 1%nat)
  /\ (let r := Playback.updateProgress 2000 1 (Examples.reportAt 1 30 0)
                                       Examples.db0 in
      (exists pd, snd r = Ok pd)
      /\ List.length (sessions (fst r)) = 1%nat
      /\ List.length (Spec.ledger 1 (fst r)) = 1%nat)
  /\ (let r := Playback.updateProgress 2000 1 (Examples.reportAt 1 5000 120)
                                       Examples.db0 in
      (exists pd, snd r = Ok pd)
      /\ List.length (sessions (fst r)) = 1%nat
      /\ List.length (Spec.ledger 1 (fst r)) = 1%nat).
Proof.
  split; [reflexivity|]. split; [reflexivity|].
  repeat split; try (eexists; vm_compute; reflexivity); vm_compute; reflexivity.
Qed.

(** C4 (amended) - a progress report is never rejected for its numbers:
    whatever the position and the duration (negative, zero, beyond the
    duration), the call succeeds, the stored session carries the position
    and the duration as reported, and a fresh entry for the content stands
    at the head of the caller's ledger. *)
Theorem progress_report_is_not_validated
        (now : Z) (uid : nat) (b : Playback.progressBody) (db : DB) (u : User.t) :
  User.findById uid (users db) = Some u ->
  exists pd s rest,
    snd (Playback.updateProgress now uid b db) = Ok pd
    /\ In s (sessions (fst (Playback.updateProgress now uid b db)))
    /\ PlaybackSession.progress s = Playback.pd_progress pd
    /\ PlaybackSession.currentTime (Playback.pd_progress pd)
       = Playback.pb_currentTime b
    /\ PlaybackSession.duration (Playback.pd_progress pd)
       = Playback.pb_duration b
    /\ Spec.ledger uid (fst (Playback.updateProgress now uid b db))
       = Playback.snapshot now (Playback.pb_contentId b) s :: rest.
Proof.
  intros Hu.
  set (s := fst (Playback.upsertSession now uid b (sessions db))).
  exists {| Playback.pd_progress := PlaybackSession.progress s;
            Playback.pd_completed := PlaybackSession.completed s |}.
  exists s.
  exists (firstn 99 (User.pull (Playback.pb_contentId b) (User.watchHistory u))).
  split.
  { unfold Playback.updateProgress. subst s.
    now destruct (Playback.upsertSession now uid b (sessions db)). }
  split; [rewrite sessions_updateProgress; apply upsert_stored|].
  split; [reflexivity|].
  destruct (upsert_progress now uid b (sessions db)) as [Hct Hd].
  split; [exact Hct|]. split; [exact Hd|].
  now rewrite (ledger_updateProgress now uid b db u Hu).
Qed.

Lemma progress_report_is_not_validated_witness :
  exists pd,
    snd (Playback.updateProgress 2000 1 (Examples.reportAt 1 (-5) 0) Examples.db0)
    = Ok pd
    /\ PlaybackSession.currentTime (Playback.pd_progress pd) = (-5)%Q
    /\ PlaybackSession.duration (Playback.pd_progress pd) = 0%Q.
Proof.
  destruct (progress_report_is_not_validated
              2000%Z 1%nat (Examples.reportAt 1 (-5) 0) Examples.db0
              (Examples.viewer []) eq_refl)
    as (pd & _ & _ & Hok & _ & _ & Hct & Hd & _).
  exists pd. split; [exact Hok|]. split; [exact Hct|exact Hd].
Defined.

(** ** Access gating *)

Lemma indexOf_tier (p : plan) :
  Playback.indexOf p Playback.planHierarchy = Z.of_nat (Spec.tier p).
Proof. now destruct p. Qed.

(** C9 - Access gating: when the tier of the viewer's plan is below the
    tier the content requires, [startPlayback] answers 403, returns no
    playable resource, and leaves the database (hence the session
    collection) as it was. *)
Theorem startPlayback_access_gating
        (now : Z) (user : User.t) (b : Playback.startBody) (db : DB)
        (content : Content.t) :
  Content.findById (Playback.sb_contentId b) (contents db) = Some content ->
  (Spec.tier (Playback.planOrFree (User.subscriptionPlan user))
   < Spec.tier (Playback.planOrFree (Content.subscriptionRequired content)))%nat ->
  exists message,
    Playback.startPlayback now user b db = (db, Forbidden message).
Proof.
  intros Hc Hlt. unfold Playback.startPlayback. rewrite Hc.
  rewrite !indexOf_tier.
  destruct (Z.ltb_spec (Z.of_nat (Spec.tier (Playback.planOrFree (User.subscriptionPlan user))))
                       (Z.of_nat (Spec.tier (Playback.planOrFree (Content.subscriptionRequired content)))))
    as [_|Hge]; [|lia].
  eexists. reflexivity.
Qed.

Lemma startPlayback_access_gating_witness :
  exists message,
    Playback.startPlayback 5 (Examples.viewer []) Examples.startPremium Examples.db0
    = (Examples.db0, Forbidden message).
Proof.
  apply (startPlayback_access_gating 5%Z (Examples.viewer [])
           Examples.startPremium Examples.db0
           (Examples.film 20 ["Action"%string] premium 5)).
  - reflexivity.
  - cbn. lia.
Defined.

(** ** Continue watching *)

Lemma newerFirst_total (a b : PlaybackSession.t) :
  Playback.newerFirst a b = true \/ Playback.newerFirst b a = true.
Proof. unfold Playback.newerFirst. rewrite !Z.leb_le. lia. Qed.

Lemma newerFirst_trans (a b c : PlaybackSession.t) :
  Playback.newerFirst a b = true -> Playback.newerFirst b c = true ->
  Playback.newerFirst a c = true.
Proof. unfold Playback.newerFirst. rewrite !Z.leb_le. lia. Qed.

Lemma resumable_spec (uid : nat) (s : PlaybackSession.t) :
  Playback.resumable uid s = true
  <-> PlaybackSession.userId s = uid
      /\ PlaybackSession.completed s = false
      /\ 5 < PlaybackSession.percentage (PlaybackSession.progress s)
      /\ PlaybackSession.percentage (PlaybackSession.progress s) < 90.
Proof.
  unfold Playback.resumable.
  rewrite !andb_true_iff, !Qlt_bool_iff, Nat.eqb_eq, negb_true_iff. tauto.
Qed.

(** C8 (as stated, refuted) - with two resumable sessions and a caller
    limit of 1, the handler returns both sessions; called with no limit
    and with other limits it returns the same list. *)
Lemma continue_watching_ignores_limit :
  exists l,
    Playback.getContinueWatching 1 (Some 1%nat) Examples.dbTwoOpen = Ok l
    /\ List.length l = 2%nat
    /\ Playback.getContinueWatching 1 None Examples.dbTwoOpen = Ok l
    /\ Playback.getContinueWatching 1 (Some 50%nat) Examples.dbTwoOpen = Ok l.
Proof.
  eexists. split; [vm_compute; reflexivity|].
  repeat split.
Qed.

(** C8 (amended) - the continue-watching view lists the viewer's open
    sessions whose percentage is strictly between 5 and 90, most recently
    updated first, cut after a fixed 20 entries; the caller's limit plays
    no part. *)
Theorem continue_watching_fixed_cap (uid : nat) (queryLimit : option nat) (db : DB) :
  exists eligible,
    Permutation eligible (filter (Playback.resumable uid) (sessions db))
    /\ (forall s, In s eligible <->
                  In s (sessions db)
                  /\ PlaybackSession.userId s = uid
                  /\ PlaybackSession.completed s = false
                  /\ 5 < PlaybackSession.percentage (PlaybackSession.progress s)
                  /\ PlaybackSession.percentage (PlaybackSession.progress s) < 90)
    /\ Spec.ordered Playback.newerFirst eligible
    /\ Playback.getContinueWatching uid queryLimit db
       = Ok (map (Playback.summarize (contents db)) (firstn 20 eligible))
    /\ Playback.getContinueWatching uid queryLimit db
       = Playback.getContinueWatching uid None db.
Proof.
  exists (JS.sort Playback.newerFirst
                  (filter (Playback.resumable uid) (sessions db))).
  split; [apply sort_perm|].
  split.
  { intros s. rewrite <- resumable_spec, <- filter_In.
    split; apply Permutation_in;
      [apply sort_perm|apply Permutation_sym, sort_perm]. }
  split.
  { apply sort_sorted; [apply newerFirst_total|apply newerFirst_trans]. }
  split; reflexivity.
Qed.

(** ** Mark completed *)

Lemma setCompleted_absent (c : nat) (h : list User.entry) :
  ~ In c (Spec.ids h) -> User.setCompleted c h = h.
Proof.
  unfold Spec.ids, User.setCompleted.
  induction h as [|e r IH]; cbn [map In]; intros H; [reflexivity|].
  destruct (Nat.eqb (User.contentId e) c) eqn:E.
  - apply Nat.eqb_eq in E. tauto.
  - f_equal. apply IH. tauto.
Qed.

Lemma setCompleted_ids (c : nat) (h : list User.entry) :
  Spec.ids (User.setCompleted c h) = Spec.ids h.
Proof.
  unfold Spec.ids, User.setCompleted. rewrite map_map.
  apply map_ext. intros e. now destruct (Nat.eqb (User.contentId e) c).
Qed.

Lemma ledger_markCompleted (uid cid : nat) (eid : option string) (db : DB)
      (viewer : nat) :
  Spec.ledger viewer (fst (Playback.markCompleted uid cid eid db))
  = if Nat.eqb viewer uid
    then User.setCompleted cid (Spec.ledger viewer db)
    else Spec.ledger viewer db.
Proof.
  unfold Spec.ledger, Playback.markCompleted. cbn [fst users].
  rewrite findById_updateHistory.
  destruct (User.findById viewer (users db)) as [u|]; cbn [option_map].
  - now destruct (Nat.eqb viewer uid).
  - now destruct (Nat.eqb viewer uid).
Qed.

(** C10 - [markCompleted] never inserts a watch-history entry: every
    ledger keeps its length and its sequence of content ids; a ledger with
    no entry for the content is left exactly as it was; an entry is
    rewritten (completed, progress 100, same id and timestamp) only when it
    belongs to the caller and carries the content id, and is untouched
    otherwise. *)
Theorem markCompleted_inserts_nothing
        (uid cid : nat) (eid : option string) (db : DB) (viewer : nat) :
  let h := Spec.ledger viewer db in
  let h' := Spec.ledger viewer (fst (Playback.markCompleted uid cid eid db)) in
  List.length h' = List.length h
  /\ Spec.ids h' = Spec.ids h
  /\ (~ In cid (Spec.ids h) -> h' = h)
  /\ (forall i e, nth_error h i = Some e ->
                  nth_error h' i
                  = Some (if Nat.eqb viewer uid && Nat.eqb (User.contentId e) cid
                          then {| User.contentId := User.contentId e;
                                  User.watchedAt := User.watchedAt e;
                                  User.progress := 100;
                                  User.completed := true |}
                          else e)).
Proof.
  cbv zeta. rewrite ledger_markCompleted.
  destruct (Nat.eqb viewer uid); cbn [andb].
  - split; [unfold User.setCompleted; apply length_map|].
    split; [apply setCompleted_ids|].
    split; [apply setCompleted_absent|].
    intros i e H. unfold User.setCompleted.
    now rewrite nth_error_map, H.
  - repeat split. intros i e H. exact H.
Qed.

Lemma markCompleted_inserts_nothing_witness :
  Spec.ledger 1 (fst (Playback.markCompleted 1 1 None
                            (Examples.dbOf [Examples.watched 2 20])))
  = [Examples.watched 2 20].
Proof.
  apply (proj1 (proj2 (proj2 (markCompleted_inserts_nothing
                                1 1 None (Examples.dbOf [Examples.watched 2 20]) 1)))).
  cbn. intuition discriminate.
Defined.

(** ** Genre scores *)

Section ScoreFacts.
Import Recommendation.

Lemma orZero_some (v : Q) : JS.orZero (Some v) == v.
Proof.
  unfold JS.orZero. destruct (Qeq_bool v 0) eqn:E; [|reflexivity].
  apply Qeq_bool_iff in E. now rewrite E.
Qed.

Lemma get_set (o : JS.object) (k k' : string) (v : Q) :
  JS.get (JS.set o k v) k' = if String.eqb k k' then Some v else JS.get o k'.
Proof.
  induction o as [|[k1 v1] r IH]; cbn [JS.set JS.get].
  - reflexivity.
  - destruct (String.eqb k1 k) eqn:E; cbn [JS.get].
    + apply String.eqb_eq in E. subst k1.
      now destruct (String.eqb k k').
    + destruct (String.eqb k1 k') eqn:E'; [|exact IH].
      apply String.eqb_eq in E'. subst k1.
      rewrite String.eqb_sym in E. now rewrite E.
Qed.

Lemma score_addWeight (w : Q) (o : JS.object) (g' g : string) :
  Spec.score (addWeight w o g') g
  == Spec.score o g + (if String.eqb g' g then w else 0).
Proof.
  unfold Spec.score, addWeight. rewrite get_set.
  destruct (String.eqb g' g) eqn:E.
  - apply String.eqb_eq in E. subst g'. apply orZero_some.
  - ring.
Qed.

Lemma occurrences_cons (g g' : string) (gs : list string) :
  Spec.occurrences g (g' :: gs)
  == (if String.eqb g' g then 1 else 0) + Spec.occurrences g gs.
Proof.
  unfold Spec.occurrences. cbn [count_occ].
  destruct (string_dec g' g) as [->|N].
  - rewrite String.eqb_refl, Nat2Z.inj_succ. unfold Z.succ.
    rewrite inject_Z_plus. ring.
  - apply String.eqb_neq in N. rewrite N. ring.
Qed.

Lemma score_genres (w : Q) (gs : list string) (o : JS.object) (g : string) :
  Spec.score (fold_left (addWeight w) gs o) g
  == Spec.score o g + Spec.occurrences g gs * w.
Proof.
  revert o. induction gs as [|g' gs IH]; intros o; cbn [fold_left].
  - unfold Spec.occurrences. cbn. ring.
  - rewrite IH, score_addWeight, occurrences_cons.
    destruct (String.eqb g' g); ring.
Qed.

Lemma score_history (index : nat) (h : list (User.entry * option Content.t))
      (o : JS.object) (g : string) :
  Spec.score (scoreHistory index h o) g
  == Spec.score o g + Spec.historyScore index h g.
Proof.
  revert index o.
  induction h as [|[e [c|]] r IH]; intros index o;
    cbn [scoreHistory Spec.historyScore].
  - ring.
  - rewrite IH, score_genres. ring.
  - apply IH.
Qed.

Lemma score_watchlist (w : list Content.t) (o : JS.object) (g : string) :
  Spec.score (scoreWatchlist w o) g == Spec.score o g + Spec.watchlistScore w g.
Proof.
  unfold scoreWatchlist. revert o.
  induction w as [|c r IH]; intros o; cbn [fold_left Spec.watchlistScore].
  - ring.
  - rewrite IH, score_genres. ring.
Qed.

(** The keys of the object grow in the order in which genres are first met. *)
Lemma keys_set (o : JS.object) (k : string) (v : Q) :
  map fst (JS.set o k v) = Spec.see (map fst o) k.
Proof.
  unfold Spec.see.
  induction o as [|[k1 v1] r IH]; cbn [JS.set map fst]; [reflexivity|].
  unfold inb in *. cbn [existsb].
  rewrite (String.eqb_sym k k1).
  destruct (String.eqb k1 k); cbn [map fst orb]; [reflexivity|].
  rewrite IH. now destruct (existsb (String.eqb k) (map fst r)).
Qed.

Lemma keys_genres (w : Q) (gs : list string) (o : JS.object) :
  map fst (fold_left (addWeight w) gs o) = fold_left Spec.see gs (map fst o).
Proof.
  revert o. induction gs as [|g gs IH]; intros o; cbn [fold_left]; [reflexivity|].
  rewrite IH. unfold addWeight. now rewrite keys_set.
Qed.

Lemma keys_history (index : nat) (h : list (User.entry * option Content.t))
      (o : JS.object) :
  map fst (scoreHistory index h o)
  = fold_left Spec.see
      (flat_map (fun p => match snd p with
                          | Some c => Content.genres c
                          | None => []
                          end) h)
      (map fst o).
Proof.
  revert index o.
  induction h as [|[e [c|]] r IH]; intros index o;
    cbn [scoreHistory flat_map snd]; [reflexivity| |apply IH].
  rewrite fold_left_app, IH. now rewrite keys_genres.
Qed.

Lemma keys_watchlist (w : list Content.t) (o : JS.object) :
  map fst (scoreWatchlist w o)
  = fold_left Spec.see (flat_map Content.genres w) (map fst o).
Proof.
  unfold scoreWatchlist. revert o.
  induction w as [|c r IH]; intros o; cbn [fold_left flat_map]; [reflexivity|].
  rewrite fold_left_app, IH. now rewrite keys_genres.
Qed.

Lemma keys_genreScores (cs : list Content.t) (u : User.t) :
  map fst (genreScores cs u) = Spec.firstSeen (Spec.genresMet cs u).
Proof.
  unfold genreScores, Spec.firstSeen, Spec.genresMet.
  now rewrite keys_watchlist, keys_history, fold_left_app.
Qed.

Lemma inb_In (g : string) (l : list string) : inb g l = true <-> In g l.
Proof.
  unfold inb. rewrite existsb_exists. split.
  - intros (x & Hx & E). apply String.eqb_eq in E. now subst.
  - intros H. exists g. split; [exact H|apply String.eqb_refl].
Qed.

Lemma see_spec (seen : list string) (g x : string) :
  In x (Spec.see seen g) <-> In x seen \/ (x = g /\ ~ In g seen).
Proof.
  unfold Spec.see. destruct (inb g seen) eqn:E.
  - apply inb_In in E. tauto.
  - assert (~ In g seen) by (rewrite <- inb_In; congruence).
    rewrite in_app_iff. cbn. intuition congruence.
Qed.

Lemma see_NoDup (seen : list string) (g : string) :
  NoDup seen -> NoDup (Spec.see seen g).
Proof.
  intros H. unfold Spec.see. destruct (inb g seen) eqn:E; [exact H|].
  assert (N : ~ In g seen) by (rewrite <- inb_In; congruence).
  apply NoDup_rev in H. rewrite <- (rev_involutive (seen ++ [g])).
  apply NoDup_rev. rewrite rev_app_distr. cbn [rev app].
  constructor; [now rewrite <- in_rev|exact H].
Qed.

Lemma firstSeen_facts (l seen : list string) :
  NoDup seen ->
  NoDup (fold_left Spec.see l seen)
  /\ forall x, In x (fold_left Spec.see l seen) -> In x seen \/ In x l.
Proof.
  revert seen. induction l as [|g l IH]; intros seen H; cbn [fold_left].
  - split; [exact H|tauto].
  - destruct (IH _ (see_NoDup seen g H)) as [Hd Hin].
    split; [exact Hd|].
    intros x Hx. apply Hin in Hx. rewrite see_spec in Hx. cbn.
    intuition auto.
Qed.

Lemma get_In (o : JS.object) (g : string) (v : Q) :
  NoDup (map fst o) -> In (g, v) o -> JS.get o g = Some v.
Proof.
  induction o as [|[k1 v1] r IH]; cbn [map fst In JS.get];
    intros Hd Hin; [contradiction|].
  inversion Hd as [|? ? Hk Hr]; subst.
  destruct Hin as [E|Hin].
  - inversion E; subst. now rewrite String.eqb_refl.
  - destruct (String.eqb k1 g) eqn:E; [|now apply IH].
    apply String.eqb_eq in E. subst k1. exfalso. apply Hk.
    change g with (fst (g, v)). now apply in_map.
Qed.

(** Without array-index keys, [Object.entries] is the creation order. *)
Lemma entries_plain (o : JS.object) :
  (forall k, In k (map fst o) -> JS.arrayIndex k = None) ->
  JS.Object_entries o = o.
Proof.
  intros H. unfold JS.Object_entries.
  assert (E : forall kv, In kv o -> JS.isIndexKey kv = false).
  { intros kv Hin. unfold JS.isIndexKey.
    now rewrite (H (fst kv) (in_map fst _ _ Hin)). }
  assert (E' : forall l, (forall kv, In kv l -> JS.isIndexKey kv = false) ->
                    filter JS.isIndexKey l = []
                    /\ filter (fun kv => negb (JS.isIndexKey kv)) l = l).
  { induction l as [|kv r IH]; intros Hl; cbn [filter]; [now split|].
    rewrite (Hl kv (or_introl eq_refl)). cbn [negb].
    destruct IH as [-> ->]; [|now split].
    intros x Hx. apply Hl. now right. }
  destruct (E' o E) as [-> ->]. reflexivity.
Qed.

Lemma higherFirst_total (a b : string * Q) :
  higherFirst a b = true \/ higherFirst b a = true.
Proof.
  unfold higherFirst. rewrite !Qle_bool_iff.
  destruct (Qlt_le_dec (snd a) (snd b)) as [H|H]; [right|left]; auto.
  now apply Qlt_le_weak.
Qed.

Lemma higherFirst_trans (a b c : string * Q) :
  higherFirst a b = true -> higherFirst b c = true -> higherFirst a c = true.
Proof.
  unfold higherFirst. rewrite !Qle_bool_iff. intros H1 H2.
  eapply Qle_trans; eassumption.
Qed.
End ScoreFacts.

Lemma weight_value (i : nat) :
  Recommendation.weight i
  == if (i <=? 18)%nat then 10 - inject_Z (Z.of_nat i) * (1 # 2) else 1.
Proof.
  unfold Recommendation.weight, JS.Math_max.
  destruct (Qle_bool 1 (10 - inject_Z (Z.of_nat i) * (1 # 2))) eqn:E;
    destruct (Nat.leb_spec i 18) as [L|L]; try reflexivity.
  - apply Qle_bool_iff in E.
    unfold Qle, Qminus, Qplus, Qopp, Qmult, inject_Z in E.
    cbn [Qnum Qden Pos.mul] in E. lia.
  - assert (H : Qle_bool 1 (10 - inject_Z (Z.of_nat i) * (1 # 2)) = true).
    { apply Qle_bool_iff.
      unfold Qle, Qminus, Qplus, Qopp, Qmult, inject_Z.
      cbn [Qnum Qden Pos.mul]. lia. }
    congruence.
Qed.

(** C7 (as stated, refuted) - a history of one content tagged Drama and 7,
    in this order: both genres accumulate 10, Drama is met first, and the
    top genres list 7 before Drama. *)
Lemma index_like_genre_precedes_first_met :
  let u := Examples.viewer [Examples.watched 30 5] in
  let o := Recommendation.genreScores Examples.catalog u in
  Spec.genresMet Examples.catalog u = ["Drama"; "7"]%string
  /\ Spec.firstSeen (Spec.genresMet Examples.catalog u) = ["Drama"; "7"]%string
  /\ Spec.score o "Drama" == 10
  /\ Spec.score o "7" == 10
  /\ Recommendation.topGenres 5 o = ["7"; "Drama"]%string.
Proof.
  cbv zeta. repeat split; vm_compute; reflexivity.
Qed.

(** [Object.entries] lists every own property once. *)
Lemma filter_split_perm (A : Type) (p : A -> bool) (l : list A) :
  Permutation (filter p l ++ filter (fun x => negb (p x)) l) l.
Proof.
  induction l as [|a l IH]; cbn [filter]; [constructor|].
  destruct (p a); cbn [negb app].
  - now constructor.
  - apply Permutation_sym, Permutation_cons_app, Permutation_sym, IH.
Qed.

Lemma entries_perm (o : JS.object) : Permutation (JS.Object_entries o) o.
Proof.
  unfold JS.Object_entries.
  eapply Permutation_trans; [|apply (filter_split_perm _ JS.isIndexKey o)].
  apply Permutation_app_tail, sort_perm.
Qed.

(** C7 (amended) - genre scoring, for genre names that are not inherited
    from Object.prototype (for an inherited name [genreScores[genre] || 0]
    is not a number).  The score accumulated for a genre is the sum, over
    the history positions [i] whose content resolves, of
    [max(1, 10 - i * 0.5)] per occurrence of the genre among the content's
    tags, plus 2 per occurrence among the tags of each watchlist item.
    The entries of the score object are the genres met, each once, with
    its accumulated score; [topGenres] is the first 5 names of these
    entries sorted by descending score, and the sort is stable: entries
    that tie keep the order of [Object.entries].  When moreover no genre
    met is an array index, that order is the first-met order, so ties are
    broken by it. *)
Theorem genre_scoring (cs : list Content.t) (u : User.t) :
  Forall (fun g => JS.inherited g = false) (Spec.genresMet cs u) ->
  let o := Recommendation.genreScores cs u in
  let accumulated g :=
    Spec.historyScore 0 (Recommendation.populateHistory cs (User.watchHistory u)) g
    + Spec.watchlistScore (Recommendation.populateWatchlist cs (User.watchlist u)) g in
  (forall i, Recommendation.weight i
             == if (i <=? 18)%nat then 10 - inject_Z (Z.of_nat i) * (1 # 2) else 1)
  /\ (forall g, Spec.score o g == accumulated g)
  /\ Permutation (map fst (JS.Object_entries o))
                 (Spec.firstSeen (Spec.genresMet cs u))
  /\ (forall g v, In (g, v) (JS.Object_entries o) -> v == accumulated g)
  /\ Recommendation.topGenres 5 o = map fst (firstn 5 (Recommendation.ranked o))
  /\ Permutation (Recommendation.ranked o) (JS.Object_entries o)
  /\ Spec.ordered Recommendation.higherFirst (Recommendation.ranked o)
  /\ (forall x, filter (Spec.ties Recommendation.higherFirst x)
                       (Recommendation.ranked o)
                = filter (Spec.ties Recommendation.higherFirst x)
                         (JS.Object_entries o))
  /\ (Forall Spec.plainKey (Spec.genresMet cs u) ->
      map fst (JS.Object_entries o) = Spec.firstSeen (Spec.genresMet cs u)).
Proof.
  intros _ o accumulated.
  assert (Hscore : forall g, Spec.score o g == accumulated g).
  { intros g. subst o accumulated. unfold Recommendation.genreScores.
    rewrite score_watchlist, score_history. unfold Spec.score. cbn. ring. }
  assert (Hkeys : map fst o = Spec.firstSeen (Spec.genresMet cs u))
    by apply keys_genreScores.
  destruct (firstSeen_facts (Spec.genresMet cs u) [] (NoDup_nil _))
    as [Hnodup Hsub].
  fold (Spec.firstSeen (Spec.genresMet cs u)) in Hnodup, Hsub.
  split; [apply weight_value|].
  split; [exact Hscore|].
  split; [rewrite <- Hkeys; apply Permutation_map, entries_perm|].
  split.
  { intros g v Hin. apply (Permutation_in _ (entries_perm o)) in Hin.
    rewrite <- Hscore.
    unfold Spec.score. rewrite (get_In o g v); [|now rewrite Hkeys|exact Hin].
    symmetry. apply orZero_some. }
  split; [reflexivity|].
  split; [apply sort_perm|].
  split; [apply sort_sorted; [apply higherFirst_total|apply higherFirst_trans]|].
  split; [intros x; apply sort_stable; apply higherFirst_trans|].
  intros Hplain.
  assert (Hentries : JS.Object_entries o = o).
  { apply entries_plain. intros k Hk. rewrite Hkeys in Hk.
    destruct (Hsub k Hk) as [[]|Hin].
    rewrite Forall_forall in Hplain. now destruct (Hplain k Hin). }
  now rewrite Hentries.
Qed.

Lemma genre_scoring_witness :
  Spec.score (Recommendation.genreScores
                Examples.catalog
                (Examples.viewer [Examples.watched 1 5; Examples.watched 2 4]))
             "Drama"
  == 39 # 2.
Proof.
  destruct (genre_scoring
              Examples.catalog
              (Examples.viewer [Examples.watched 1 5; Examples.watched 2 4]))
    as (_ & Hscore & _).
  - repeat constructor.
  - rewrite Hscore. vm_compute. reflexivity.
Defined.

(** ** Failure semantics of the scorer *)

Lemma fallback_length (cs : list Content.t) :
  (10 <= List.length (filter Content.isPublished cs))%nat ->
  List.length (Recommendation.fill 10 [] [] cs) = 10%nat.
Proof.
  intros H. unfold Recommendation.fill. cbn [List.length Nat.ltb Nat.leb app map].
  unfold Mongo.limit, Mongo.sort. cbn [Nat.sub].
  rewrite length_firstn, sort_length.
  rewrite (filter_ext _ Content.isPublished); [lia|].
  intros c. reflexivity.
Qed.

Lemma fallback_items (cs : list Content.t) (c : Content.t) :
  In c (Recommendation.fill 10 [] [] cs) ->
  In c cs /\ Content.isPublished c = true.
Proof.
  unfold Recommendation.fill. cbn [List.length Nat.ltb Nat.leb app map].
  unfold Mongo.limit, Mongo.sort. cbn [Nat.sub].
  intros H.
  assert (H' : In c (JS.sort Recommendation.byViewsCreated
                       (filter (fun c0 => Recommendation.idNin [] c0
                                          && Content.isPublished c0) cs))).
  { rewrite <- (firstn_skipn 10 (JS.sort _ _)). apply in_or_app. now left. }
  apply (Permutation_in _ (sort_perm _ _ _)) in H'.
  apply filter_In in H'. exact H'.
Qed.

(** C6 - Failure semantics and fallback of the scorer.  For a viewer that
    exists, personalized recommendations and top picks always succeed,
    whatever the history and the watchlist hold.  The similarity lookups
    answer 404 exactly when the pivot content does not resolve.  A viewer
    with an empty history and an empty watchlist asking for 10
    recommendations, in a catalog with at least 10 published items,
    receives exactly 10 published items and an empty list of top genres. *)
Theorem scorer_failure_semantics
        (shuffle : list Content.t -> list Content.t) (db : DB) :
  (forall l, Permutation (shuffle l) l) ->
  (forall uid limit,
      User.findById uid (users db) <> None ->
      (exists r, Recommendation.getPersonalizedRecommendations shuffle uid limit db
                 = Ok r)
      /\ (exists r, Recommendation.getTopPicks uid limit db = Ok r))
  /\ (forall cid limit,
         (Content.findById cid (contents db) = None ->
          Recommendation.getSimilarContent cid limit db
          = NotFound "Content not found"
          /\ Recommendation.getBecauseYouWatched cid limit db
             = NotFound "Content not found")
         /\ (Content.findById cid (contents db) <> None ->
             (exists r, Recommendation.getSimilarContent cid limit db = Ok r)
             /\ (exists r, Recommendation.getBecauseYouWatched cid limit db = Ok r)))
  /\ (forall uid u,
         User.findById uid (users db) = Some u ->
         User.watchHistory u = [] -> User.watchlist u = [] ->
         (10 <= List.length (filter Content.isPublished (contents db)))%nat ->
         exists r,
           Recommendation.getPersonalizedRecommendations shuffle uid 10 db = Ok r
           /\ List.length (Recommendation.data r) = 10%nat
           /\ (forall c, In c (Recommendation.data r) ->
                         In c (contents db) /\ Content.isPublished c = true)
           /\ Recommendation.topGenres 5 (Recommendation.genreScores (contents db) u)
              = []
           /\ Recommendation.basedOn r = []).
Proof.
  intros Hperm. split; [|split].
  - intros uid limit Hu.
    unfold Recommendation.getPersonalizedRecommendations, Recommendation.getTopPicks.
    destruct (User.findById uid (users db)); [|tauto].
    split; eexists; reflexivity.
  - intros cid limit.
    unfold Recommendation.getSimilarContent, Recommendation.getBecauseYouWatched.
    split.
    + intros ->. split; reflexivity.
    + intros H. destruct (Content.findById cid (contents db)); [|tauto].
      split; eexists; reflexivity.
  - intros uid u Hu Hh Hw Hten.
    unfold Recommendation.getPersonalizedRecommendations. rewrite Hu.
    assert (Htop : Recommendation.topGenres
                     5 (Recommendation.genreScores (contents db) u) = []).
    { unfold Recommendation.genreScores. rewrite Hh, Hw. reflexivity. }
    assert (Hseen : Recommendation.watchedIds (contents db) u = []).
    { unfold Recommendation.watchedIds. rewrite Hh. reflexivity. }
    rewrite Htop, Hseen. cbn [Recommendation.primary firstn].
    eexists. split; [reflexivity|].
    cbn [Recommendation.data Recommendation.basedOn].
    split; [rewrite (Permutation_length (Hperm _)); now apply fallback_length|].
    split; [|split; reflexivity].
    intros c Hc. apply (Permutation_in _ (Hperm _)) in Hc.
    now apply fallback_items.
Qed.

Lemma scorer_failure_semantics_witness :
  exists r,
    Recommendation.getPersonalizedRecommendations (@rev Content.t) 1 10 Examples.db0
    = Ok r
    /\ List.length (Recommendation.data r) = 10%nat
    /\ Recommendation.basedOn r = [].
Proof.
  destruct (proj2 (proj2 (scorer_failure_semantics
                            (@rev Content.t) Examples.db0
                            (fun l => Permutation_sym (Permutation_rev l))))
                  1%nat (Examples.viewer []) eq_refl eq_refl eq_refl)
    as (r & Hok & Hlen & _ & _ & Hbased).
  - vm_compute. lia.
  - exists r. split; [exact Hok|]. split; [exact Hlen|exact Hbased].
Defined.

(** * Further properties of the handlers *)

(** ** Heads of sorted query results *)

Section SortHeads.
Variable A : Type.
Variable before : A -> A -> bool.
Hypothesis before_total : forall x y, before x y = true \/ before y x = true.
Hypothesis before_trans :
  forall x y z, before x y = true -> before y z = true -> before x z = true.

Lemma sort_nil_iff (l : list A) : JS.sort before l = [] <-> l = [].
Proof.
  split; [|now intros ->].
  intros H. apply Permutation_nil.
  rewrite <- H. apply sort_perm.
Qed.

(** The first element of a sorted query result may stay in front of every
    element of the collection queried. *)
Lemma sort_head_first (l : list A) (h : A) (t : list A) :
  JS.sort before l = h :: t ->
  In h l /\ forall y, In y l -> before h y = true.
Proof.
  intros E.
  assert (P := sort_perm A before l). rewrite E in P.
  assert (S := sort_sorted A before before_total before_trans l).
  rewrite E in S. unfold Spec.ordered in S.
  apply StronglySorted_inv in S. destruct S as [_ F].
  split; [apply (Permutation_in _ P); now left|].
  intros y Hy. apply (Permutation_in _ (Permutation_sym P)) in Hy.
  destruct Hy as [<-|Hy].
  - destruct (before_total h h); assumption.
  - rewrite Forall_forall in F. now apply F.
Qed.

(** An element that every other one must follow heads the sorted result. *)
Lemma sort_head_dominant (l : list A) (x : A) :
  In x l -> (forall y, In y l -> y = x \/ before y x = false) ->
  exists t, JS.sort before l = x :: t.
Proof.
  intros Hx Hdom.
  destruct (JS.sort before l) as [|h t] eqn:E.
  - rewrite (proj1 (sort_nil_iff l) E) in Hx. contradiction.
  - destruct (sort_head_first l h t E) as [Hh Hfirst].
    destruct (Hdom h Hh) as [->|Hf]; [now exists t|].
    rewrite (Hfirst x Hx) in Hf. discriminate.
Qed.
End SortHeads.

(** ** The session a report touches *)

Section TouchedSession.
Import PlaybackSession Playback Spec.

Lemma updateFirst_const_others (A : Type) (sel : A -> bool) (c y : A) (l : list A) :
  In y (Mongo.updateFirst sel (fun _ => c) l) -> y = c \/ In y l.
Proof.
  induction l as [|x r IH]; simpl; [tauto|].
  destruct (sel x); simpl.
  - intros [<-|H]; auto.
  - intros [<-|H]; auto. destruct (IH H); auto.
Qed.

Lemma upsert_others (now : Z) (uid : nat) (b : progressBody)
      (coll : list PlaybackSession.t) (y : PlaybackSession.t) :
  In y (snd (upsertSession now uid b coll)) ->
  y = fst (upsertSession now uid b coll) \/ In y coll.
Proof.
  unfold upsertSession. destruct (lookup uid b coll) as [s|].
  - unfold save. cbn [fst snd]. apply updateFirst_const_others.
  - unfold create. cbn [fst snd]. rewrite in_app_iff. cbn. intuition auto.
Qed.

Lemma preSave_frame (now : Z) (s : PlaybackSession.t) :
  userId (preSave now s) = userId s
  /\ contentId (preSave now s) = contentId s
  /\ episodeId (preSave now s) = episodeId s
  /\ sessionDuration (preSave now s) = sessionDuration s
  /\ lastUpdated (preSave now s) = now.
Proof.
  unfold preSave. destruct (JS.Qlt_bool 0 _); [|repeat split].
  destruct (Qle_bool 90 _); repeat split.
Qed.

Lemma upsert_lastUpdated (now : Z) (uid : nat) (b : progressBody)
      (coll : list PlaybackSession.t) :
  lastUpdated (fst (upsertSession now uid b coll)) = now.
Proof.
  unfold upsertSession. destruct (lookup uid b coll) as [s|];
    unfold save, create; cbn [fst]; apply preSave_frame.
Qed.

Lemma option_string_eqb_eq (a b : option string) :
  option_string_eqb a b = true <-> a = b.
Proof.
  destruct a as [x|], b as [y|]; cbn; try (split; congruence).
  rewrite String.eqb_eq. split; congruence.
Qed.

Lemma matches_spec (uid cid : nat) (eid : option string) (s : PlaybackSession.t) :
  matches uid cid eid s = true
  <-> userId s = uid /\ contentId s = cid /\ episodeId s = JS.orNull eid.
Proof.
  unfold matches.
  rewrite !andb_true_iff, !Nat.eqb_eq, option_string_eqb_eq. tauto.
Qed.

(** Without a session id, the session touched belongs to the caller and to
    the content reported; its episode is the one reported, up to the
    difference between an empty episode id and none. *)
Lemma upsert_identity (now : Z) (uid : nat) (b : progressBody)
      (coll : list PlaybackSession.t) :
  pb_sessionId b = None ->
  let s := fst (upsertSession now uid b coll) in
  userId s = uid /\ contentId s = pb_contentId b
  /\ (episodeId s = JS.orNull (pb_episodeId b)
      \/ (lookup uid b coll = None /\ episodeId s = pb_episodeId b)).
Proof.
  intros Hsid. cbv zeta. unfold upsertSession.
  destruct (lookup uid b coll) as [s|] eqn:L.
  - unfold lookup in L. rewrite Hsid in L. apply find_some in L.
    destruct L as [_ L]. apply matches_spec in L.
    destruct L as (Hu & Hc & He).
    unfold save. cbn [fst].
    destruct (preSave_frame now (assign b s)) as (-> & -> & -> & _).
    cbn. auto.
  - unfold create. cbn [fst].
    match goal with
    | |- context [preSave now ?x] =>
        destruct (preSave_frame now x) as (-> & -> & -> & _)
    end.
    cbn. auto.
Qed.

Lemma resumeQuery_touched (now : Z) (uid : nat) (b : progressBody)
      (coll : list PlaybackSession.t) :
  pb_sessionId b = None ->
  completed (fst (upsertSession now uid b coll)) = false ->
  PlaybackReads.resumeQuery uid (pb_contentId b) (pb_episodeId b)
                            (fst (upsertSession now uid b coll)) = true.
Proof.
  intros Hsid Hopen.
  destruct (upsert_identity now uid b coll Hsid) as (Hu & Hc & He).
  unfold PlaybackReads.resumeQuery.
  rewrite Hu, Hc, Hopen, !Nat.eqb_refl. cbn [andb negb].
  destruct (JS.orNull (pb_episodeId b)) as [e|] eqn:E; [|reflexivity].
  apply option_string_eqb_eq.
  destruct He as [He|[_ He]]; [exact He|].
  rewrite He. destruct (pb_episodeId b) as [[|c r]|]; cbn in E; congruence.
Qed.

Lemma response_updateProgress (now : Z) (uid : nat) (b : progressBody) (db : DB) :
  snd (updateProgress now uid b db)
  = Ok {| pd_progress := progress (fst (upsertSession now uid b (sessions db)));
          pd_completed := completed (fst (upsertSession now uid b (sessions db))) |}.
Proof.
  unfold updateProgress.
  now destruct (upsertSession now uid b (sessions db)).
Qed.

(** Under a clock later than every stored update, the touched session
    heads every most-recent-first query that selects it. *)
Lemma touched_heads (now : Z) (uid : nat) (b : progressBody) (db : DB)
      (q : PlaybackSession.t -> bool) :
  (forall s, In s (sessions db) -> (lastUpdated s < now)%Z) ->
  q (fst (upsertSession now uid b (sessions db))) = true ->
  exists t,
    Mongo.sort newerFirst
               (filter q (sessions (fst (updateProgress now uid b db))))
    = fst (upsertSession now uid b (sessions db)) :: t.
Proof.
  intros Hclock Hq. unfold Mongo.sort.
  apply sort_head_dominant.
  - apply newerFirst_total.
  - apply newerFirst_trans.
  - apply filter_In. split; [|exact Hq].
    rewrite sessions_updateProgress. apply upsert_stored.
  - intros y Hy. apply filter_In in Hy. destruct Hy as [Hy _].
    rewrite sessions_updateProgress in Hy.
    destruct (upsert_others _ _ _ _ _ Hy) as [->|Hin]; [now left|].
    right. unfold newerFirst. rewrite upsert_lastUpdated.
    apply Z.leb_gt. now apply Hclock.
Qed.
End TouchedSession.

(** ** Resume points *)

(** X1 - The resume point is the most recently updated open session of the
    caller on the content (and on the episode, when the request names one):
    the handler reports no resume point exactly when no stored session
    satisfies the query, and otherwise reports a stored session that
    satisfies it (so it is a session of the requested episode when the
    request names one) and was updated no earlier than any other that
    does. *)
Theorem resume_point_is_latest_open_session
        (uid cid : nat) (eid : option string) (db : DB) :
  (PlaybackReads.getResumePoint uid cid eid db
   = Ok (PlaybackReads.NoResumePoint 0)
   <-> forall s, In s (sessions db) ->
                 PlaybackReads.resumeQuery uid cid eid s = false)
  /\ forall ct pct sid e,
      PlaybackReads.getResumePoint uid cid eid db
      = Ok (PlaybackReads.ResumeAt ct pct sid e) ->
      exists s,
        In s (sessions db)
        /\ PlaybackSession._id s = sid
        /\ PlaybackSession.userId s = uid
        /\ PlaybackSession.contentId s = cid
        /\ PlaybackSession.completed s = false
        /\ PlaybackSession.episodeId s = e
        /\ PlaybackReads.resumeQuery uid cid eid s = true
        /\ (forall requested, JS.orNull eid = Some requested ->
                              e = Some requested)
        /\ PlaybackSession.currentTime (PlaybackSession.progress s) = ct
        /\ PlaybackSession.percentage (PlaybackSession.progress s) = pct
        /\ forall s', In s' (sessions db) ->
                      PlaybackReads.resumeQuery uid cid eid s' = true ->
                      (PlaybackSession.lastUpdated s'
                       <= PlaybackSession.lastUpdated s)%Z.
Proof.
  unfold PlaybackReads.getResumePoint, PlaybackReads.resumeSession, Mongo.sort.
  destruct (JS.sort Playback.newerFirst
              (filter (PlaybackReads.resumeQuery uid cid eid) (sessions db)))
    as [|h t] eqn:E; cbn [hd_error].
  - apply (proj1 (sort_nil_iff _ _ _)) in E. split.
    + split; [|reflexivity]. intros _ s Hs.
      destruct (PlaybackReads.resumeQuery uid cid eid s) eqn:Q; [|reflexivity].
      assert (Hin : In s (filter (PlaybackReads.resumeQuery uid cid eid)
                                 (sessions db)))
        by (apply filter_In; split; assumption).
      rewrite E in Hin. contradiction.
    + intros ct pct sid e H. discriminate.
  - destruct (sort_head_first _ _ newerFirst_total newerFirst_trans _ _ _ E)
      as [Hh Hfirst].
    apply filter_In in Hh. destruct Hh as [Hh Hq].
    split.
    + split; [discriminate|].
      intros H. rewrite (H h Hh) in Hq. discriminate.
    + intros ct pct sid e H. inversion H; subst. exists h.
      pose proof Hq as Hquery.
      unfold PlaybackReads.resumeQuery in Hq.
      rewrite !andb_true_iff, !Nat.eqb_eq, negb_true_iff in Hq.
      destruct Hq as [[[Hu Hc] Ho] He].
      assert (Hep : forall requested,
                 JS.orNull eid = Some requested ->
                 PlaybackSession.episodeId h = Some requested).
      { intros requested Hr. rewrite Hr in He.
        now apply option_string_eqb_eq in He. }
      repeat (split; [auto; fail|]).
      intros s' Hs' Hq'.
      assert (Hb : Playback.newerFirst h s' = true)
        by (apply Hfirst, filter_In; split; assumption).
      unfold Playback.newerFirst in Hb. now apply Z.leb_le.
Qed.

(** X2 - Resume after a report.  When a report that names no session id
    leaves its session open, and the clock of the report is later than
    every stored update, the resume point of the caller for the reported
    content and episode is the reported position, with the percentage the
    report answered. *)
Theorem report_then_resume
        (now : Z) (uid : nat) (b : Playback.progressBody) (db : DB)
        (pd : Playback.progressData) :
  Playback.pb_sessionId b = None ->
  (forall s, In s (sessions db) -> (PlaybackSession.lastUpdated s < now)%Z) ->
  snd (Playback.updateProgress now uid b db) = Ok pd ->
  Playback.pd_completed pd = false ->
  exists sid e,
    PlaybackReads.getResumePoint
      uid (Playback.pb_contentId b) (Playback.pb_episodeId b)
      (fst (Playback.updateProgress now uid b db))
    = Ok (PlaybackReads.ResumeAt
            (Playback.pb_currentTime b)
            (PlaybackSession.percentage (Playback.pd_progress pd)) sid e).
Proof.
  intros Hsid Hclock Hok Hopen.
  rewrite response_updateProgress in Hok. inversion Hok; subst pd. clear Hok.
  cbn [Playback.pd_completed Playback.pd_progress] in *.
  destruct (touched_heads now uid b db
              (PlaybackReads.resumeQuery uid (Playback.pb_contentId b)
                                         (Playback.pb_episodeId b))
              Hclock (resumeQuery_touched now uid b _ Hsid Hopen)) as [t Ht].
  unfold PlaybackReads.getResumePoint, PlaybackReads.resumeSession.
  rewrite Ht. cbn [hd_error].
  destruct (upsert_progress now uid b (sessions db)) as [-> _].
  eexists. eexists. reflexivity.
Qed.

Lemma report_then_resume_witness :
  exists sid e,
    PlaybackReads.getResumePoint 1 1 None Examples.dbStarted
    = Ok (PlaybackReads.ResumeAt 10 (10 / 120 * 100) sid e).
Proof.
  destruct (report_then_resume
              1000%Z 1%nat (Examples.reportAt 1 10 120) Examples.db0
              {| Playback.pd_progress :=
                   {| PlaybackSession.currentTime := 10;
                      PlaybackSession.duration := 120;
                      PlaybackSession.percentage := 10 / 120 * 100 |};
                 Playback.pd_completed := false |})
    as (sid & e & H).
  - reflexivity.
  - intros s [].
  - reflexivity.
  - reflexivity.
  - exists sid, e. exact H.
Defined.

(** X3 - Continue watching after a report.  When a report that names no
    session id leaves its session open with a percentage strictly between
    5 and 90, and the clock of the report is later than every stored
    update, the caller's continue-watching view starts with that session:
    its progress is the one the report answered. *)
Theorem report_then_continue_watching
        (now : Z) (uid : nat) (b : Playback.progressBody) (db : DB)
        (pd : Playback.progressData) (queryLimit : option nat) :
  Playback.pb_sessionId b = None ->
  (forall s, In s (sessions db) -> (PlaybackSession.lastUpdated s < now)%Z) ->
  snd (Playback.updateProgress now uid b db) = Ok pd ->
  Playback.pd_completed pd = false ->
  5 < PlaybackSession.percentage (Playback.pd_progress pd) ->
  PlaybackSession.percentage (Playback.pd_progress pd) < 90 ->
  exists first rest,
    Playback.getContinueWatching
      uid queryLimit (fst (Playback.updateProgress now uid b db))
    = Ok (first :: rest)
    /\ Playback.sm_progress first = Playback.pd_progress pd
    /\ Playback.sm_lastWatched first = now
    /\ Playback.sm_content first
       = Content.findById (Playback.pb_contentId b) (contents db).
Proof.
  intros Hsid Hclock Hok Hopen Hlo Hhi.
  rewrite response_updateProgress in Hok. inversion Hok; subst pd. clear Hok.
  cbn [Playback.pd_completed Playback.pd_progress] in *.
  set (s := fst (Playback.upsertSession now uid b (sessions db))) in *.
  assert (Hq : Playback.resumable uid s = true).
  { apply resumable_spec.
    destruct (upsert_identity now uid b (sessions db) Hsid) as (Hu & _).
    repeat split; assumption. }
  destruct (touched_heads now uid b db (Playback.resumable uid) Hclock Hq)
    as [t Ht].
  unfold Playback.getContinueWatching, Playback.continueSessions.
  rewrite Ht. cbn [Mongo.limit firstn map].
  eexists. eexists. split; [reflexivity|].
  cbn [Playback.summarize Playback.sm_progress Playback.sm_lastWatched
       Playback.sm_content].
  split; [reflexivity|].
  split; [apply upsert_lastUpdated|].
  destruct (upsert_identity now uid b (sessions db) Hsid) as (_ & Hc & _).
  rewrite Hc.
  unfold Playback.updateProgress.
  now destruct (Playback.upsertSession now uid b (sessions db)).
Qed.

Lemma report_then_continue_watching_witness :
  exists first rest,
    Playback.getContinueWatching 1 None
      (fst (Playback.updateProgress 1000 1 (Examples.reportAt 1 30 120)
                                    Examples.db0))
    = Ok (first :: rest)
    /\ Playback.sm_lastWatched first = 1000%Z.
Proof.
  destruct (report_then_continue_watching
              1000%Z 1%nat (Examples.reportAt 1 30 120) Examples.db0
              {| Playback.pd_progress :=
                   {| PlaybackSession.currentTime := 30;
                      PlaybackSession.duration := 120;
                      PlaybackSession.percentage := 30 / 120 * 100 |};
                 Playback.pd_completed := false |} None)
    as (first & rest & H & _ & Hl & _).
  - reflexivity.
  - intros s [].
  - reflexivity.
  - reflexivity.
  - reflexivity.
  - reflexivity.
  - exists first, rest. split; [exact H|exact Hl].
Defined.

(** ** What a progress report touches *)

Lemma upsert_length (now : Z) (uid : nat) (b : Playback.progressBody)
      (coll : list PlaybackSession.t) :
  List.length (snd (Playback.upsertSession now uid b coll))
  = match Playback.lookup uid b coll with
    | Some _ => List.length coll
    | None => S (List.length coll)
    end.
Proof.
  unfold Playback.upsertSession.
  destruct (Playback.lookup uid b coll) as [s|].
  - unfold PlaybackSession.save. cbn [snd]. apply updateFirst_length.
  - unfold PlaybackSession.create. cbn [snd].
    rewrite length_app. cbn. lia.
Qed.

Lemma upsert_id (now : Z) (uid : nat) (b : Playback.progressBody)
      (coll : list PlaybackSession.t) :
  PlaybackSession._id (fst (Playback.upsertSession now uid b coll))
  = match Playback.lookup uid b coll with
    | Some s => PlaybackSession._id s
    | None => Mongo.freshId (map PlaybackSession._id coll)
    end.
Proof.
  unfold Playback.upsertSession.
  destruct (Playback.lookup uid b coll) as [s|].
  - unfold PlaybackSession.save. cbn [fst]. now rewrite preSave_id.
  - unfold PlaybackSession.create. cbn [fst]. now rewrite preSave_id.
Qed.

Lemma findById_fresh (coll : list PlaybackSession.t) :
  PlaybackSession.findById (Mongo.freshId (map PlaybackSession._id coll)) coll
  = None.
Proof.
  unfold PlaybackSession.findById.
  destruct (find _ coll) as [x|] eqn:F; [|reflexivity].
  apply find_some in F. destruct F as [Hin E]. apply Nat.eqb_eq in E.
  exfalso. apply (freshId_new (map PlaybackSession._id coll)).
  rewrite <- E. now apply in_map.
Qed.

Lemma find_app_missing (A : Type) (p : A -> bool) (l l' : list A) :
  find p l = None -> find p (l ++ l') = find p l'.
Proof.
  induction l as [|y r IH]; simpl; [reflexivity|].
  destruct (p y); [discriminate|exact IH].
Qed.

Lemma updateHistory_ids (uid : nat) (f : list User.entry -> list User.entry)
      (us : list User.t) :
  map User._id (User.updateHistory uid f us) = map User._id us.
Proof.
  unfold User.updateHistory. induction us as [|x r IH]; simpl; [reflexivity|].
  destruct (Nat.eqb (User._id x) uid); simpl; [reflexivity|now rewrite IH].
Qed.

Lemma updateHistory_watchlists (uid : nat)
      (f : list User.entry -> list User.entry) (us : list User.t) :
  map User.watchlist (User.updateHistory uid f us) = map User.watchlist us.
Proof.
  unfold User.updateHistory. induction us as [|x r IH]; simpl; [reflexivity|].
  destruct (Nat.eqb (User._id x) uid); simpl; [reflexivity|now rewrite IH].
Qed.

(** X4 - A progress report touches one session, the catalogue not at all,
    and no ledger but the caller's: the session collection grows by at most
    one document, every session with another id than the one answered for
    is found unchanged, the content collection is unchanged, and the ledger
    of every other user is unchanged. *)
Theorem progress_report_frame
        (now : Z) (uid : nat) (b : Playback.progressBody) (db : DB) :
  let db' := fst (Playback.updateProgress now uid b db) in
  let touched := PlaybackSession._id
                   (fst (Playback.upsertSession now uid b (sessions db))) in
  contents db' = contents db
  /\ (List.length (sessions db) <= List.length (sessions db')
      <= S (List.length (sessions db)))%nat
  /\ (forall sid, sid <> touched ->
                  PlaybackSession.findById sid (sessions db')
                  = PlaybackSession.findById sid (sessions db))
  /\ (forall other, other <> uid ->
                    Spec.ledger other db' = Spec.ledger other db)
  /\ map User._id (users db') = map User._id (users db)
  /\ map User.watchlist (users db') = map User.watchlist (users db).
Proof.
  cbv zeta. split.
  { unfold Playback.updateProgress.
    now destruct (Playback.upsertSession now uid b (sessions db)). }
  split.
  { rewrite sessions_updateProgress, upsert_length.
    destruct (Playback.lookup uid b (sessions db)); lia. }
  split.
  { intros sid Hsid. rewrite sessions_updateProgress.
    rewrite upsert_id in Hsid. unfold Playback.upsertSession.
    destruct (Playback.lookup uid b (sessions db)) as [s|].
    - unfold PlaybackSession.save, PlaybackSession.findById. cbn [snd].
      rewrite find_updateFirst by (intros; now rewrite preSave_id).
      rewrite assign_id.
      destruct (Nat.eqb_spec sid (PlaybackSession._id s)) as [E|_]; [tauto|].
      now destruct (find _ (sessions db)).
    - unfold PlaybackSession.create, PlaybackSession.findById. cbn [snd].
      destruct (find (fun s => Nat.eqb (PlaybackSession._id s) sid)
                     (sessions db)) as [x|] eqn:F.
      + now apply find_app_found.
      + rewrite (find_app_missing _ _ _ _ F). cbn [find].
        rewrite preSave_id. cbn [PlaybackSession._id].
        destruct (Nat.eqb_spec (Mongo.freshId (map PlaybackSession._id (sessions db)))
                               sid) as [E|_]; [congruence|reflexivity]. }
  split.
  { intros other Hother. unfold Spec.ledger.
    rewrite users_updateProgress, !findById_updateHistory.
    destruct (Nat.eqb_spec other uid) as [E|_]; [tauto|].
    now destruct (User.findById other (users db)). }
  rewrite users_updateProgress.
  now rewrite !updateHistory_ids, !updateHistory_watchlists.
Qed.

(** ** The completion threshold *)


Lemma percentage_formula (ct d : Q) :
  0 < d -> ct / d * 100 == ct * 100 / d.
Proof. intros H. field. intros E. rewrite E in H. discriminate. Qed.



(** ** Sessions per identity triple *)

Section TripleFacts.
Import PlaybackSession Playback Spec.

Lemma find_exists (A : Type) (p : A -> bool) (l : list A) (x : A) :
  In x l -> p x = true -> find p l <> None.
Proof.
  intros Hin Hp H. now rewrite (find_none p l H x Hin) in Hp.
Qed.

Lemma step_matches (uid cid : nat) (eid : option string) (r : report) (db : DB) :
  JS.orNull eid = eid -> More.reportFor uid cid eid r ->
  exists s, In s (sessions (step db r)) /\ matches uid cid eid s = true.
Proof.
  destruct r as [[now uid'] b]. intros Heid (Hu & Hsid & Hc & He).
  cbn [fst snd] in *. subst uid'. unfold step.
  exists (fst (upsertSession now uid b (sessions db))). split.
  - rewrite sessions_updateProgress. apply upsert_stored.
  - apply matches_spec.
    destruct (upsert_identity now uid b (sessions db) Hsid) as (H1 & H2 & H3).
    rewrite H1, H2, Hc. repeat split.
    rewrite He in H3. rewrite Heid in *. tauto.
Qed.

Lemma step_reuses (uid cid : nat) (eid : option string) (r : report) (db : DB) :
  More.reportFor uid cid eid r ->
  (exists s, In s (sessions db) /\ matches uid cid eid s = true) ->
  List.length (sessions (step db r)) = List.length (sessions db).
Proof.
  destruct r as [[now uid'] b]. intros (Hu & Hsid & Hc & He) (s & Hin & Hm).
  cbn [fst snd] in *. subst uid'. unfold step.
  rewrite sessions_updateProgress, upsert_length.
  unfold lookup. rewrite Hsid, Hc, He.
  destruct (find (matches uid cid eid) (sessions db)) eqn:F; [reflexivity|].
  exfalso. now apply (find_exists _ _ _ s Hin Hm).
Qed.

Lemma run_reuses (uid cid : nat) (eid : option string) (rs : list report)
      (db : DB) :
  JS.orNull eid = eid -> Forall (More.reportFor uid cid eid) rs ->
  (exists s, In s (sessions db) /\ matches uid cid eid s = true) ->
  List.length (sessions (run rs db)) = List.length (sessions db).
Proof.
  intros Heid Hall. revert db. unfold run.
  induction Hall as [|r rs Hr Hall IH]; intros db Hm; [reflexivity|].
  cbn [fold_left]. rewrite IH.
  - now apply (step_reuses uid cid eid).
  - now apply step_matches.
Qed.
End TripleFacts.

(** X6 - One session per identity triple.  Reports that name no session id
    and agree on the caller, the content and the episode (an episode id
    that is not the empty string, or none) share one session: together
    they add at most one document to the session collection, and none when
    a session for the triple is already stored. *)
Theorem reports_share_one_session
        (uid cid : nat) (eid : option string) (rs : list Spec.report) (db : DB) :
  JS.orNull eid = eid ->
  Forall (More.reportFor uid cid eid) rs ->
  (List.length (sessions (Spec.run rs db)) <= S (List.length (sessions db)))%nat
  /\ ((exists s, In s (sessions db)
                 /\ PlaybackSession.matches uid cid eid s = true) ->
      List.length (sessions (Spec.run rs db)) = List.length (sessions db)).
Proof.
  intros Heid Hall. split; [|now apply run_reuses].
  destruct rs as [|r rs]; [cbn; lia|].
  inversion Hall as [|? ? Hr Hrest]; subst.
  change (Spec.run (r :: rs) db) with (Spec.run rs (Spec.step db r)).
  rewrite (run_reuses uid cid eid rs _ Heid Hrest (step_matches _ _ _ _ _ Heid Hr)).
  destruct r as [[now uid'] b]. unfold Spec.step.
  rewrite sessions_updateProgress, upsert_length.
  destruct (Playback.lookup uid' b (sessions db)); lia.
Qed.

Lemma reports_share_one_session_witness :
  (List.length
     (sessions (Spec.run [(1000%Z, 1%nat, Examples.reportAt 1 10 120);
                          (2000%Z, 1%nat, Examples.reportAt 1 20 120);
                          (3000%Z, 1%nat, Examples.reportAt 1 30 120)]
                         Examples.db0)) <= 1)%nat.
Proof.
  apply (proj1 (reports_share_one_session
                  1 1 None
                  [(1000%Z, 1%nat, Examples.reportAt 1 10 120);
                   (2000%Z, 1%nat, Examples.reportAt 1 20 120);
                   (3000%Z, 1%nat, Examples.reportAt 1 30 120)]
                  Examples.db0 eq_refl
                  ltac:(repeat constructor))).
Defined.

(** X7 - The empty episode id.  A report whose episode id is the empty
    string is looked up as a report without episode and stored with the
    empty string: as long as the caller has no episode-less session on the
    content, every such report opens another session. *)
Theorem empty_episode_id_opens_a_session_per_report
        (uid cid : nat) (rs : list Spec.report) (db : DB) :
  Forall (More.reportFor uid cid (Some EmptyString)) rs ->
  (forall s, In s (sessions db) ->
             PlaybackSession.matches uid cid None s = false) ->
  List.length (sessions (Spec.run rs db))
  = (List.length (sessions db) + List.length rs)%nat.
Proof.
  intros Hall. revert db. unfold Spec.run.
  induction Hall as [|r rs Hr Hall IH]; intros db Hnone;
    cbn [fold_left List.length]; [lia|].
  destruct r as [[now uid'] b]. destruct Hr as (Hu & Hsid & Hc & He).
  cbn [fst snd] in *. subst uid'.
  assert (L : Playback.lookup uid b (sessions db) = None).
  { unfold Playback.lookup. rewrite Hsid, Hc, He.
    destruct (find _ (sessions db)) as [x|] eqn:F; [|reflexivity].
    apply find_some in F. destruct F as [Hin Hm].
    change (PlaybackSession.matches uid cid (Some EmptyString) x)
      with (PlaybackSession.matches uid cid None x) in Hm.
    now rewrite (Hnone x Hin) in Hm. }
  rewrite IH.
  - unfold Spec.step. rewrite sessions_updateProgress, upsert_length, L. lia.
  - intros s Hs. unfold Spec.step in Hs. rewrite sessions_updateProgress in Hs.
    destruct (upsert_others _ _ _ _ _ Hs) as [->|Hin]; [|now apply Hnone].
    destruct (upsert_identity now uid b (sessions db) Hsid)
      as (_ & _ & [H|[_ H]]).
    + exfalso. revert H. unfold Playback.upsertSession. rewrite L.
      unfold PlaybackSession.create. cbn [fst].
      match goal with
      | |- context [PlaybackSession.preSave now ?x] =>
          destruct (preSave_frame now x) as (_ & _ & -> & _)
      end.
      cbn. rewrite He. discriminate.
    + destruct (PlaybackSession.matches uid cid None _) eqn:M; [|reflexivity].
      apply matches_spec in M. destruct M as (_ & _ & M).
      rewrite H, He in M. discriminate.
Qed.

Lemma empty_episode_id_opens_a_session_per_report_witness :
  List.length
    (sessions (Spec.run
                 [(1000%Z, 1%nat,
                   {| Playback.pb_sessionId := None; Playback.pb_contentId := 1;
                      Playback.pb_episodeId := Some EmptyString;
                      Playback.pb_currentTime := 10;
                      Playback.pb_duration := 120 |});
                  (2000%Z, 1%nat,
                   {| Playback.pb_sessionId := None; Playback.pb_contentId := 1;
                      Playback.pb_episodeId := Some EmptyString;
                      Playback.pb_currentTime := 20;
                      Playback.pb_duration := 120 |})]
                 Examples.db0))
  = 2%nat.
Proof.
  apply (empty_episode_id_opens_a_session_per_report 1 1).
  - repeat constructor.
  - intros s [].
Defined.

(** ** Mark completed, on the session side *)

Lemma updateFirst_split (A : Type) (sel : A -> bool) (f : A -> A) (l : list A) :
  match find sel l with
  | None => Mongo.updateFirst sel f l = l
  | Some x =>
      exists l1 l2,
        l = (l1 ++ x :: l2)%list
        /\ Mongo.updateFirst sel f l = (l1 ++ f x :: l2)%list
        /\ forall y, In y l1 -> sel y = false
  end.
Proof.
  induction l as [|y r IH]; cbn [find Mongo.updateFirst]; [reflexivity|].
  destruct (sel y) eqn:E.
  - exists [], r. repeat split. intros z [].
  - destruct (find sel r) as [x|].
    + destruct IH as (l1 & l2 & -> & -> & Hl1).
      exists (y :: l1), l2. repeat split.
      intros z [<-|Hz]; [exact E|now apply Hl1].
    + now rewrite IH.
Qed.

(** X8 - [markCompleted] on the sessions: it never creates or deletes a
    session.  When no stored session matches the caller, the content and
    the episode, the collection is unchanged and the call still succeeds;
    otherwise exactly the first match changes: it becomes completed with
    percentage 100 and keeps its id, its position, its duration and its
    update time. *)
Theorem markCompleted_sessions
        (uid cid : nat) (eid : option string) (db : DB) :
  let db' := fst (Playback.markCompleted uid cid eid db) in
  snd (Playback.markCompleted uid cid eid db) = Ok tt
  /\ contents db' = contents db
  /\ List.length (sessions db') = List.length (sessions db)
  /\ ((forall s, In s (sessions db) ->
                 PlaybackSession.matches uid cid eid s = false) ->
      sessions db' = sessions db)
  /\ (forall s,
         find (PlaybackSession.matches uid cid eid) (sessions db) = Some s ->
         exists earlier later s',
           sessions db = (earlier ++ s :: later)%list
           /\ sessions db' = (earlier ++ s' :: later)%list
           /\ (forall y, In y earlier ->
                         PlaybackSession.matches uid cid eid y = false)
           /\ PlaybackSession.completed s' = true
           /\ PlaybackSession.percentage (PlaybackSession.progress s') = 100
           /\ PlaybackSession._id s' = PlaybackSession._id s
           /\ PlaybackSession.currentTime (PlaybackSession.progress s')
              = PlaybackSession.currentTime (PlaybackSession.progress s)
           /\ PlaybackSession.duration (PlaybackSession.progress s')
              = PlaybackSession.duration (PlaybackSession.progress s)
           /\ PlaybackSession.lastUpdated s' = PlaybackSession.lastUpdated s).
Proof.
  cbv zeta. unfold Playback.markCompleted. cbn [fst snd sessions contents].
  split; [reflexivity|]. split; [reflexivity|].
  split; [apply updateFirst_length|].
  assert (S := updateFirst_split _ (PlaybackSession.matches uid cid eid)
                                 Playback.forceCompleted (sessions db)).
  split.
  - intros Hnone.
    destruct (find _ (sessions db)) as [x|] eqn:F; [|exact S].
    apply find_some in F. destruct F as [Hin Hm].
    now rewrite (Hnone x Hin) in Hm.
  - intros s Hs. rewrite Hs in S. destruct S as (l1 & l2 & H1 & H2 & H3).
    exists l1, l2, (Playback.forceCompleted s). repeat split; assumption.
Qed.

(** ** The pre-save hook *)

(** X9 - Saving twice is saving once: the pre-save hook applied to its own
    result gives what one application with the later clock gives, so a
    repeated save changes nothing but the update time. *)
Theorem preSave_idempotent (now later : Z) (s : PlaybackSession.t) :
  PlaybackSession.preSave later (PlaybackSession.preSave now s)
  = PlaybackSession.preSave later s.
Proof.
  destruct s as [i u c e [ct d pc] done q st lu sd].
  unfold PlaybackSession.preSave. cbn.
  destruct (JS.Qlt_bool 0 d) eqn:Hd; cbn; [|now rewrite Hd].
  destruct (Qle_bool 90 (ct / d * 100)) eqn:H90; cbn; rewrite Hd, H90;
    reflexivity.
Qed.

(** X10 - The percentage the hook stores is not clamped.  For a positive
    duration it lies between 0 and 100 when the position lies between 0
    and the duration, exceeds 100 when the position exceeds the duration,
    and is not positive when the position is negative. *)
Theorem preSave_percentage_range (now : Z) (s : PlaybackSession.t) :
  let ct := PlaybackSession.currentTime (PlaybackSession.progress s) in
  let d := PlaybackSession.duration (PlaybackSession.progress s) in
  let pct := PlaybackSession.percentage
               (PlaybackSession.progress (PlaybackSession.preSave now s)) in
  0 < d ->
  (0 <= ct -> ct <= d -> 0 <= pct /\ pct <= 100)
  /\ (d < ct -> 100 < pct)
  /\ (ct < 0 -> pct <= 0).
Proof.
  cbv zeta. intros Hd.
  destruct (preSave_percentage now s) as [Hpct _]. cbv zeta in Hpct.
  rewrite (Hpct Hd), (percentage_formula _ _ Hd).
  set (ct := PlaybackSession.currentTime (PlaybackSession.progress s)) in *.
  set (d := PlaybackSession.duration (PlaybackSession.progress s)) in *.
  split; [|split].
  - intros H0 H1. split.
    + apply Qle_shift_div_l; [exact Hd|]. rewrite Qmult_0_l.
      apply Qmult_le_0_compat; [exact H0|discriminate].
    + apply Qle_shift_div_r; [exact Hd|]. rewrite (Qmult_comm 100).
      apply Qmult_le_compat_r; [exact H1|discriminate].
  - intros H. apply Qlt_shift_div_l; [exact Hd|]. rewrite (Qmult_comm 100).
    apply Qmult_lt_compat_r; [reflexivity|exact H].
  - intros H. apply Qlt_le_weak.
    apply Qlt_shift_div_r; [exact Hd|]. rewrite Qmult_0_l.
    setoid_replace 0 with (0 * 100) by ring.
    apply Qmult_lt_compat_r; [reflexivity|exact H].
Qed.

Lemma preSave_percentage_range_witness :
  100 < PlaybackSession.percentage
          (PlaybackSession.progress
             (PlaybackSession.preSave 5
                {| PlaybackSession._id := 1; PlaybackSession.userId := 1;
                   PlaybackSession.contentId := 1;
                   PlaybackSession.episodeId := None;
                   PlaybackSession.progress :=
                     {| PlaybackSession.currentTime := 150;
                        PlaybackSession.duration := 120;
                        PlaybackSession.percentage := 0 |};
                   PlaybackSession.completed := false;
                   PlaybackSession.quality := "auto";
                   PlaybackSession.startedAt := 0;
                   PlaybackSession.lastUpdated := 0;
                   PlaybackSession.sessionDuration := 0 |})).
Proof.
  match goal with
  | |- 100 < PlaybackSession.percentage
               (PlaybackSession.progress (PlaybackSession.preSave ?n ?s)) =>
      apply (proj1 (proj2 (preSave_percentage_range n s eq_refl)))
  end.
  reflexivity.
Defined.

(** ** Resuming through [startPlayback] *)

Lemma find_replaced (A : Type) (key : A -> nat) (p : A -> bool)
      (l : list A) (s s' : A) :
  NoDup (map key l) -> find p l = Some s -> p s' = true ->
  find p (Mongo.updateFirst (fun x => Nat.eqb (key x) (key s)) (fun _ => s') l)
  = Some s'.
Proof.
  intros Hnd Hf Hp. induction l as [|x r IH]; cbn [find] in *; [discriminate|].
  inversion Hnd as [|? ? Hx Hr]; subst. cbn [Mongo.updateFirst].
  destruct (p x) eqn:Px.
  - inversion Hf; subst x. rewrite Nat.eqb_refl. cbn [find]. now rewrite Hp.
  - destruct (Nat.eqb_spec (key x) (key s)) as [E|_].
    + exfalso. apply Hx. rewrite E. apply in_map.
      now apply find_some in Hf.
    + cbn [find]. rewrite Px. now apply IH.
Qed.

Lemma find_stronger (A : Type) (p q : A -> bool) (l : list A) (x : A) :
  find p l = Some x -> q x = true ->
  find (fun y => p y && q y) l = Some x.
Proof.
  induction l as [|y r IH]; cbn [find]; [discriminate|].
  destruct (p y) eqn:Py; cbn [andb].
  - intros E Hq. inversion E; subst. now rewrite Hq.
  - exact IH.
Qed.

(** With unique ids, the session a report touches is the first stored
    match of its identity triple. *)
Lemma touched_is_first_match (now : Z) (uid : nat) (b : Playback.progressBody)
      (coll : list PlaybackSession.t) :
  NoDup (map PlaybackSession._id coll) ->
  Playback.pb_sessionId b = None ->
  JS.orNull (Playback.pb_episodeId b) = Playback.pb_episodeId b ->
  find (PlaybackSession.matches uid (Playback.pb_contentId b)
                                (Playback.pb_episodeId b))
       (snd (Playback.upsertSession now uid b coll))
  = Some (fst (Playback.upsertSession now uid b coll)).
Proof.
  intros Hnd Hsid Heid.
  assert (Hm : PlaybackSession.matches
                 uid (Playback.pb_contentId b) (Playback.pb_episodeId b)
                 (fst (Playback.upsertSession now uid b coll)) = true).
  { apply matches_spec.
    destruct (upsert_identity now uid b coll Hsid) as (H1 & H2 & H3).
    rewrite Heid in *. tauto. }
  revert Hm. unfold Playback.upsertSession.
  destruct (Playback.lookup uid b coll) as [s|] eqn:L; intros Hm.
  - unfold PlaybackSession.save in *. cbn [fst snd] in *.
    unfold Playback.lookup in L. rewrite Hsid in L.
    rewrite assign_id.
    now apply (find_replaced _ PlaybackSession._id).
  - unfold PlaybackSession.create in *. cbn [fst snd] in *.
    unfold Playback.lookup in L. rewrite Hsid in L.
    rewrite (find_app_missing _ _ _ _ L). cbn [find]. now rewrite Hm.
Qed.

(** X11 - Resume through [startPlayback].  After a report that names no
    session id (with an episode id that is not the empty string, or none)
    and leaves its session open, [startPlayback] of the same user for the
    same content and episode, on a content that resolves and that the
    user's plan covers, creates nothing and answers with the reported
    position as [resumeFrom]. *)
Theorem report_then_startPlayback
        (now later : Z) (user : User.t) (b : Playback.progressBody)
        (sb : Playback.startBody) (db : DB) (content : Content.t)
        (pd : Playback.progressData) :
  Spec.uniqueIds db ->
  Playback.pb_sessionId b = None ->
  JS.orNull (Playback.pb_episodeId b) = Playback.pb_episodeId b ->
  snd (Playback.updateProgress now (User._id user) b db) = Ok pd ->
  Playback.pd_completed pd = false ->
  Playback.sb_contentId sb = Playback.pb_contentId b ->
  Playback.sb_episodeId sb = Playback.pb_episodeId b ->
  Content.findById (Playback.pb_contentId b) (contents db) = Some content ->
  (Spec.tier (Playback.planOrFree (Content.subscriptionRequired content))
   <= Spec.tier (Playback.planOrFree (User.subscriptionPlan user)))%nat ->
  let db' := fst (Playback.updateProgress now (User._id user) b db) in
  exists data,
    Playback.startPlayback later user sb db' = (db', Ok data)
    /\ Playback.sd_resumeFrom data = Playback.pb_currentTime b.
Proof.
  intros Hnd Hsid Heid Hok Hopen Hc He Hcontent Htier. cbv zeta.
  rewrite response_updateProgress in Hok. inversion Hok; subst pd. clear Hok.
  cbn [Playback.pd_completed] in Hopen.
  set (db' := fst (Playback.updateProgress now (User._id user) b db)).
  assert (Hcs : contents db' = contents db).
  { subst db'. unfold Playback.updateProgress.
    now destruct (Playback.upsertSession now (User._id user) b (sessions db)). }
  unfold Playback.startPlayback. rewrite Hc, He, Hcs, Hcontent.
  rewrite !indexOf_tier.
  destruct (Z.ltb_spec
              (Z.of_nat (Spec.tier (Playback.planOrFree (User.subscriptionPlan user))))
              (Z.of_nat (Spec.tier (Playback.planOrFree (Content.subscriptionRequired content)))))
    as [Hlt|_]; [lia|].
  assert (Hfirst :
            find (fun s => PlaybackSession.matches
                             (User._id user) (Playback.pb_contentId b)
                             (Playback.pb_episodeId b) s
                           && negb (PlaybackSession.completed s))
                 (sessions db')
            = Some (fst (Playback.upsertSession now (User._id user) b (sessions db)))).
  { subst db'. rewrite sessions_updateProgress.
    apply find_stronger.
    - now apply touched_is_first_match.
    - now rewrite Hopen. }
  rewrite Hfirst. eexists. split; [reflexivity|].
  cbn [Playback.startResponse Playback.sd_resumeFrom].
  now destruct (upsert_progress now (User._id user) b (sessions db)) as [-> _].
Qed.

Lemma report_then_startPlayback_witness :
  exists data,
    Playback.startPlayback
      2000 (Examples.viewer [])
      {| Playback.sb_contentId := 1; Playback.sb_episodeId := None;
         Playback.sb_duration := Some 120; Playback.sb_quality := None |}
      Examples.dbStarted
    = (Examples.dbStarted, Ok data)
    /\ Playback.sd_resumeFrom data = 10.
Proof.
  apply (report_then_startPlayback
           1000%Z 2000%Z (Examples.viewer []) (Examples.reportAt 1 10 120)
           {| Playback.sb_contentId := 1; Playback.sb_episodeId := None;
              Playback.sb_duration := Some 120; Playback.sb_quality := None |}
           Examples.db0
           (Examples.film 1 ["Drama"%string] free 1)
           {| Playback.pd_progress :=
                {| PlaybackSession.currentTime := 10;
                   PlaybackSession.duration := 120;
                   PlaybackSession.percentage := 10 / 120 * 100 |};
              Playback.pd_completed := false |}).
  - constructor.
  - reflexivity.
  - reflexivity.
  - reflexivity.
  - reflexivity.
  - reflexivity.
  - reflexivity.
  - reflexivity.
  - cbn. lia.
Defined.

(** ** The watchlist *)

Section WatchlistFacts.
Import UserController.

Lemma findById_updateWatchlist (uid uid' : nat) (f : list nat -> list nat)
      (us : list User.t) :
  User.findById uid' (updateWatchlist uid f us)
  = option_map (fun u => if Nat.eqb uid' uid
                         then setWatchlist (f (User.watchlist u)) u
                         else u)
               (User.findById uid' us).
Proof.
  unfold User.findById, updateWatchlist. now rewrite find_updateFirst.
Qed.

Lemma watchlistOf_update (uid uid' : nat) (f : list nat -> list nat) (db : DB)
      (cs : list Content.t) (ss : list PlaybackSession.t) :
  User.findById uid' (users db) <> None ->
  More.watchlistOf uid' {| contents := cs;
                           users := updateWatchlist uid f (users db);
                           sessions := ss |}
  = if Nat.eqb uid' uid then f (More.watchlistOf uid' db)
    else More.watchlistOf uid' db.
Proof.
  unfold More.watchlistOf. cbn [users]. rewrite findById_updateWatchlist.
  destruct (User.findById uid' (users db)) as [u|]; [|tauto].
  intros _. cbn. now destruct (Nat.eqb uid' uid).
Qed.

Lemma ledger_updateWatchlist (uid uid' : nat) (f : list nat -> list nat)
      (db : DB) (cs : list Content.t) (ss : list PlaybackSession.t) :
  Spec.ledger uid' {| contents := cs;
                      users := updateWatchlist uid f (users db);
                      sessions := ss |}
  = Spec.ledger uid' db.
Proof.
  unfold Spec.ledger. cbn [users]. rewrite findById_updateWatchlist.
  destruct (User.findById uid' (users db)) as [u|]; [|reflexivity].
  cbn. now destruct (Nat.eqb uid' uid).
Qed.

Lemma includes_In (c : nat) (w : list nat) : includes c w = true <-> In c w.
Proof.
  unfold includes. rewrite existsb_exists. split.
  - intros (x & Hx & E). apply Nat.eqb_eq in E. now subst.
  - intros H. exists c. split; [exact H|apply Nat.eqb_refl].
Qed.

Lemma addToSet_NoDup (c : nat) (w : list nat) : NoDup w -> NoDup (addToSet c w).
Proof.
  intros H. unfold addToSet. destruct (includes c w) eqn:E; [exact H|].
  assert (N : ~ In c w) by (rewrite <- includes_In; congruence).
  apply NoDup_rev in H. rewrite <- (rev_involutive (w ++ [c])).
  apply NoDup_rev. rewrite rev_app_distr. cbn [rev app].
  constructor; [now rewrite <- in_rev|exact H].
Qed.

Lemma pullId_absent (c : nat) (w : list nat) : ~ In c w -> pullId c w = w.
Proof.
  intros H. unfold pullId. apply filter_all.
  intros x Hx. apply negb_true_iff, Nat.eqb_neq. congruence.
Qed.

Lemma pullId_gone (c : nat) (w : list nat) : ~ In c (pullId c w).
Proof.
  unfold pullId. rewrite filter_In. intros [_ H].
  now rewrite Nat.eqb_refl in H.
Qed.
End WatchlistFacts.

(** X12 - Adding to the watchlist, for a request whose user is the stored
    one.  A content that does not resolve is answered 404 and one already
    listed 400, both without any change; otherwise the content is appended
    at the end of the caller's watchlist.  In every case a watchlist free
    of duplicates stays so, and sessions, catalogue and ledgers are left
    alone. *)
Theorem addToWatchlist_effect (user : User.t) (cid : nat) (db : DB) :
  User.findById (User._id user) (users db) = Some user ->
  let r := UserController.addToWatchlist user cid db in
  let w := User.watchlist user in
  let w' := More.watchlistOf (User._id user) (fst r) in
  (Content.findById cid (contents db) = None ->
   r = (db, UserController.Sent (NotFound "Content not found")))
  /\ (Content.findById cid (contents db) <> None -> In cid w ->
      r = (db, UserController.BadRequest "Content already in watchlist"))
  /\ (Content.findById cid (contents db) <> None -> ~ In cid w ->
      snd r = UserController.Sent (Ok tt) /\ w' = (w ++ [cid])%list)
  /\ (NoDup w -> NoDup w')
  /\ sessions (fst r) = sessions db
  /\ contents (fst r) = contents db
  /\ (forall uid, Spec.ledger uid (fst r) = Spec.ledger uid db).
Proof.
  intros Hu. cbv zeta. unfold UserController.addToWatchlist.
  assert (Hw : More.watchlistOf (User._id user) db = User.watchlist user)
    by (unfold More.watchlistOf; now rewrite Hu).
  destruct (Content.findById cid (contents db)) as [c|] eqn:F.
  - destruct (UserController.includes cid (User.watchlist user)) eqn:I.
    + apply includes_In in I. cbn [fst snd].
      split; [discriminate|]. split; [reflexivity|].
      split; [tauto|]. rewrite Hw. repeat split. tauto.
    + assert (N : ~ In cid (User.watchlist user))
        by (rewrite <- includes_In; congruence).
      cbn [fst snd sessions contents].
      rewrite watchlistOf_update, Nat.eqb_refl, Hw by (rewrite Hu; discriminate).
      split; [discriminate|]. split; [tauto|].
      split.
      { intros _ _. split; [reflexivity|].
        unfold UserController.addToSet. now rewrite I. }
      split; [apply addToSet_NoDup|].
      repeat split. intros uid. apply ledger_updateWatchlist.
  - cbn [fst snd]. split; [reflexivity|]. split; [tauto|].
    split; [tauto|]. rewrite Hw. repeat split. tauto.
Qed.

Lemma addToWatchlist_effect_witness :
  More.watchlistOf 1 (fst (UserController.addToWatchlist
                             (More.member (Some free) [2%nat]) 3
                             (More.dbWith (More.member (Some free) [2%nat]))))
  = [2; 3]%nat.
Proof.
  destruct (addToWatchlist_effect
              (More.member (Some free) [2%nat]) 3
              (More.dbWith (More.member (Some free) [2%nat])) eq_refl)
    as (_ & _ & Hadd & _).
  apply Hadd.
  - discriminate.
  - cbn. intuition discriminate.
Defined.

(** X13 - Removing from the watchlist always succeeds: afterwards the
    content is not in the caller's watchlist, the other entries keep their
    order, a watchlist that did not hold the content is unchanged, and
    removing a second time changes nothing more. *)
Theorem removeFromWatchlist_effect (uid cid : nat) (db : DB) :
  User.findById uid (users db) <> None ->
  let db' := fst (UserController.removeFromWatchlist uid cid db) in
  snd (UserController.removeFromWatchlist uid cid db) = Ok tt
  /\ ~ In cid (More.watchlistOf uid db')
  /\ More.watchlistOf uid db'
     = filter (fun i => negb (Nat.eqb i cid)) (More.watchlistOf uid db)
  /\ (~ In cid (More.watchlistOf uid db) ->
      More.watchlistOf uid db' = More.watchlistOf uid db)
  /\ More.watchlistOf uid (fst (UserController.removeFromWatchlist uid cid db'))
     = More.watchlistOf uid db'
  /\ (forall other, other <> uid ->
                    More.watchlistOf other db' = More.watchlistOf other db).
Proof.
  intros Hu. cbv zeta. unfold UserController.removeFromWatchlist.
  cbn [fst snd].
  assert (E : More.watchlistOf uid
                {| contents := contents db;
                   users := UserController.updateWatchlist
                              uid (UserController.pullId cid) (users db);
                   sessions := sessions db |}
              = UserController.pullId cid (More.watchlistOf uid db)).
  { rewrite watchlistOf_update by exact Hu. now rewrite Nat.eqb_refl. }
  split; [reflexivity|].
  split; [rewrite E; apply pullId_gone|].
  split; [exact E|].
  split; [intros N; rewrite E; now apply pullId_absent|].
  split.
  - rewrite watchlistOf_update, Nat.eqb_refl.
    + apply pullId_absent. rewrite E. apply pullId_gone.
    + cbn [users]. rewrite findById_updateWatchlist.
      destruct (User.findById uid (users db)); [discriminate|tauto].
  - intros other Ho. unfold More.watchlistOf. cbn [users].
    rewrite findById_updateWatchlist.
    destruct (Nat.eqb_spec other uid) as [->|_]; [tauto|].
    now destruct (User.findById other (users db)).
Qed.

Lemma removeFromWatchlist_effect_witness :
  More.watchlistOf 1 (fst (UserController.removeFromWatchlist
                             1 2 (More.dbWith (More.member (Some free) [2; 3; 2]%nat))))
  = [3]%nat.
Proof.
  rewrite (proj1 (proj2 (proj2 (removeFromWatchlist_effect
                                  1 2 (More.dbWith (More.member (Some free) [2; 3; 2]%nat))
                                  ltac:(discriminate))))).
  reflexivity.
Defined.

(** X14 - Add, then remove: for a request whose user is the stored one, a
    content that resolves and is not yet listed, added and then removed,
    leaves the caller's watchlist as it was. *)
Theorem add_then_remove_restores (user : User.t) (cid : nat) (db : DB) :
  User.findById (User._id user) (users db) = Some user ->
  Content.findById cid (contents db) <> None ->
  ~ In cid (User.watchlist user) ->
  More.watchlistOf
    (User._id user)
    (fst (UserController.removeFromWatchlist
            (User._id user) cid
            (fst (UserController.addToWatchlist user cid db))))
  = User.watchlist user.
Proof.
  intros Hu Hc Hn.
  destruct (addToWatchlist_effect user cid db Hu) as (_ & _ & Hadd & _).
  destruct (Hadd Hc Hn) as [_ Hw].
  assert (Hu' : User.findById (User._id user)
                  (users (fst (UserController.addToWatchlist user cid db)))
                <> None).
  { unfold UserController.addToWatchlist.
    destruct (Content.findById cid (contents db)); [|tauto].
    destruct (UserController.includes cid (User.watchlist user)); cbn [fst users].
    - rewrite Hu. discriminate.
    - rewrite findById_updateWatchlist, Hu. discriminate. }
  destruct (removeFromWatchlist_effect
              (User._id user) cid
              (fst (UserController.addToWatchlist user cid db)) Hu')
    as (_ & _ & -> & _).
  rewrite Hw, filter_app. cbn [filter]. rewrite Nat.eqb_refl. cbn [negb].
  rewrite app_nil_r. apply (pullId_absent cid). exact Hn.
Qed.

Lemma add_then_remove_restores_witness :
  More.watchlistOf
    1 (fst (UserController.removeFromWatchlist
              1 3 (fst (UserController.addToWatchlist
                          (More.member (Some free) [2%nat]) 3
                          (More.dbWith (More.member (Some free) [2%nat]))))))
  = [2]%nat.
Proof.
  apply (add_then_remove_restores
           (More.member (Some free) [2%nat]) 3
           (More.dbWith (More.member (Some free) [2%nat])) eq_refl).
  - discriminate.
  - cbn. intuition discriminate.
Defined.

(** ** The watch-history listing *)

Section HistoryFacts.
Import UserController.

Lemma firstn_whole (A : Type) (n : nat) (l : list A) :
  firstn (Nat.min n (List.length l)) l = firstn n l.
Proof.
  destruct (Nat.le_gt_cases n (List.length l)) as [H|H].
  - now rewrite Nat.min_l.
  - rewrite Nat.min_r by lia.
    rewrite firstn_all, firstn_all2 by lia. reflexivity.
Qed.

(** [slice] between two indices that are not negative. *)
Lemma slice_nat (A : Type) (a b : nat) (l : list A) :
  (a <= b)%nat ->
  slice (Z.of_nat a) (Z.of_nat b) l = firstn (b - a) (skipn a l).
Proof.
  intros Hab. unfold slice, clampIndex.
  destruct (Z.ltb_spec (Z.of_nat a) 0) as [H|_]; [lia|].
  destruct (Z.ltb_spec (Z.of_nat b) 0) as [H|_]; [lia|].
  set (L := List.length l).
  replace (Z.to_nat (Z.min (Z.of_nat a) (Z.of_nat L))) with (Nat.min a L) by lia.
  replace (Z.to_nat (Z.min (Z.of_nat b) (Z.of_nat L) - Z.min (Z.of_nat a) (Z.of_nat L)))
    with (Nat.min b L - Nat.min a L)%nat by lia.
  destruct (Nat.le_gt_cases L a) as [H|H].
  - rewrite (Nat.min_r a L), (Nat.min_r b L) by lia.
    rewrite (skipn_all2 (n := L) l) by (unfold L; lia).
    rewrite (skipn_all2 (n := a) l) by (fold L; lia).
    now rewrite !firstn_nil.
  - rewrite (Nat.min_l a L) by lia.
    rewrite <- (firstn_whole _ (b - a)), length_skipn. fold L.
    f_equal. lia.
Qed.

Lemma firstn_plus (A : Type) (a b : nat) (l : list A) :
  firstn (a + b) l = (firstn a l ++ firstn b (skipn a l))%list.
Proof.
  revert l. induction a as [|a IH]; intros l; [reflexivity|].
  destruct l as [|x r]; cbn [Nat.add firstn skipn app].
  - now rewrite firstn_nil.
  - now rewrite IH.
Qed.

Lemma page_data (uid : nat) (k n : nat) (db : DB) (u : User.t) :
  User.findById uid (users db) = Some u ->
  More.pageData (getWatchHistory uid (Some (Z.of_nat (S k))) (Some (Z.of_nat n)) db)
  = firstn n (skipn (k * n)
                    (JS.sort latestFirst
                             (Recommendation.populateHistory
                                (contents db) (User.watchHistory u)))).
Proof.
  intros Hu. unfold getWatchHistory. rewrite Hu.
  cbn [More.pageData hp_data orDefault].
  replace ((Z.of_nat (S k) - 1) * Z.of_nat n)%Z with (Z.of_nat (k * n)) by lia.
  replace (Z.of_nat (S k) * Z.of_nat n)%Z with (Z.of_nat (k * n + n)) by lia.
  rewrite slice_nat by lia. f_equal. lia.
Qed.

(** A list already in the order of the comparator is left as it is. *)
Lemma sort_ordered (A : Type) (before : A -> A -> bool) (l : list A) :
  Spec.ordered before l -> JS.sort before l = l.
Proof.
  unfold Spec.ordered. induction 1 as [|x r Hr IH Hx]; [reflexivity|].
  cbn [JS.sort fold_right]. fold (JS.sort before r). rewrite IH.
  destruct r as [|y t]; [reflexivity|].
  cbn [JS.insert]. now rewrite (Forall_inv Hx).
Qed.

Lemma populate_ordered (cs : list Content.t) (h : list User.entry) :
  Spec.recentFirst h ->
  Spec.ordered latestFirst (Recommendation.populateHistory cs h).
Proof.
  unfold Spec.recentFirst, Spec.ordered, Recommendation.populateHistory.
  induction 1 as [|x r Hr IH Hx]; cbn [map]; constructor; [exact IH|].
  apply Forall_map. eapply Forall_impl; [|exact Hx].
  intros y Hy. unfold latestFirst. cbn [fst]. now apply Z.leb_le.
Qed.

Lemma latestFirst_total (a b : User.entry * option Content.t) :
  latestFirst a b = true \/ latestFirst b a = true.
Proof. unfold latestFirst. rewrite !Z.leb_le. lia. Qed.

Lemma latestFirst_trans (a b c : User.entry * option Content.t) :
  latestFirst a b = true -> latestFirst b c = true -> latestFirst a c = true.
Proof. unfold latestFirst. rewrite !Z.leb_le. lia. Qed.
End HistoryFacts.

(** X15 - Pages of the watch history.  For a stored user and a page size
    [n], the pages 1, 2, ..., k put one after the other are the first
    [k * n] entries of the history sorted latest first (a stable sort of
    the populated ledger), so enough pages list every entry exactly once;
    page 0 is empty; every page reports the length of the whole ledger as
    [total]; and a ledger that is already most-recent-first is listed in
    its own order. *)
Theorem history_pages (uid : nat) (n : nat) (db : DB) (u : User.t) :
  User.findById uid (users db) = Some u ->
  let populated := Recommendation.populateHistory (contents db)
                                                  (User.watchHistory u) in
  let sorted := JS.sort UserController.latestFirst populated in
  Permutation sorted populated
  /\ Spec.ordered UserController.latestFirst sorted
  /\ (forall k, More.pages uid (Z.of_nat n) k db = firstn (k * n) sorted)
  /\ (forall k, (List.length (User.watchHistory u) <= k * n)%nat ->
                More.pages uid (Z.of_nat n) k db = sorted)
  /\ More.pageData (UserController.getWatchHistory
                      uid (Some 0%Z) (Some (Z.of_nat n)) db) = []
  /\ (forall page limit,
         exists p, UserController.getWatchHistory uid page limit db = Ok p
                   /\ UserController.hp_total p
                      = List.length (User.watchHistory u))
  /\ (Spec.recentFirst (User.watchHistory u) -> sorted = populated).
Proof.
  intros Hu populated sorted.
  assert (Hpages : forall k, More.pages uid (Z.of_nat n) k db
                             = firstn (k * n) sorted).
  { induction k as [|k IH]; [reflexivity|].
    cbn [More.pages]. rewrite IH.
    change (match UserController.getWatchHistory
                    uid (Some (Z.of_nat (S k))) (Some (Z.of_nat n)) db with
            | Ok p => UserController.hp_data p
            | _ => []
            end)
      with (More.pageData (UserController.getWatchHistory
                             uid (Some (Z.of_nat (S k))) (Some (Z.of_nat n)) db)).
    rewrite (page_data uid k n db u Hu). fold populated. fold sorted.
    rewrite <- firstn_plus. f_equal. lia. }
  split; [apply sort_perm|].
  split; [apply sort_sorted; [apply latestFirst_total|apply latestFirst_trans]|].
  split; [exact Hpages|].
  split.
  { intros k Hk. rewrite Hpages. apply firstn_all2.
    subst sorted. rewrite sort_length. subst populated.
    unfold Recommendation.populateHistory. now rewrite length_map. }
  split.
  { unfold UserController.getWatchHistory. rewrite Hu.
    cbn [More.pageData UserController.hp_data UserController.orDefault].
    unfold UserController.slice, UserController.clampIndex.
    fold populated. fold sorted.
    set (L := Z.of_nat (List.length sorted)).
    replace ((0 - 1) * Z.of_nat n)%Z with (- Z.of_nat n)%Z by lia.
    replace (0 * Z.of_nat n)%Z with 0%Z by lia.
    cbn [Z.ltb Z.compare].
    replace (Z.to_nat (Z.min 0 L - (if (- Z.of_nat n <? 0)%Z
                                    then Z.max (L + - Z.of_nat n) 0
                                    else Z.min (- Z.of_nat n) L)))
      with 0%nat; [reflexivity|].
    assert (HL : (0 <= L)%Z) by (unfold L; lia).
    destruct (Z.ltb_spec (- Z.of_nat n) 0); lia. }
  split.
  { intros page limit. unfold UserController.getWatchHistory. rewrite Hu.
    eexists. split; reflexivity. }
  intros Hrecent. apply sort_ordered. now apply populate_ordered.
Qed.

Lemma history_pages_witness :
  More.pages 1 2 2 (Examples.dbOf [Examples.watched 2 20; Examples.watched 1 30;
                                   Examples.watched 3 10])
  = Recommendation.populateHistory
      Examples.catalog
      [Examples.watched 1 30; Examples.watched 2 20; Examples.watched 3 10].
Proof.
  rewrite (proj1 (proj2 (proj2 (history_pages
                                  1 2
                                  (Examples.dbOf [Examples.watched 2 20;
                                                  Examples.watched 1 30;
                                                  Examples.watched 3 10])
                                  (Examples.viewer [Examples.watched 2 20;
                                                    Examples.watched 1 30;
                                                    Examples.watched 3 10])
                                  eq_refl)))).
  reflexivity.
Defined.

(** X16 - Clearing the watch history empties the caller's ledger and
    nothing else: the ledgers and watchlists of all users but the caller's
    ledger, the catalogue and the playback sessions are unchanged, so the
    continue-watching view and the resume points are what they were. *)
Theorem clearWatchHistory_effect (uid : nat) (db : DB) :
  let db' := fst (UserController.clearWatchHistory uid db) in
  snd (UserController.clearWatchHistory uid db) = Ok tt
  /\ Spec.ledger uid db' = []
  /\ (forall other, other <> uid -> Spec.ledger other db' = Spec.ledger other db)
  /\ (forall any, More.watchlistOf any db' = More.watchlistOf any db)
  /\ sessions db' = sessions db
  /\ contents db' = contents db
  /\ (forall viewer limit,
         Playback.getContinueWatching viewer limit db'
         = Playback.getContinueWatching viewer limit db)
  /\ (forall viewer cid eid,
         PlaybackReads.getResumePoint viewer cid eid db'
         = PlaybackReads.getResumePoint viewer cid eid db).
Proof.
  cbv zeta. unfold UserController.clearWatchHistory. cbn [fst snd].
  split; [reflexivity|].
  split.
  { unfold Spec.ledger. cbn [users]. rewrite findById_updateHistory.
    destruct (User.findById uid (users db)); cbn; [|reflexivity].
    now rewrite Nat.eqb_refl. }
  split.
  { intros other Ho. unfold Spec.ledger. cbn [users].
    rewrite findById_updateHistory.
    destruct (Nat.eqb_spec other uid) as [->|_]; [tauto|].
    now destruct (User.findById other (users db)). }
  split.
  { intros any. unfold More.watchlistOf. cbn [users].
    rewrite findById_updateHistory.
    destruct (User.findById any (users db)); cbn; [|reflexivity].
    now destruct (Nat.eqb any uid). }
  repeat split.
Qed.

(** ** The detail page *)

Lemma findById_keyed (id : nat) (cs : list Content.t) (c : Content.t) :
  Content.findById id cs = Some c -> Content._id c = id /\ In c cs.
Proof.
  unfold Content.findById. intros H. apply find_some in H.
  destruct H as [Hin E]. apply Nat.eqb_eq in E. now split.
Qed.


(** ** Listings *)

Section ListingFacts.
Import ContentController.

Lemma byViewsCreated_spec (a b : Content.t) :
  Recommendation.byViewsCreated a b = true
  <-> Content.views b < Content.views a
      \/ (Content.views a == Content.views b
          /\ (Content.createdAt b <= Content.createdAt a)%Z).
Proof.
  unfold Recommendation.byViewsCreated.
  now rewrite orb_true_iff, andb_true_iff, Qlt_bool_iff, Qeq_bool_iff, Z.leb_le.
Qed.

Lemma byViewsCreated_total (a b : Content.t) :
  Recommendation.byViewsCreated a b = true
  \/ Recommendation.byViewsCreated b a = true.
Proof.
  rewrite !byViewsCreated_spec.
  destruct (Q_dec (Content.views a) (Content.views b)) as [[H|H]|H].
  - right. now left.
  - left. now left.
  - destruct (Z.le_ge_cases (Content.createdAt a) (Content.createdAt b)).
    + right. right. split; [now symmetry|assumption].
    + left. right. split; assumption.
Qed.

Lemma byViewsCreated_trans (a b c : Content.t) :
  Recommendation.byViewsCreated a b = true ->
  Recommendation.byViewsCreated b c = true ->
  Recommendation.byViewsCreated a c = true.
Proof.
  rewrite !byViewsCreated_spec.
  intros [H1|[E1 L1]] [H2|[E2 L2]].
  - left. eapply Qlt_trans; eassumption.
  - left. now rewrite <- E2.
  - left. now rewrite E1.
  - right. split; [now rewrite E1|lia].
Qed.

Lemma byCreated_total (a b : Content.t) :
  byCreated a b = true \/ byCreated b a = true.
Proof. unfold byCreated. rewrite !Z.leb_le. lia. Qed.

Lemma byCreated_trans (a b c : Content.t) :
  byCreated a b = true -> byCreated b c = true -> byCreated a c = true.
Proof. unfold byCreated. rewrite !Z.leb_le. lia. Qed.

Lemma limit_cases (A : Type) (n : nat) (l : list A) :
  (n = 0%nat -> Mongo.limit n l = l)
  /\ ((0 < n)%nat -> Mongo.limit n l = firstn n l
                     /\ (List.length (Mongo.limit n l) <= n)%nat).
Proof.
  split.
  - now intros ->.
  - intros H. destruct n as [|n]; [lia|]. split; [reflexivity|].
    apply firstn_le_length.
Qed.

Lemma limit_incl (A : Type) (n : nat) (l : list A) (x : A) :
  In x (Mongo.limit n l) -> In x l.
Proof.
  destruct n as [|n]; [trivial|]. cbn [Mongo.limit]. intros H.
  rewrite <- (firstn_skipn (S n) l). apply in_or_app. now left.
Qed.

Lemma listingQuery_spec (type : option string) (c : Content.t) :
  listingQuery type c = true ->
  Content.isPublished c = true
  /\ forall t, JS.orNull type = Some t -> kindName (Content.type c) = t.
Proof.
  unfold listingQuery. rewrite andb_true_iff. intros [Hp Ht].
  split; [exact Hp|]. intros t E. rewrite E in Ht. now apply String.eqb_eq.
Qed.
End ListingFacts.

(** X18 - The trending and new-releases listings.  Each returns published
    content only, of the requested type when the request names one (so a
    type that is neither movie nor series gives an empty list), in the
    order of its sort (views, then creation, descending; creation
    descending), as a prefix of the whole ranking: at most [limit] items
    for a positive limit, and the whole ranking for a limit of 0. *)
Theorem listings_rank_published_content
        (limit : nat) (type : option string) (db : DB) :
  let selected := filter (ContentController.listingQuery type) (contents db) in
  (exists ranked,
      Permutation ranked selected
      /\ Spec.ordered Recommendation.byViewsCreated ranked
      /\ ContentController.getTrendingContent limit type db
         = Ok (Mongo.limit limit ranked)
      /\ (limit = 0%nat -> Mongo.limit limit ranked = ranked)
      /\ ((0 < limit)%nat -> Mongo.limit limit ranked = firstn limit ranked))
  /\ (exists ranked,
         Permutation ranked selected
         /\ Spec.ordered ContentController.byCreated ranked
         /\ ContentController.getNewReleases limit type db
            = Ok (Mongo.limit limit ranked)
         /\ (limit = 0%nat -> Mongo.limit limit ranked = ranked)
         /\ ((0 < limit)%nat -> Mongo.limit limit ranked = firstn limit ranked))
  /\ (forall c, In c selected <->
                In c (contents db)
                /\ ContentController.listingQuery type c = true)
  /\ (forall c, ContentController.listingQuery type c = true ->
                Content.isPublished c = true
                /\ forall t, JS.orNull type = Some t ->
                             ContentController.kindName (Content.type c) = t)
  /\ (forall t, JS.orNull type = Some t ->
                t <> "movie"%string -> t <> "series"%string ->
                ContentController.getTrendingContent limit type db = Ok []
                /\ ContentController.getNewReleases limit type db = Ok []).
Proof.
  cbv zeta. split; [|split; [|split; [|split]]].
  - exists (JS.sort Recommendation.byViewsCreated
                    (filter (ContentController.listingQuery type) (contents db))).
    split; [apply sort_perm|].
    split; [apply sort_sorted;
            [apply byViewsCreated_total|apply byViewsCreated_trans]|].
    split; [reflexivity|].
    split; [apply limit_cases|]. intros H. now apply limit_cases.
  - exists (JS.sort ContentController.byCreated
                    (filter (ContentController.listingQuery type) (contents db))).
    split; [apply sort_perm|].
    split; [apply sort_sorted; [apply byCreated_total|apply byCreated_trans]|].
    split; [reflexivity|].
    split; [apply limit_cases|]. intros H. now apply limit_cases.
  - intros c. apply filter_In.
  - apply listingQuery_spec.
  - intros t E Hm Hs.
    assert (Hnone : filter (ContentController.listingQuery type) (contents db) = []).
    { induction (contents db) as [|c r IH]; [reflexivity|]. cbn [filter].
      destruct (ContentController.listingQuery type c) eqn:Q; [|exact IH].
      destruct (listingQuery_spec _ _ Q) as [_ Ht]. specialize (Ht t E).
      destruct (Content.type c); cbn in Ht; congruence. }
    unfold ContentController.getTrendingContent,
      ContentController.getNewReleases. rewrite Hnone.
    split; now destruct limit.
Qed.

(** ** Deleting content *)

Lemma removeFirst_find (id other : nat) (cs : list Content.t) :
  NoDup (map Content._id cs) ->
  Content.findById other (ContentController.removeFirst id cs)
  = if Nat.eqb other id then None else Content.findById other cs.
Proof.
  unfold Content.findById.
  induction cs as [|c r IH]; cbn [ContentController.removeFirst find map];
    intros Hnd.
  - now destruct (Nat.eqb other id).
  - inversion Hnd as [|? ? Hc Hr]; subst.
    destruct (Nat.eqb_spec (Content._id c) id) as [E|N].
    + destruct (Nat.eqb_spec other id) as [->|No].
      * destruct (find _ r) as [x|] eqn:F; [|reflexivity].
        apply find_some in F. destruct F as [Hin Ex]. apply Nat.eqb_eq in Ex.
        exfalso. apply Hc. rewrite E, <- Ex. now apply in_map.
      * destruct (Nat.eqb_spec (Content._id c) other); [congruence|reflexivity].
    + cbn [find]. destruct (Nat.eqb_spec (Content._id c) other) as [E|_].
      * destruct (Nat.eqb_spec other id); [congruence|reflexivity].
      * now apply IH.
Qed.

(** X19 - Deleting content does not cascade.  [deleteContent] answers 404
    without any change when the content does not resolve; otherwise, with
    unique content ids, it removes that document and no other, leaves
    users (ledgers, watchlists) and sessions as they were, and afterwards
    the content no longer resolves: [startPlayback] for it and the
    similarity lookup on it answer 404. *)
Theorem deleteContent_effect (id : nat) (db : DB) :
  More.uniqueContents db ->
  let r := ContentController.deleteContent id db in
  (Content.findById id (contents db) = None ->
   r = (db, NotFound "Content not found"))
  /\ (Content.findById id (contents db) <> None ->
      snd r = Ok tt
      /\ users (fst r) = users db
      /\ sessions (fst r) = sessions db
      /\ Content.findById id (contents (fst r)) = None
      /\ (forall other, other <> id ->
                        Content.findById other (contents (fst r))
                        = Content.findById other (contents db))
      /\ (forall now user sb,
             Playback.sb_contentId sb = id ->
             Playback.startPlayback now user sb (fst r)
             = (fst r, NotFound "Content not found"))
      /\ (forall limit,
             Recommendation.getSimilarContent id limit (fst r)
             = NotFound "Content not found")).
Proof.
  intros Hnd. cbv zeta. unfold ContentController.deleteContent.
  destruct (Content.findById id (contents db)) as [c|] eqn:F.
  - split; [discriminate|]. intros _. cbn [fst snd users sessions contents].
    assert (Hgone : Content.findById id (ContentController.removeFirst id (contents db))
                    = None)
      by (rewrite removeFirst_find by exact Hnd; now rewrite Nat.eqb_refl).
    split; [reflexivity|]. split; [reflexivity|]. split; [reflexivity|].
    split; [exact Hgone|].
    split.
    { intros other Ho. rewrite removeFirst_find by exact Hnd.
      destruct (Nat.eqb_spec other id); [tauto|reflexivity]. }
    split.
    + intros now user sb Hsb. unfold Playback.startPlayback.
      cbn [contents]. now rewrite Hsb, Hgone.
    + intros limit. unfold Recommendation.getSimilarContent.
      cbn [contents]. now rewrite Hgone.
  - split; [reflexivity|]. tauto.
Qed.

Lemma deleteContent_effect_witness :
  Content.findById 20 (contents (fst (ContentController.deleteContent
                                        20 Examples.db0))) = None.
Proof.
  apply (proj2 (deleteContent_effect 20 Examples.db0
                  ltac:(unfold More.uniqueContents; vm_compute;
                        repeat constructor; simpl; intuition discriminate))).
  discriminate.
Defined.

(** ** The subscription gate *)

Lemma plan_eqb_eq (a b : plan) : plan_eqb a b = true <-> a = b.
Proof. destruct a, b; cbn; split; congruence. Qed.

Lemma requireSubscription_spec (required : plan) (userPlan : option plan)
      (status : option AuthMiddleware.subscriptionStatus) :
  AuthMiddleware.requireSubscription required userPlan status
  = AuthMiddleware.Next
  <-> (Spec.tier required <= Spec.tier (Playback.planOrFree userPlan))%nat
      /\ (status = Some AuthMiddleware.active \/ required = free).
Proof.
  unfold AuthMiddleware.requireSubscription.
  change [free; basic; standard; premium] with Playback.planHierarchy.
  rewrite !indexOf_tier.
  destruct (Z.ltb_spec (Z.of_nat (Spec.tier (Playback.planOrFree userPlan)))
                       (Z.of_nat (Spec.tier required))) as [H|H].
  - split; [discriminate|]. intros [H' _]. lia.
  - destruct (AuthMiddleware.isActive status) eqn:A; cbn [negb andb].
    + split; [|reflexivity]. intros _. split; [lia|left].
      destruct status as [[]|]; cbn in A; congruence.
    + destruct (plan_eqb required free) eqn:P; cbn [negb].
      * apply plan_eqb_eq in P. split; [|reflexivity]. intros _.
        split; [lia|now right].
      * split; [discriminate|]. intros [_ [-> | ->]]; cbn in *; discriminate.
Qed.

(** X20 - The subscription gate lets a request through exactly when the
    tier of the user's plan (free when the user has none) is at least the
    required tier and, unless the requirement is the free plan, the
    subscription is active.  Hence a free requirement always passes, a
    subscription that is not active never passes a paid requirement, and
    whoever passes a requirement passes every lower one. *)
Theorem requireSubscription_gate
        (required : plan) (userPlan : option plan)
        (status : option AuthMiddleware.subscriptionStatus) :
  (AuthMiddleware.requireSubscription required userPlan status
   = AuthMiddleware.Next
   <-> (Spec.tier required <= Spec.tier (Playback.planOrFree userPlan))%nat
       /\ (status = Some AuthMiddleware.active \/ required = free))
  /\ AuthMiddleware.requireSubscription free userPlan status
     = AuthMiddleware.Next
  /\ (status <> Some AuthMiddleware.active -> required <> free ->
      AuthMiddleware.requireSubscription required userPlan status
      = AuthMiddleware.Denied "Your subscription is not active"
      \/ (Spec.tier (Playback.planOrFree userPlan) < Spec.tier required)%nat)
  /\ (forall lower,
         (Spec.tier lower <= Spec.tier required)%nat ->
         AuthMiddleware.requireSubscription required userPlan status
         = AuthMiddleware.Next ->
         AuthMiddleware.requireSubscription lower userPlan status
         = AuthMiddleware.Next).
Proof.
  split; [apply requireSubscription_spec|].
  split; [apply requireSubscription_spec; cbn; split; [lia|now right]|].
  split.
  - intros Hs Hr. unfold AuthMiddleware.requireSubscription.
    change [free; basic; standard; premium] with Playback.planHierarchy.
    rewrite !indexOf_tier.
    destruct (Z.ltb_spec (Z.of_nat (Spec.tier (Playback.planOrFree userPlan)))
                         (Z.of_nat (Spec.tier required))) as [H|H];
      [right; lia|left].
    assert (A : AuthMiddleware.isActive status = false)
      by (destruct status as [[]|]; cbn; congruence).
    assert (P : plan_eqb required free = false).
    { destruct (plan_eqb required free) eqn:P; [|reflexivity].
      apply plan_eqb_eq in P. contradiction. }
    now rewrite A, P.
  - intros lower Hl H. apply requireSubscription_spec in H.
    apply requireSubscription_spec. destruct H as [Ht Ha].
    split; [lia|]. destruct Ha as [-> | ->]; [now left|].
    right. destruct lower; cbn in Hl; [reflexivity|lia|lia|lia].
Qed.

(** ** Quality options *)

Lemma planQualityMap_grows (p p' : plan) (q : string) :
  (Spec.tier p <= Spec.tier p')%nat ->
  In q (PlaybackReads.planQualityMap p) ->
  In q (PlaybackReads.planQualityMap p').
Proof.
  destruct p, p'; cbn; intros H; try lia; intuition auto.
Qed.

Lemma allowed_In (p : plan) (q : PlaybackReads.videoQuality) :
  PlaybackReads.allowed p q = true
  <-> In (PlaybackReads.quality q) (PlaybackReads.planQualityMap p).
Proof.
  unfold PlaybackReads.allowed. rewrite existsb_exists. split.
  - intros (x & Hx & E). apply String.eqb_eq in E. now rewrite E.
  - intros H. exists (PlaybackReads.quality q). split; [exact H|].
    apply String.eqb_refl.
Qed.

(** X21 - Quality options by plan.  [getQualityOptions] answers 404
    exactly when the content does not resolve.  Otherwise it offers the
    content's qualities that the user's plan allows, in their order; a
    plan of a higher tier is offered everything a lower one is; and the
    free plan (or no plan) is offered nothing beyond 360p and 480p. *)
Theorem quality_options_by_plan
        (user : User.t) (cid : nat) (coll : PlaybackReads.qualityCatalog) :
  let found := find (fun d => Nat.eqb (fst d) cid) coll in
  (found = None
   <-> PlaybackReads.getQualityOptions user cid coll
       = NotFound "Content not found")
  /\ forall d, found = Some d ->
      exists offered,
        PlaybackReads.getQualityOptions user cid coll = Ok offered
        /\ (forall q, In q offered <->
                      In q (snd d)
                      /\ In (PlaybackReads.quality q)
                            (PlaybackReads.planQualityMap
                               (Playback.planOrFree (User.subscriptionPlan user))))
        /\ (forall other offered',
               (Spec.tier (Playback.planOrFree (User.subscriptionPlan user))
                <= Spec.tier (Playback.planOrFree (User.subscriptionPlan other)))%nat ->
               PlaybackReads.getQualityOptions other cid coll = Ok offered' ->
               forall q, In q offered -> In q offered')
        /\ (Playback.planOrFree (User.subscriptionPlan user) = free ->
            forall q, In q offered ->
                      PlaybackReads.quality q = "360p"%string
                      \/ PlaybackReads.quality q = "480p"%string).
Proof.
  cbv zeta. unfold PlaybackReads.getQualityOptions.
  destruct (find (fun d => Nat.eqb (fst d) cid) coll) as [d|] eqn:F.
  - split; [split; discriminate|].
    intros d' E. inversion E; subst d'. clear E.
    eexists. split; [reflexivity|].
    split; [intros q; now rewrite filter_In, allowed_In|].
    split.
    + intros other offered' Ht E q Hq. inversion E; subst offered'.
      apply filter_In in Hq. destruct Hq as [Hin Ha].
      apply filter_In. split; [exact Hin|].
      apply allowed_In. apply allowed_In in Ha.
      now apply (planQualityMap_grows _ _ _ Ht).
    + intros Hfree q Hq. apply filter_In in Hq. destruct Hq as [_ Ha].
      apply allowed_In in Ha. rewrite Hfree in Ha. cbn in Ha.
      intuition auto.
  - split; [split; reflexivity|]. intros d E. discriminate.
Qed.

(** ** What the scorer returns *)

Section ScorerFacts.
Import Recommendation.

Lemma idNin_app (a b : list (option nat)) (c : Content.t) :
  idNin (a ++ b) c = idNin a c && idNin b c.
Proof. unfold idNin. now rewrite existsb_app, negb_orb. Qed.

Lemma idNin_spec (ids : list (option nat)) (c : Content.t) :
  idNin ids c = true <-> ~ In (Some (Content._id c)) ids.
Proof.
  unfold idNin. rewrite negb_true_iff. split.
  - intros H Hin.
    assert (E : existsb (fun o => match o with
                                  | Some i => Nat.eqb i (Content._id c)
                                  | None => false
                                  end) ids = true).
    { apply existsb_exists. exists (Some (Content._id c)).
      split; [exact Hin|apply Nat.eqb_refl]. }
    congruence.
  - intros H. destruct (existsb _ ids) eqn:E; [|reflexivity].
    apply existsb_exists in E. destruct E as ([i|] & Hin & Hi); [|discriminate].
    apply Nat.eqb_eq in Hi. subst i. contradiction.
Qed.

Lemma genresIn_spec (gs : list string) (c : Content.t) :
  genresIn gs c = true <-> exists g, In g (Content.genres c) /\ In g gs.
Proof.
  unfold genresIn. rewrite existsb_exists.
  split; intros (g & Hg & H); exists g; (split; [exact Hg|]);
    now apply inb_In.
Qed.

(** A query result: a selection of the collection, sorted and cut. *)
Lemma query_incl (p : Content.t -> bool) (before : Content.t -> Content.t -> bool)
      (n : nat) (cs : list Content.t) (c : Content.t) :
  In c (Mongo.limit n (Mongo.sort before (filter p cs))) ->
  In c cs /\ p c = true.
Proof.
  intros H. apply limit_incl in H. unfold Mongo.sort in H.
  apply (Permutation_in _ (sort_perm _ _ _)) in H. now apply filter_In in H.
Qed.

Lemma query_NoDup (p : Content.t -> bool) (before : Content.t -> Content.t -> bool)
      (n : nat) (cs : list Content.t) :
  NoDup (map Content._id cs) ->
  NoDup (map Content._id (Mongo.limit n (Mongo.sort before (filter p cs)))).
Proof.
  intros H.
  assert (Hf : NoDup (map Content._id (filter p cs))).
  { induction cs as [|x r IH]; cbn [filter map]; [constructor|].
    inversion H as [|? ? Hx Hr]; subst.
    destruct (p x); cbn [map]; [|now apply IH].
    constructor; [|now apply IH].
    intros Hin. apply Hx. apply in_map_iff in Hin.
    destruct Hin as (y & Ey & Hy). apply filter_In in Hy.
    rewrite <- Ey. apply in_map. tauto. }
  assert (Hs : NoDup (map Content._id (Mongo.sort before (filter p cs)))).
  { eapply Permutation_NoDup; [|exact Hf].
    apply Permutation_map, Permutation_sym, sort_perm. }
  destruct n as [|n]; [exact Hs|]. cbn [Mongo.limit].
  rewrite <- firstn_map. now apply NoDup_firstn.
Qed.

Lemma query_length (p : Content.t -> bool) (before : Content.t -> Content.t -> bool)
      (n : nat) (cs : list Content.t) :
  (0 < n)%nat ->
  (List.length (Mongo.limit n (Mongo.sort before (filter p cs))) <= n)%nat.
Proof. intros H. now apply limit_cases. Qed.

Lemma primary_incl (limit : nat) (top : list string)
      (watched : list (option nat)) (cs : list Content.t) (c : Content.t) :
  In c (primary limit top watched cs) ->
  In c cs /\ idNin watched c = true /\ Content.isPublished c = true.
Proof.
  unfold primary. destruct top as [|g top]; [contradiction|].
  intros H. apply query_incl in H. destruct H as [Hin Hp].
  rewrite !andb_true_iff in Hp. tauto.
Qed.

Lemma fill_incl (limit : nat) (watched : list (option nat))
      (recs cs : list Content.t) (c : Content.t) :
  In c (fill limit watched recs cs) ->
  In c recs
  \/ (In c cs /\ idNin watched c = true /\ Content.isPublished c = true).
Proof.
  unfold fill. destruct (List.length recs <? limit)%nat; [|now left].
  rewrite in_app_iff. intros [H|H]; [now left|right].
  apply query_incl in H. destruct H as [Hin Hp].
  rewrite andb_true_iff, idNin_app, andb_true_iff in Hp. tauto.
Qed.

Lemma fill_NoDup (limit : nat) (watched : list (option nat))
      (recs cs : list Content.t) :
  NoDup (map Content._id cs) -> NoDup (map Content._id recs) ->
  NoDup (map Content._id (fill limit watched recs cs)).
Proof.
  intros Hcs Hrecs. unfold fill.
  destruct (List.length recs <? limit)%nat; [|exact Hrecs].
  rewrite map_app. apply NoDup_app; [exact Hrecs|now apply query_NoDup|].
  intros i Hi Hi'. apply in_map_iff in Hi'.
  destruct Hi' as (c & Ec & Hc). apply query_incl in Hc.
  destruct Hc as [_ Hp].
  rewrite andb_true_iff, idNin_app, andb_true_iff in Hp.
  destruct Hp as [[_ Hn] _]. apply idNin_spec in Hn. apply Hn.
  rewrite Ec. apply in_map_iff in Hi. destruct Hi as (x & Ex & Hx).
  apply in_map_iff. exists x. split; [now rewrite Ex|exact Hx].
Qed.

Lemma primary_NoDup (limit : nat) (top : list string)
      (watched : list (option nat)) (cs : list Content.t) :
  NoDup (map Content._id cs) ->
  NoDup (map Content._id (primary limit top watched cs)).
Proof.
  intros H. unfold primary. destruct top; [constructor|].
  now apply query_NoDup.
Qed.

(** A completed history entry puts its content out of reach of [$nin]. *)
Lemma watched_excludes (cs : list Content.t) (u : User.t) (e : User.entry)
      (c : Content.t) :
  In e (User.watchHistory u) -> User.completed e = true -> In c cs ->
  idNin (watchedIds cs u) c = true ->
  Content._id c <> User.contentId e.
Proof.
  intros He Hdone Hc Hn E. apply idNin_spec in Hn. apply Hn.
  unfold watchedIds, populateHistory.
  destruct (Content.findById (User.contentId e) cs) as [c0|] eqn:F.
  - apply in_map_iff. exists (e, Some c0). split.
    + cbn. destruct (findById_keyed _ _ _ F) as [-> _]. now rewrite E.
    + apply filter_In. split; [|exact Hdone].
      apply in_map_iff. exists e. split; [now rewrite F|exact He].
  - exfalso. unfold Content.findById in F.
    apply (find_exists _ (fun x => Nat.eqb (Content._id x) (User.contentId e))
                       cs c Hc); [|exact F].
    rewrite E. apply Nat.eqb_refl.
Qed.
End ScorerFacts.

(** X22 - What personalized recommendations never contain.  For a stored
    viewer, whatever the history, the watchlist, the limit and the shuffle
    (any permutation), every recommended item is a published item of the
    catalogue, none is a content that an entry of the viewer's history
    marks completed, no content is recommended twice when content ids are
    unique, and at most three genres are named as the basis. *)
Theorem personalized_recommendations_are_fresh
        (shuffle : list Content.t -> list Content.t)
        (uid limit : nat) (db : DB) (u : User.t) :
  (forall l, Permutation (shuffle l) l) ->
  User.findById uid (users db) = Some u ->
  exists r,
    Recommendation.getPersonalizedRecommendations shuffle uid limit db = Ok r
    /\ (forall c, In c (Recommendation.data r) ->
                  In c (contents db) /\ Content.isPublished c = true)
    /\ (forall c e, In c (Recommendation.data r) ->
                    In e (User.watchHistory u) -> User.completed e = true ->
                    Content._id c <> User.contentId e)
    /\ (More.uniqueContents db ->
        NoDup (More.contentIds (Recommendation.data r)))
    /\ (List.length (Recommendation.basedOn r) <= 3)%nat.
Proof.
  intros Hperm Hu.
  unfold Recommendation.getPersonalizedRecommendations. rewrite Hu.
  eexists. split; [reflexivity|].
  cbn [Recommendation.data Recommendation.basedOn].
  set (top := Recommendation.topGenres 5 _).
  set (watched := Recommendation.watchedIds (contents db) u).
  set (recs := Recommendation.primary limit top watched (contents db)).
  assert (Hin : forall c,
             In c (shuffle (Recommendation.fill limit watched recs (contents db))) ->
             In c (contents db)
             /\ Recommendation.idNin watched c = true
             /\ Content.isPublished c = true).
  { intros c Hc. apply (Permutation_in _ (Hperm _)) in Hc.
    destruct (fill_incl _ _ _ _ _ Hc) as [H|H]; [|exact H].
    now apply primary_incl in H. }
  split; [intros c Hc; destruct (Hin c Hc); tauto|].
  split.
  { intros c e Hc He Hdone. destruct (Hin c Hc) as (H1 & H2 & _).
    now apply (watched_excludes (contents db) u e c). }
  split.
  { intros Hnd. unfold More.contentIds.
    eapply Permutation_NoDup.
    - apply Permutation_map, Permutation_sym, Hperm.
    - apply fill_NoDup; [exact Hnd|now apply primary_NoDup]. }
  apply firstn_le_length.
Qed.

Lemma personalized_recommendations_are_fresh_witness :
  exists r,
    Recommendation.getPersonalizedRecommendations
      (@rev Content.t) 1 3
      (Examples.dbOf [{| User.contentId := 12; User.watchedAt := 5;
                         User.progress := 100; User.completed := true |}])
    = Ok r
    /\ (forall c, In c (Recommendation.data r) -> Content._id c <> 12%nat).
Proof.
  destruct (personalized_recommendations_are_fresh
              (@rev Content.t) 1 3
              (Examples.dbOf [{| User.contentId := 12; User.watchedAt := 5;
                                 User.progress := 100; User.completed := true |}])
              (Examples.viewer [{| User.contentId := 12; User.watchedAt := 5;
                                   User.progress := 100; User.completed := true |}])
              (fun l => Permutation_sym (Permutation_rev l)) eq_refl)
    as (r & Hok & _ & Hfresh & _).
  exists r. split; [exact Hok|].
  intros c Hc.
  apply (Hfresh c {| User.contentId := 12; User.watchedAt := 5;
                     User.progress := 100; User.completed := true |} Hc).
  - now left.
  - reflexivity.
Defined.

(** X23 - The similarity lookups never return the pivot.  Every item that
    [getSimilarContent] returns is a published item of the catalogue, other
    than the pivot, of the pivot's type, sharing at least one genre with
    it, so a pivot without genres has no similar content; every item that
    [getBecauseYouWatched] returns is a published item other than the
    pivot; and a positive limit bounds both lists. *)
Theorem similarity_lookups_exclude_the_pivot
        (cid limit : nat) (db : DB) (pivot : Content.t) :
  Content.findById cid (contents db) = Some pivot ->
  (exists l,
      Recommendation.getSimilarContent cid limit db = Ok l
      /\ (forall c, In c l ->
                    In c (contents db)
                    /\ Content._id c <> cid
                    /\ Content.isPublished c = true
                    /\ Content.type c = Content.type pivot
                    /\ exists g, In g (Content.genres c)
                                 /\ In g (Content.genres pivot))
      /\ (Content.genres pivot = [] -> l = [])
      /\ ((0 < limit)%nat -> (List.length l <= limit)%nat))
  /\ (exists l,
         Recommendation.getBecauseYouWatched cid limit db = Ok (cid, l)
         /\ (forall c, In c l ->
                       In c (contents db)
                       /\ Content._id c <> cid
                       /\ Content.isPublished c = true)
         /\ ((0 < limit)%nat -> (List.length l <= limit)%nat)).
Proof.
  intros F. destruct (findById_keyed _ _ _ F) as [Hid _].
  unfold Recommendation.getSimilarContent, Recommendation.getBecauseYouWatched.
  rewrite F. split.
  - eexists. split; [reflexivity|].
    assert (Hin : forall c,
               In c (Mongo.limit limit
                       (Mongo.sort Recommendation.byRatingViews
                          (filter (fun c0 =>
                                     negb (Nat.eqb (Content._id c0) cid)
                                     && Content.kind_eqb (Content.type c0)
                                                         (Content.type pivot)
                                     && Recommendation.genresIn (Content.genres pivot) c0
                                     && Content.isPublished c0) (contents db)))) ->
               In c (contents db)
               /\ Content._id c <> cid
               /\ Content.isPublished c = true
               /\ Content.type c = Content.type pivot
               /\ exists g, In g (Content.genres c) /\ In g (Content.genres pivot)).
    { intros c Hc. apply query_incl in Hc. destruct Hc as [Hc Hp].
      rewrite !andb_true_iff, negb_true_iff, Nat.eqb_neq, genresIn_spec in Hp.
      destruct Hp as [[[Hne Hk] Hg] Hpub].
      repeat (split; [assumption|]). split; [|exact Hg].
      destruct (Content.type c), (Content.type pivot); cbn in Hk; congruence. }
    split; [exact Hin|]. split.
    + intros Hnog.
      match goal with |- ?l = [] => destruct l as [|c r] eqn:E end;
        [reflexivity|].
      destruct (Hin c) as (_ & _ & _ & _ & g & _ & Hg).
      * now left.
      * rewrite Hnog in Hg. contradiction.
    + apply query_length.
  - rewrite Hid. eexists. split; [reflexivity|]. split.
    + intros c Hc. apply query_incl in Hc. destruct Hc as [Hc Hp].
      rewrite !andb_true_iff, negb_true_iff, Nat.eqb_neq in Hp.
      destruct Hp as [[Hne Hpub] _]. tauto.
    + apply query_length.
Qed.

Lemma similarity_lookups_exclude_the_pivot_witness :
  exists l,
    Recommendation.getSimilarContent 1 5 Examples.db0 = Ok l
    /\ forall c, In c l -> Content._id c <> 1%nat.
Proof.
  destruct (similarity_lookups_exclude_the_pivot
              1 5 Examples.db0 (Examples.film 1 ["Drama"%string] free 1) eq_refl)
    as [(l & Hok & Hin & _) _].
  exists l. split; [exact Hok|]. intros c Hc. now destruct (Hin c Hc) as (_ & H & _).
Defined.

(** X24 - Top picks are rated.  For a stored viewer every top pick is a
    published item of the catalogue that carries a rating of at least 7
    (an unrated item is never picked); a positive limit bounds the list;
    and for a viewer whose history is empty every pick carries one of the
    genres Drama, Action and Comedy. *)
Theorem top_picks_are_rated (uid limit : nat) (db : DB) (u : User.t) :
  User.findById uid (users db) = Some u ->
  exists l,
    Recommendation.getTopPicks uid limit db = Ok l
    /\ (forall c, In c l ->
                  In c (contents db)
                  /\ Content.isPublished c = true
                  /\ exists rating, Content.imdbRating c = Some rating
                                    /\ 7 <= rating)
    /\ ((0 < limit)%nat -> (List.length l <= limit)%nat)
    /\ (User.watchHistory u = [] ->
        forall c, In c l ->
                  exists g, In g (Content.genres c)
                            /\ In g ["Drama"; "Action"; "Comedy"]%string).
Proof.
  intros Hu. unfold Recommendation.getTopPicks. rewrite Hu.
  eexists. split; [reflexivity|].
  split.
  { intros c Hc. apply query_incl in Hc. destruct Hc as [Hc Hp].
    rewrite !andb_true_iff in Hp. destruct Hp as [[_ Hpub] Hr].
    split; [exact Hc|]. split; [exact Hpub|].
    unfold Recommendation.ratingAtLeast in Hr.
    destruct (Content.imdbRating c) as [rating|]; [|discriminate].
    exists rating. split; [reflexivity|]. now apply Qle_bool_iff. }
  split; [apply query_length|].
  intros Hh c Hc. rewrite Hh in Hc. cbn in Hc.
  apply query_incl in Hc. destruct Hc as [_ Hp].
  rewrite !andb_true_iff in Hp. destruct Hp as [[Hg _] _].
  now apply genresIn_spec in Hg.
Qed.

Lemma top_picks_are_rated_witness :
  exists l,
    Recommendation.getTopPicks 1 5 Examples.db0 = Ok l
    /\ (List.length l <= 5)%nat.
Proof.
  destruct (top_picks_are_rated 1 5 Examples.db0 (Examples.viewer []) eq_refl)
    as (l & Hok & _ & Hlen & _).
  exists l. split; [exact Hok|]. apply Hlen. lia.
Defined.

(** ** Profiles *)

Section ProfileFacts.

Import ProfileController.
Import Accounts.

Lemma find_save (uid uid' : nat) (ps : list Profile.t) (coll : list account) :
  findById uid' (save uid ps coll)
  = option_map (fun a => if Nat.eqb uid' uid then (fst a, ps) else a)
               (findById uid' coll).
Proof.
  exact (find_updateFirst account fst uid uid' (fun a => (fst a, ps)) coll
                          (fun _ H => H)).
Qed.

Lemma profilesOf_save (uid uid' : nat) (ps : list Profile.t)
      (coll : list account) :
  findById uid coll <> None ->
  profilesOf uid' (save uid ps coll)
  = if Nat.eqb uid' uid then ps else profilesOf uid' coll.
Proof.
  intros Hex. unfold profilesOf. rewrite find_save.
  destruct (Nat.eqb uid' uid) eqn:E.
  - apply Nat.eqb_eq in E. subst uid'.
    destruct (findById uid coll); [reflexivity|]. now contradiction Hex.
  - now destruct (findById uid' coll).
Qed.

Lemma profilesOf_save_other (uid uid' : nat) (ps : list Profile.t)
      (coll : list account) :
  uid' <> uid -> profilesOf uid' (save uid ps coll) = profilesOf uid' coll.
Proof.
  intros Hne. unfold profilesOf. rewrite find_save.
  apply Nat.eqb_neq in Hne. rewrite Hne.
  now destruct (findById uid' coll).
Qed.

Lemma findById_save (uid : nat) (ps : list Profile.t) (coll : list account) :
  findById uid coll <> None -> findById uid (save uid ps coll) <> None.
Proof.
  intros Hex. rewrite find_save.
  destruct (findById uid coll); [discriminate|]. now contradiction Hex.
Qed.

Lemma profilesOf_found (uid : nat) (coll : list account) (a : account) :
  findById uid coll = Some a -> profilesOf uid coll = snd a.
Proof. intros H. unfold profilesOf. now rewrite H. Qed.

Lemma findIndex_none (A : Type) (p : A -> bool) (l : list A) :
  findIndex p l = None <-> forall x, In x l -> p x = false.
Proof.
  induction l as [|a l IH]; cbn.
  - split; [intros _ x []|reflexivity].
  - destruct (p a) eqn:E.
    + split; [discriminate|]. intros H. rewrite (H a) in E; [discriminate|now left].
    + destruct (findIndex p l) eqn:F; cbn.
      * split; [discriminate|]. intros H.
        assert (Hn : Some n = None)
          by (apply IH; intros x Hx; apply H; now right).
        discriminate.
      * split; [|reflexivity]. intros _ x [<-|Hx]; [exact E|].
        now apply (proj1 IH).
Qed.

Lemma findIndex_some (A : Type) (p : A -> bool) (l : list A) (i : nat) :
  findIndex p l = Some i ->
  exists l1 x l2,
    l = (l1 ++ x :: l2)%list /\ List.length l1 = i /\ p x = true
    /\ forall y, In y l1 -> p y = false.
Proof.
  revert i. induction l as [|a l IH]; cbn; intros i H; [discriminate|].
  destruct (p a) eqn:E.
  - injection H as <-. exists [], a, l. repeat split; auto. intros y [].
  - destruct (findIndex p l) as [j|] eqn:F; [|discriminate].
    cbn in H. injection H as <-.
    destruct (IH j eq_refl) as (l1 & x & l2 & -> & Hlen & Hx & Hl1).
    exists (a :: l1), x, l2. repeat split; cbn; auto.
    intros y [<-|Hy]; auto.
Qed.

Lemma updateAt_app (A : Type) (f : A -> A) (l1 l2 : list A) (x : A) :
  updateAt (List.length l1) f (l1 ++ x :: l2) = (l1 ++ f x :: l2)%list.
Proof. induction l1 as [|a l1 IH]; cbn; [reflexivity|now rewrite IH]. Qed.

Lemma nth_error_middle (A : Type) (l1 l2 : list A) (x : A) :
  nth_error (l1 ++ x :: l2) (List.length l1) = Some x.
Proof. induction l1 as [|a l1 IH]; cbn; [reflexivity|exact IH]. Qed.

Lemma updateAt_ids (i : nat) (body : updateBody) (ps : list Profile.t) :
  ids (updateAt i (assignFields body) ps) = ids ps.
Proof.
  revert i. induction ps as [|p ps IH]; intros [|i]; cbn; try reflexivity.
  now rewrite IH.
Qed.

Lemma ids_filter (pid : nat) (ps : list Profile.t) :
  ids (filter (fun p => negb (Nat.eqb (Profile._id p) pid)) ps)
  = UserController.pullId pid (ids ps).
Proof.
  unfold ids, UserController.pullId.
  induction ps as [|p ps IH]; cbn; [reflexivity|].
  destruct (Nat.eqb (Profile._id p) pid); cbn; now rewrite IH.
Qed.

Lemma filter_absent (pid : nat) (ps : list Profile.t) :
  ~ In pid (ids ps) ->
  filter (fun p => negb (Nat.eqb (Profile._id p) pid)) ps = ps.
Proof.
  intros Hn. apply filter_all. intros p Hp. apply negb_true_iff, Nat.eqb_neq.
  intros <-. apply Hn. unfold ids. now apply in_map.
Qed.

Lemma pull_one (c : nat) (w : list nat) :
  NoDup w -> In c w ->
  S (List.length (UserController.pullId c w)) = List.length w.
Proof.
  unfold UserController.pullId.
  induction 1 as [|a w Ha Hnd IH]; intros Hin; [contradiction|]. cbn.
  destruct (Nat.eqb a c) eqn:E; cbn.
  - apply Nat.eqb_eq in E. subst a.
    pose proof (pullId_absent c w Ha) as Hp.
    unfold UserController.pullId in Hp. now rewrite Hp.
  - destruct Hin as [->|Hin]; [now rewrite Nat.eqb_refl in E|].
    now rewrite (IH Hin).
Qed.

Lemma pull_NoDup (c : nat) (w : list nat) :
  NoDup w -> NoDup (UserController.pullId c w).
Proof. apply NoDup_filter. Qed.

Lemma NoDup_app_l (A : Type) (l l' : list A) : NoDup (l ++ l') -> NoDup l.
Proof.
  induction l as [|a l IH]; cbn; intros H; [constructor|].
  inversion H as [|? ? Hn Hnd]; subst. constructor; [|now apply IH].
  intros Hin. apply Hn, in_or_app. now left.
Qed.

Lemma NoDup_app_filter (p : nat -> bool) (l l' : list nat) :
  NoDup (l ++ l') -> NoDup (filter p l ++ l').
Proof.
  induction l as [|a l IH]; cbn; intros H; [exact H|].
  inversion H as [|? ? Hn Hnd]; subst.
  destruct (p a); [|now apply IH].
  cbn. constructor; [|now apply IH].
  intros Hin. apply Hn. apply in_app_or in Hin. apply in_or_app.
  destruct Hin as [Hin|Hin]; [left|now right].
  now apply filter_In in Hin.
Qed.

(** One request of a run. *)
Lemma serve_step (uid : nat) (r : request) (rs : list request)
      (coll : list account) :
  NoDup (ids (profilesOf uid coll) ++ created (r :: rs)) ->
  let n := List.length (profilesOf uid coll) in
  let n' := List.length (profilesOf uid (serve uid coll r)) in
  NoDup (ids (profilesOf uid (serve uid coll r)) ++ created rs)
  /\ ((n <= 5)%nat -> (n' <= 5)%nat)
  /\ ((1 <= n)%nat -> (1 <= n')%nat)
  /\ forall other, other <> uid ->
                   profilesOf other (serve uid coll r) = profilesOf other coll.
Proof.
  intros Hnd n n'. subst n n'.
  destruct (findById uid coll) as [a|] eqn:F.
  2:{ assert (Hsame : serve uid coll r = coll).
      { destruct r; cbn; unfold createProfile, updateProfile, deleteProfile;
          now rewrite F. }
      rewrite Hsame. repeat split; auto.
      destruct r; cbn in Hnd; auto.
      apply NoDup_remove_1 in Hnd. exact Hnd. }
  assert (Hex : findById uid coll <> None) by (rewrite F; discriminate).
  pose proof (profilesOf_found uid coll a F) as Hps.
  destruct r as [oid body|pid body|pid]; cbn [serve created] in *.
  - unfold createProfile. rewrite F.
    destruct (5 <=? List.length (snd a))%nat eqn:E; cbn [fst].
    + repeat split; auto. now apply NoDup_remove_1 in Hnd.
    + apply Nat.leb_gt in E. rewrite (profilesOf_save uid uid _ coll Hex).
      rewrite Nat.eqb_refl. rewrite Hps in *.
      repeat split.
      * unfold ids in *. rewrite map_app. cbn. now rewrite <- app_assoc.
      * rewrite length_app. cbn. lia.
      * rewrite length_app. cbn. lia.
      * intros other Hne. now apply profilesOf_save_other.
  - unfold updateProfile. rewrite F.
    destruct (findIndex (fun p => Nat.eqb (Profile._id p) pid) (snd a)) as [i|];
      cbn [fst]; [|repeat split; auto].
    rewrite (profilesOf_save uid uid _ coll Hex), Nat.eqb_refl.
    rewrite Hps in *.
    assert (Hlen : List.length (updateAt i (assignFields body) (snd a))
                   = List.length (snd a)).
    { rewrite <- (length_map Profile._id (updateAt _ _ _)).
      fold (ids (updateAt i (assignFields body) (snd a))).
      rewrite updateAt_ids. unfold ids. now rewrite length_map. }
    rewrite updateAt_ids, Hlen. repeat split; auto.
    intros other Hne. now apply profilesOf_save_other.
  - unfold deleteProfile. rewrite F.
    destruct (List.length (snd a) <=? 1)%nat eqn:E; cbn [fst];
      [repeat split; auto|].
    apply Nat.leb_gt in E.
    rewrite (profilesOf_save uid uid _ coll Hex), Nat.eqb_refl.
    rewrite Hps in *. rewrite ids_filter.
    assert (Hnd' : NoDup (ids (snd a))) by now apply NoDup_app_l in Hnd.
    assert (Hle : (List.length (snd a)
                   <= S (List.length
                           (filter (fun p => negb (Nat.eqb (Profile._id p) pid))
                                   (snd a))))%nat).
    { destruct (in_dec Nat.eq_dec pid (ids (snd a))) as [Hin|Hout].
      - pose proof (pull_one pid (ids (snd a)) Hnd' Hin) as H1.
        rewrite <- ids_filter in H1. unfold ids in H1.
        rewrite !length_map in H1. lia.
      - rewrite (filter_absent pid (snd a) Hout). lia. }
    pose proof (filter_length_le (fun p => negb (Nat.eqb (Profile._id p) pid))
                                 (snd a)) as Hge.
    repeat split.
    + now apply NoDup_app_filter.
    + lia.
    + lia.
    + intros other Hne. now apply profilesOf_save_other.
Qed.

End ProfileFacts.

(** X25 - The number of profiles stays within bounds.  Over any run of
    create, update and delete requests of one user, with profile ids that
    are unique (the stored ones and the ones the creations bring), a user
    with at most five profiles never gets more than five, a user with at
    least one profile never gets down to none, the ids stay unique, and
    the profiles of every other user are untouched. *)
Theorem profile_count_stays_in_bounds
        (uid : nat) (rs : list Accounts.request)
        (coll : list ProfileController.account) :
  NoDup (Accounts.ids (Accounts.profilesOf uid coll) ++ Accounts.created rs) ->
  let n := List.length (Accounts.profilesOf uid coll) in
  let n' := List.length
              (Accounts.profilesOf uid (Accounts.serveAll uid rs coll)) in
  ((n <= 5)%nat -> (n' <= 5)%nat)
  /\ ((1 <= n)%nat -> (1 <= n')%nat)
  /\ NoDup (Accounts.ids
              (Accounts.profilesOf uid (Accounts.serveAll uid rs coll)))
  /\ forall other, other <> uid ->
                   Accounts.profilesOf other (Accounts.serveAll uid rs coll)
                   = Accounts.profilesOf other coll.
Proof.
  revert coll. induction rs as [|r rs IH]; intros coll Hnd; cbn zeta.
  - cbn. rewrite app_nil_r in Hnd. repeat split; auto.
  - cbn [Accounts.serveAll fold_left].
    destruct (serve_step uid r rs coll Hnd) as (Hnd' & Hup & Hlow & Hfr).
    destruct (IH (Accounts.serve uid coll r) Hnd') as (Hup' & Hlow' & Hn & Hfr').
    unfold Accounts.serveAll in *. repeat split; auto.
    intros other Hne. rewrite (Hfr' other Hne). now apply Hfr.
Qed.

Lemma profile_count_stays_in_bounds_witness :
  (1 <= List.length
          (Accounts.profilesOf
             1 (Accounts.serveAll
                  1 [Accounts.Create 11 Accounts.guest; Accounts.Delete 10;
                     Accounts.Delete 11]
                  [(1%nat, [Accounts.owner])])))%nat.
Proof.
  apply (profile_count_stays_in_bounds
           1 [Accounts.Create 11 Accounts.guest; Accounts.Delete 10;
              Accounts.Delete 11]
           [(1%nat, [Accounts.owner])]).
  - cbn. repeat constructor; cbn; intuition lia.
  - cbn. lia.
Defined.

(** X26 - Creating a profile, and deleting it again.  For a stored user,
    [createProfile] refuses with 400 and changes nothing once five
    profiles exist; otherwise it answers 201 with the new profile, which
    is appended after the existing ones with the name as sent, the default
    avatar when the request has none (or an empty one), [isKids] false
    unless sent true, and empty preferences.  Deleting that profile again
    restores the list when the user had a profile before; the first
    profile of a user cannot be deleted again. *)
Theorem create_then_delete_profile
        (oid uid : nat) (body : ProfileController.createBody)
        (coll : list ProfileController.account) :
  ProfileController.findById uid coll <> None ->
  ~ In oid (Accounts.ids (Accounts.profilesOf uid coll)) ->
  let ps := Accounts.profilesOf uid coll in
  let r := ProfileController.createProfile oid uid body coll in
  let back := ProfileController.deleteProfile uid oid (fst r) in
  ((5 <= List.length ps)%nat ->
   r = (coll, ProfileController.Refused 400 "Maximum 5 profiles allowed"))
  /\ ((List.length ps < 5)%nat ->
      exists p,
        snd r = ProfileController.Json 201 (Some p)
        /\ Accounts.profilesOf uid (fst r) = (ps ++ [p])%list
        /\ Profile._id p = oid
        /\ Profile.name p = ProfileController.cb_name body
        /\ (JS.orNull (ProfileController.cb_avatar body) = None ->
            Profile.avatar p = Some "default-profile.png"%string)
        /\ (forall a, JS.orNull (ProfileController.cb_avatar body) = Some a ->
                      Profile.avatar p = Some a)
        /\ (Profile.isKids p = true
            <-> ProfileController.cb_isKids body = Some true)
        /\ Profile.preferences p
           = {| Profile.genres := []; Profile.languages := [] |})
  /\ ((1 <= List.length ps < 5)%nat ->
      snd back = ProfileController.Json 200 tt
      /\ Accounts.profilesOf uid (fst back) = ps)
  /\ (ps = [] ->
      snd back = ProfileController.Refused 400 "Cannot delete the last profile"
      /\ Accounts.ids (Accounts.profilesOf uid (fst back)) = [oid])
  /\ forall other, other <> uid ->
                   Accounts.profilesOf other (fst back)
                   = Accounts.profilesOf other coll.
Proof.
  intros Hex Hfresh ps r back.
  destruct (ProfileController.findById uid coll) as [a|] eqn:F;
    [clear Hex|now contradiction Hex].
  assert (Hex : ProfileController.findById uid coll <> None)
    by (rewrite F; discriminate).
  pose proof (profilesOf_found uid coll a F) as Hps. fold ps in Hps.
  set (p := {| Profile._id := oid;
               Profile.name := ProfileController.cb_name body;
               Profile.avatar :=
                 Some (ProfileController.avatarOrDefault
                         (ProfileController.cb_avatar body));
               Profile.isKids :=
                 ProfileController.orFalse (ProfileController.cb_isKids body);
               Profile.preferences :=
                 {| Profile.genres := []; Profile.languages := [] |} |}).
  assert (Hr : r = if (5 <=? List.length ps)%nat
                   then (coll, ProfileController.Refused
                                 400 "Maximum 5 profiles allowed")
                   else (ProfileController.save uid (ps ++ [p]) coll,
                         ProfileController.Json 201 (Some p))).
  { subst r. unfold ProfileController.createProfile. rewrite F, <- Hps.
    destruct (5 <=? List.length ps)%nat; [reflexivity|].
    cbv zeta. fold p. f_equal. f_equal.
    rewrite length_app. cbn [List.length].
    replace (List.length ps + 1 - 1)%nat with (List.length ps) by lia.
    rewrite <- (app_nil_r (ps ++ [p])), <- app_assoc. cbn [app].
    apply nth_error_middle. }
  assert (Hafter : (List.length ps < 5)%nat ->
                   Accounts.profilesOf uid (fst r) = (ps ++ [p])%list
                   /\ ProfileController.findById uid (fst r) <> None).
  { intros Hlt. rewrite Hr.
    destruct (Nat.leb_spec 5 (List.length ps)); [lia|]. cbn [fst]. split.
    - now rewrite (profilesOf_save uid uid _ coll Hex), Nat.eqb_refl.
    - now apply findById_save. }
  assert (Hgone : filter (fun q => negb (Nat.eqb (Profile._id q) oid))
                         (ps ++ [p]) = ps).
  { rewrite filter_app. cbn. rewrite Nat.eqb_refl. cbn.
    rewrite app_nil_r. now apply filter_absent. }
  assert (Hback : (List.length ps < 5)%nat ->
                  back = if (List.length (ps ++ [p]) <=? 1)%nat
                         then (fst r, ProfileController.Refused
                                        400 "Cannot delete the last profile")
                         else (ProfileController.save uid ps (fst r),
                               ProfileController.Json 200 tt)).
  { intros Hlt. destruct (Hafter Hlt) as [Hps' Hex'].
    subst back. unfold ProfileController.deleteProfile.
    destruct (ProfileController.findById uid (fst r)) as [a'|] eqn:F';
      [|now contradiction Hex'].
    rewrite <- (profilesOf_found uid (fst r) a' F'), Hps', Hgone.
    reflexivity. }
  split; [|split; [|split; [|split]]].
  - intros Hge. rewrite Hr.
    now destruct (Nat.leb_spec 5 (List.length ps)); [|lia].
  - intros Hlt. exists p. destruct (Hafter Hlt) as [Hps' _].
    split; [|split; [exact Hps'|]].
    { rewrite Hr. now destruct (Nat.leb_spec 5 (List.length ps)); [lia|]. }
    subst p. cbn. unfold ProfileController.avatarOrDefault,
                  ProfileController.orFalse.
    repeat split.
    + intros ->. reflexivity.
    + intros a0 ->. reflexivity.
    + destruct (ProfileController.cb_isKids body) as [[|]|]; congruence.
    + destruct (ProfileController.cb_isKids body) as [[|]|]; congruence.
  - intros [Hge Hlt]. destruct (Hafter Hlt) as [_ Hex'].
    rewrite (Hback Hlt). rewrite length_app. cbn [List.length].
    destruct (Nat.leb_spec (List.length ps + 1) 1); [lia|]. cbn [fst snd].
    split; [reflexivity|].
    now rewrite (profilesOf_save uid uid _ (fst r) Hex'), Nat.eqb_refl.
  - intros Hnil. assert (Hlt : (List.length ps < 5)%nat) by (rewrite Hnil; cbn; lia).
    destruct (Hafter Hlt) as [Hps' _].
    rewrite (Hback Hlt), Hnil. cbn [app List.length Nat.leb fst snd].
    split; [reflexivity|]. rewrite Hps', Hnil. reflexivity.
  - intros other Hne.
    assert (H1 : Accounts.profilesOf other (fst r)
                 = Accounts.profilesOf other coll).
    { rewrite Hr. destruct (5 <=? List.length ps)%nat; cbn [fst];
        [reflexivity|now apply profilesOf_save_other]. }
    rewrite <- H1. subst back. unfold ProfileController.deleteProfile.
    destruct (ProfileController.findById uid (fst r)); [|reflexivity].
    destruct (List.length (snd a0) <=? 1)%nat; cbn [fst];
      [reflexivity|now apply profilesOf_save_other].
Qed.

Lemma create_then_delete_profile_witness :
  Accounts.profilesOf
    1 (fst (ProfileController.deleteProfile
              1 11
              (fst (ProfileController.createProfile
                      11 1 Accounts.guest [(1%nat, [Accounts.owner])]))))
  = [Accounts.owner].
Proof.
  refine (proj2 (proj1 (proj2 (proj2
            (create_then_delete_profile
               11 1 Accounts.guest [(1%nat, [Accounts.owner])] _ _))) _)).
  - cbn. discriminate.
  - cbn. intuition lia.
  - cbn. lia.
Defined.

(** X27 - Deleting a profile.  For a stored user, [deleteProfile] refuses
    with 400 and changes nothing while the user has at most one profile.
    With two or more it always answers success: the profiles with the
    given id are removed and the others keep their order, so a request
    for an id that no profile has is answered as deleted although nothing
    changed; with unique ids exactly one profile goes.  The profiles of
    other users are untouched. *)
Theorem deleteProfile_effect
        (uid profileId : nat) (coll : list ProfileController.account) :
  ProfileController.findById uid coll <> None ->
  let ps := Accounts.profilesOf uid coll in
  let r := ProfileController.deleteProfile uid profileId coll in
  let ps' := Accounts.profilesOf uid (fst r) in
  ((List.length ps <= 1)%nat ->
   r = (coll, ProfileController.Refused 400 "Cannot delete the last profile"))
  /\ ((2 <= List.length ps)%nat ->
      snd r = ProfileController.Json 200 tt
      /\ ps' = filter (fun p => negb (Nat.eqb (Profile._id p) profileId)) ps
      /\ ~ In profileId (Accounts.ids ps')
      /\ (~ In profileId (Accounts.ids ps) -> ps' = ps)
      /\ (NoDup (Accounts.ids ps) -> In profileId (Accounts.ids ps) ->
          S (List.length ps') = List.length ps))
  /\ forall other, other <> uid ->
                   Accounts.profilesOf other (fst r)
                   = Accounts.profilesOf other coll.
Proof.
  intros Hex ps r ps'.
  destruct (ProfileController.findById uid coll) as [a|] eqn:F;
    [clear Hex|now contradiction Hex].
  assert (Hex : ProfileController.findById uid coll <> None)
    by (rewrite F; discriminate).
  pose proof (profilesOf_found uid coll a F) as Hps. fold ps in Hps.
  assert (Hr : r = if (List.length ps <=? 1)%nat
                   then (coll, ProfileController.Refused
                                 400 "Cannot delete the last profile")
                   else (ProfileController.save
                           uid
                           (filter (fun p => negb (Nat.eqb (Profile._id p)
                                                           profileId)) ps)
                           coll,
                         ProfileController.Json 200 tt)).
  { subst r. unfold ProfileController.deleteProfile. now rewrite F, <- Hps. }
  split; [|split].
  - intros Hle. rewrite Hr.
    now destruct (Nat.leb_spec (List.length ps) 1); [|lia].
  - intros Hge.
    assert (Hps' : ps' = filter (fun p => negb (Nat.eqb (Profile._id p)
                                                        profileId)) ps).
    { subst ps'. rewrite Hr.
      destruct (Nat.leb_spec (List.length ps) 1); [lia|]. cbn [fst].
      now rewrite (profilesOf_save uid uid _ coll Hex), Nat.eqb_refl. }
    split; [|split; [exact Hps'|split; [|split]]].
    + rewrite Hr. now destruct (Nat.leb_spec (List.length ps) 1); [lia|].
    + rewrite Hps', ids_filter. apply pullId_gone.
    + intros Hout. rewrite Hps'. now apply filter_absent.
    + intros Hnd Hin. rewrite Hps'.
      pose proof (pull_one profileId (Accounts.ids ps) Hnd Hin) as H1.
      rewrite <- ids_filter in H1. unfold Accounts.ids in H1.
      now rewrite !length_map in H1.
  - intros other Hne. rewrite Hr.
    destruct (List.length ps <=? 1)%nat; cbn [fst];
      [reflexivity|now apply profilesOf_save_other].
Qed.

Lemma deleteProfile_effect_witness :
  ProfileController.deleteProfile 1 10 [(1%nat, [Accounts.owner])]
  = ([(1%nat, [Accounts.owner])],
     ProfileController.Refused 400 "Cannot delete the last profile").
Proof.
  refine (proj1 (deleteProfile_effect 1 10 [(1%nat, [Accounts.owner])] _) _).
  - cbn. discriminate.
  - cbn. lia.
Defined.

(** X28 - Updating a profile.  For a stored user, [updateProfile] answers
    404 and changes nothing when no profile has the id.  Otherwise only
    the first profile with that id changes, by the fields the request
    carries, and it is the answer's data; the ids of the profiles, their
    number and their order stay; a request that carries no field (or only
    an empty name and avatar) leaves the profiles as they were, while
    [isKids] sent as false is stored.  The profiles of other users are
    untouched. *)
Theorem updateProfile_effect
        (uid profileId : nat) (body : ProfileController.updateBody)
        (coll : list ProfileController.account) :
  ProfileController.findById uid coll <> None ->
  let ps := Accounts.profilesOf uid coll in
  let r := ProfileController.updateProfile uid profileId body coll in
  let ps' := Accounts.profilesOf uid (fst r) in
  (~ In profileId (Accounts.ids ps) ->
   r = (coll, ProfileController.Refused 404 "Profile not found"))
  /\ (In profileId (Accounts.ids ps) ->
      exists earlier p later,
        ps = (earlier ++ p :: later)%list
        /\ Profile._id p = profileId
        /\ ~ In profileId (Accounts.ids earlier)
        /\ ps' = (earlier ++ ProfileController.assignFields body p :: later)%list
        /\ snd r = ProfileController.Json
                     200 (Some (ProfileController.assignFields body p))
        /\ (forall b, ProfileController.ub_isKids body = Some b ->
                      Profile.isKids (ProfileController.assignFields body p) = b))
  /\ Accounts.ids ps' = Accounts.ids ps
  /\ (JS.orNull (ProfileController.ub_name body) = None ->
      JS.orNull (ProfileController.ub_avatar body) = None ->
      ProfileController.ub_isKids body = None ->
      ProfileController.ub_preferences body = None ->
      ps' = ps)
  /\ forall other, other <> uid ->
                   Accounts.profilesOf other (fst r)
                   = Accounts.profilesOf other coll.
Proof.
  intros Hex ps r ps'.
  destruct (ProfileController.findById uid coll) as [a|] eqn:F;
    [clear Hex|now contradiction Hex].
  assert (Hex : ProfileController.findById uid coll <> None)
    by (rewrite F; discriminate).
  pose proof (profilesOf_found uid coll a F) as Hps. fold ps in Hps.
  set (sel := fun p => Nat.eqb (Profile._id p) profileId).
  assert (Hr : r = match ProfileController.findIndex sel ps with
                   | None => (coll, ProfileController.Refused
                                      404 "Profile not found")
                   | Some i =>
                       (ProfileController.save
                          uid
                          (ProfileController.updateAt
                             i (ProfileController.assignFields body) ps)
                          coll,
                        ProfileController.Json
                          200
                          (nth_error
                             (ProfileController.updateAt
                                i (ProfileController.assignFields body) ps) i))
                   end).
  { subst r. unfold ProfileController.updateProfile. now rewrite F, <- Hps. }
  assert (Hsel : forall l, (forall x, In x l -> sel x = false)
                           <-> ~ In profileId (Accounts.ids l)).
  { intros l. unfold Accounts.ids. rewrite in_map_iff. split.
    - intros H (x & Hx & Hin). specialize (H x Hin). unfold sel in H.
      rewrite Hx, Nat.eqb_refl in H. discriminate.
    - intros H x Hin. unfold sel. apply Nat.eqb_neq. intros Hx.
      apply H. now exists x. }
  assert (Hfields : JS.orNull (ProfileController.ub_name body) = None ->
                    JS.orNull (ProfileController.ub_avatar body) = None ->
                    ProfileController.ub_isKids body = None ->
                    ProfileController.ub_preferences body = None ->
                    forall p, ProfileController.assignFields body p = p).
  { intros H1 H2 H3 H4 p. unfold ProfileController.assignFields.
    rewrite H1, H2, H3, H4. now destruct p. }
  destruct (ProfileController.findIndex sel ps) as [i|] eqn:Fi.
  - destruct (findIndex_some _ sel ps i Fi)
      as (l1 & x & l2 & Hsplit & Hlen & Hx & Hl1).
    assert (Hup : ProfileController.updateAt
                    i (ProfileController.assignFields body) ps
                  = (l1 ++ ProfileController.assignFields body x :: l2)%list).
    { rewrite Hsplit, <- Hlen. apply updateAt_app. }
    assert (Hps' : ps' = (l1 ++ ProfileController.assignFields body x :: l2)%list).
    { subst ps'. rewrite Hr. cbn [fst].
      now rewrite (profilesOf_save uid uid _ coll Hex), Nat.eqb_refl. }
    assert (Hin : In profileId (Accounts.ids ps)).
    { rewrite Hsplit. unfold Accounts.ids. rewrite map_app. apply in_or_app.
      right. left. now apply Nat.eqb_eq. }
    split; [intros Hout; now contradiction Hout|].
    split; [|split; [|split]].
    + intros _. exists l1, x, l2.
      split; [exact Hsplit|]. split; [now apply Nat.eqb_eq|].
      split; [now apply Hsel|]. split; [exact Hps'|]. split.
      * rewrite Hr. cbn [snd]. f_equal. rewrite Hup, <- Hlen.
        apply nth_error_middle.
      * intros b Hb. unfold ProfileController.assignFields. cbn.
        now rewrite Hb.
    + rewrite Hps', Hsplit. unfold Accounts.ids. now rewrite !map_app.
    + intros H1 H2 H3 H4. rewrite Hps', Hsplit.
      now rewrite (Hfields H1 H2 H3 H4 x).
    + intros other Hne. rewrite Hr. cbn [fst].
      now apply profilesOf_save_other.
  - assert (Hout : ~ In profileId (Accounts.ids ps)).
    { apply Hsel. now apply (findIndex_none _ sel ps). }
    assert (Hsame : ps' = ps) by (subst ps'; now rewrite Hr).
    split; [intros _; exact Hr|].
    split; [intros Hin; now contradiction Hout|].
    split; [now rewrite Hsame|]. split; [intros _ _ _ _; exact Hsame|].
    intros other Hne. now rewrite Hr.
Qed.

Lemma updateProfile_effect_witness :
  ProfileController.updateProfile
    1 99
    {| ProfileController.ub_name := Some "Kid"%string;
       ProfileController.ub_avatar := None;
       ProfileController.ub_isKids := Some true;
       ProfileController.ub_preferences := None |}
    [(1%nat, [Accounts.owner])]
  = ([(1%nat, [Accounts.owner])],
     ProfileController.Refused 404 "Profile not found").
Proof.
  refine (proj1 (updateProfile_effect 1 99 _ [(1%nat, [Accounts.owner])] _) _).
  - cbn. discriminate.
  - cbn. intuition lia.
Defined.
